(** * KernelView-Go: the fact-collection core, embedded and verified

    The development follows [gather/gather.go] (the probes and the
    orchestrator [GetSystemInfo]), [main.go] (flag handling) and
    [display/display.go] (the report).

    Conventions of the embedding.
    - A Go [string] is a byte string; it is a Rocq [string] here.  The
      functions of Go's [strings] package that work on runes decode
      UTF-8 as [unicode/utf8] does and use the tables of [unicode].
    - A Go [int] is a [Z]; [uint64] and [uint32] are [N]; [float64] is
      the primitive IEEE binary64 [float].
    - Everything a probe asks of the machine (commands, files, environment
      variables, gopsutil queries, sockets) is a field of the record
      [Host]: one [Host] is the state of the machine during one pass.
    - A goroutine that indexes a slice out of range panics; such code
      returns an [outcome]. *)

From Stdlib Require Import ZArith NArith List Ascii String Bool Lia.
From Stdlib Require Import Sorting.Permutation Sorting.Sorted.
From Stdlib Require Import Floats.
From Stdlib Require Import Structures.OrdersEx.
From stdpp Require Import base option list sorting gmap strings.

Local Open Scope Z_scope.

(** ** Results of code that may panic *)

Inductive outcome (A : Type) : Type :=
  | Ret (a : A)
  | Panic (msg : string).
Arguments Ret {A} a.
Arguments Panic {A} msg.

Definition obind {A B} (o : outcome A) (k : A -> outcome B) : outcome B :=
  match o with
  | Ret a => k a
  | Panic m => Panic m
  end.

Notation "'let!' x ':=' c 'in' k" := (obind c (fun x => k))
  (at level 10, x name, c at level 100, k at level 200).

(** ** Go's [unicode/utf8] package: runes in byte strings

    A rune is a [Z]. *)

Module utf8.

Definition RuneError : Z := 0xFFFD.
Definition RuneSelf : Z := 0x80.
Definition MaxRune : Z := 0x10FFFF.

Definition byte (c : ascii) : Z := Z.of_N (N_of_ascii c).
Definition char (b : Z) : ascii := ascii_of_N (Z.to_N b).

Definition between (lo hi b : Z) : bool := (lo <=? b) && (b <=? hi).

(** A continuation byte, 0x80 to 0xBF. *)
Definition cont (b : Z) : bool := between 0x80 0xBF b.

(** [RuneStart]: not a continuation byte. *)
Definition RuneStart (b : Z) : bool := negb (cont b).

(** [DecodeRuneInString]: the first rune of [s] and what follows it,
    [None] for the empty string.  An encoding that is invalid,
    incomplete, too long for its rune or of a surrogate gives
    [RuneError] and a width of one byte; the second byte admitted
    depends on the first as in the table [acceptRanges]. *)
Definition DecodeRuneInString (s : string) : option (Z * string) :=
  match s with
  | EmptyString => None
  | String c0 r0 =>
      let b0 := byte c0 in
      let invalid := Some (RuneError, r0) in
      if b0 <? RuneSelf then Some (b0, r0)
      else if between 0xC2 0xDF b0 then
        match r0 with
        | String c1 r1 =>
            let b1 := byte c1 in
            if cont b1 then Some ((b0 mod 32) * 64 + b1 mod 64, r1)
            else invalid
        | _ => invalid
        end
      else if between 0xE0 0xEF b0 then
        match r0 with
        | String c1 (String c2 r2) =>
            let b1 := byte c1 in
            let b2 := byte c2 in
            let lo := if b0 =? 0xE0 then 0xA0 else 0x80 in
            let hi := if b0 =? 0xED then 0x9F else 0xBF in
            if between lo hi b1 && cont b2
            then Some ((b0 mod 16) * 4096 + (b1 mod 64) * 64 + b2 mod 64, r2)
            else invalid
        | _ => invalid
        end
      else if between 0xF0 0xF4 b0 then
        match r0 with
        | String c1 (String c2 (String c3 r3)) =>
            let b1 := byte c1 in
            let b2 := byte c2 in
            let b3 := byte c3 in
            let lo := if b0 =? 0xF0 then 0x90 else 0x80 in
            let hi := if b0 =? 0xF4 then 0x8F else 0xBF in
            if between lo hi b1 && cont b2 && cont b3
            then Some ((b0 mod 8) * 262144 + (b1 mod 64) * 4096
                       + (b2 mod 64) * 64 + b3 mod 64, r3)
            else invalid
        | _ => invalid
        end
      else invalid
  end.

(** The last [k] bytes of [s], and the bytes before them. *)
Definition lastBytes (k : nat) (s : string) : string :=
  String.substring (String.length s - k) k s.
Definition butLast (k : nat) (s : string) : string :=
  String.substring 0 (String.length s - k) s.

(** [DecodeLastRuneInString]: the last rune of [s] and what precedes
    it.  The rune starts at the nearest byte, two to four bytes from
    the end, that is no continuation byte; when there is none, or when
    the rune decoded from there does not end where [s] ends, the result
    is [RuneError] with a width of one byte. *)
Definition DecodeLastRuneInString (s : string) : option (Z * string) :=
  match lastBytes 1 s with
  | EmptyString => None
  | String c _ =>
      if byte c <? RuneSelf then Some (byte c, butLast 1 s)
      else
        let invalid := Some (RuneError, butLast 1 s) in
        let from (k : nat) :=
          match DecodeRuneInString (lastBytes k s) with
          | Some (r, EmptyString) => Some (r, butLast k s)
          | _ => invalid
          end in
        let start (k : nat) : bool :=
          (k <=? String.length s)%nat
          && match lastBytes k s with
             | String c _ => RuneStart (byte c)
             | EmptyString => false
             end in
        if start 2%nat then from 2%nat
        else if start 3%nat then from 3%nat
        else if start 4%nat then from 4%nat
        else invalid
  end.

(** [AppendRune]: the encoding of [r]; a surrogate or a value out of
    range is encoded as [RuneError]. *)
Definition EncodeRune (r : Z) : string :=
  let three (r : Z) :=
    String (char (0xE0 + r / 4096))
      (String (char (0x80 + (r / 64) mod 64))
         (String (char (0x80 + r mod 64)) EmptyString)) in
  if between 0 0x7F r then String (char r) EmptyString
  else if between 0x80 0x7FF r then
    String (char (0xC0 + r / 64)) (String (char (0x80 + r mod 64)) EmptyString)
  else if (r <? 0) || (MaxRune <? r) || between 0xD800 0xDFFF r
  then three RuneError
  else if r <=? 0xFFFF then three r
  else
    String (char (0xF0 + r / 262144))
      (String (char (0x80 + (r / 4096) mod 64))
         (String (char (0x80 + (r / 64) mod 64))
            (String (char (0x80 + r mod 64)) EmptyString))).

End utf8.

(** ** Go's [unicode] package: white space and case *)

Module unicode.

(** [IsSpace]: the runes with the property White_Space. *)
Definition IsSpace (r : Z) : bool :=
  utf8.between 0x09 0x0D r || (r =? 0x20) || (r =? 0x85) || (r =? 0xA0)
  || (r =? 0x1680) || utf8.between 0x2000 0x200A r || (r =? 0x2028)
  || (r =? 0x2029) || (r =? 0x202F) || (r =? 0x205F) || (r =? 0x3000).

(** A range of the case tables: the runes from the first to the second
    number, in steps of the third, are moved by the fourth. *)
Fixpoint to (ranges : list (Z * Z * Z * Z)) (r : Z) : Z :=
  match ranges with
  | [] => r
  | (lo, hi, stride, delta) :: rest =>
      if utf8.between lo hi r && ((r - lo) mod stride =? 0) then r + delta
      else to rest r
  end.

(** The simple lower-case mappings of Unicode 15.0, the ones
    [unicode.CaseRanges] holds for [LowerCase]. *)
Definition lowerRanges : list (Z * Z * Z * Z) :=
  [(0x0041, 0x005A, 1, 32); (0x00C0, 0x00D6, 1, 32); (0x00D8, 0x00DE, 1, 32);
   (0x0100, 0x012E, 2, 1); (0x0130, 0x0130, 1, (-199));
   (0x0132, 0x0136, 2, 1); (0x0139, 0x0147, 2, 1); (0x014A, 0x0176, 2, 1);
   (0x0178, 0x0178, 1, (-121)); (0x0179, 0x017D, 2, 1);
   (0x0181, 0x0181, 1, 210); (0x0182, 0x0184, 2, 1);
   (0x0186, 0x0186, 1, 206); (0x0187, 0x0187, 1, 1);
   (0x0189, 0x018A, 1, 205); (0x018B, 0x018B, 1, 1); (0x018E, 0x018E, 1, 79);
   (0x018F, 0x018F, 1, 202); (0x0190, 0x0190, 1, 203);
   (0x0191, 0x0191, 1, 1); (0x0193, 0x0193, 1, 205);
   (0x0194, 0x0194, 1, 207); (0x0196, 0x0196, 1, 211);
   (0x0197, 0x0197, 1, 209); (0x0198, 0x0198, 1, 1);
   (0x019C, 0x019C, 1, 211); (0x019D, 0x019D, 1, 213);
   (0x019F, 0x019F, 1, 214); (0x01A0, 0x01A4, 2, 1);
   (0x01A6, 0x01A6, 1, 218); (0x01A7, 0x01A7, 1, 1);
   (0x01A9, 0x01A9, 1, 218); (0x01AC, 0x01AC, 1, 1);
   (0x01AE, 0x01AE, 1, 218); (0x01AF, 0x01AF, 1, 1);
   (0x01B1, 0x01B2, 1, 217); (0x01B3, 0x01B5, 2, 1);
   (0x01B7, 0x01B7, 1, 219); (0x01B8, 0x01B8, 1, 1); (0x01BC, 0x01BC, 1, 1);
   (0x01C4, 0x01C4, 1, 2); (0x01C5, 0x01C5, 1, 1); (0x01C7, 0x01C7, 1, 2);
   (0x01C8, 0x01C8, 1, 1); (0x01CA, 0x01CA, 1, 2); (0x01CB, 0x01DB, 2, 1);
   (0x01DE, 0x01EE, 2, 1); (0x01F1, 0x01F1, 1, 2); (0x01F2, 0x01F4, 2, 1);
   (0x01F6, 0x01F6, 1, (-97)); (0x01F7, 0x01F7, 1, (-56));
   (0x01F8, 0x021E, 2, 1); (0x0220, 0x0220, 1, (-130));
   (0x0222, 0x0232, 2, 1); (0x023A, 0x023A, 1, 10795);
   (0x023B, 0x023B, 1, 1); (0x023D, 0x023D, 1, (-163));
   (0x023E, 0x023E, 1, 10792); (0x0241, 0x0241, 1, 1);
   (0x0243, 0x0243, 1, (-195)); (0x0244, 0x0244, 1, 69);
   (0x0245, 0x0245, 1, 71); (0x0246, 0x024E, 2, 1); (0x0370, 0x0372, 2, 1);
   (0x0376, 0x0376, 1, 1); (0x037F, 0x037F, 1, 116); (0x0386, 0x0386, 1, 38);
   (0x0388, 0x038A, 1, 37); (0x038C, 0x038C, 1, 64); (0x038E, 0x038F, 1, 63);
   (0x0391, 0x03A1, 1, 32); (0x03A3, 0x03AB, 1, 32); (0x03CF, 0x03CF, 1, 8);
   (0x03D8, 0x03EE, 2, 1); (0x03F4, 0x03F4, 1, (-60));
   (0x03F7, 0x03F7, 1, 1); (0x03F9, 0x03F9, 1, (-7)); (0x03FA, 0x03FA, 1, 1);
   (0x03FD, 0x03FF, 1, (-130)); (0x0400, 0x040F, 1, 80);
   (0x0410, 0x042F, 1, 32); (0x0460, 0x0480, 2, 1); (0x048A, 0x04BE, 2, 1);
   (0x04C0, 0x04C0, 1, 15); (0x04C1, 0x04CD, 2, 1); (0x04D0, 0x052E, 2, 1);
   (0x0531, 0x0556, 1, 48); (0x10A0, 0x10C5, 1, 7264);
   (0x10C7, 0x10C7, 1, 7264); (0x10CD, 0x10CD, 1, 7264);
   (0x13A0, 0x13EF, 1, 38864); (0x13F0, 0x13F5, 1, 8);
   (0x1C90, 0x1CBA, 1, (-3008)); (0x1CBD, 0x1CBF, 1, (-3008));
   (0x1E00, 0x1E94, 2, 1); (0x1E9E, 0x1E9E, 1, (-7615));
   (0x1EA0, 0x1EFE, 2, 1); (0x1F08, 0x1F0F, 1, (-8));
   (0x1F18, 0x1F1D, 1, (-8)); (0x1F28, 0x1F2F, 1, (-8));
   (0x1F38, 0x1F3F, 1, (-8)); (0x1F48, 0x1F4D, 1, (-8));
   (0x1F59, 0x1F5F, 2, (-8)); (0x1F68, 0x1F6F, 1, (-8));
   (0x1F88, 0x1F8F, 1, (-8)); (0x1F98, 0x1F9F, 1, (-8));
   (0x1FA8, 0x1FAF, 1, (-8)); (0x1FB8, 0x1FB9, 1, (-8));
   (0x1FBA, 0x1FBB, 1, (-74)); (0x1FBC, 0x1FBC, 1, (-9));
   (0x1FC8, 0x1FCB, 1, (-86)); (0x1FCC, 0x1FCC, 1, (-9));
   (0x1FD8, 0x1FD9, 1, (-8)); (0x1FDA, 0x1FDB, 1, (-100));
   (0x1FE8, 0x1FE9, 1, (-8)); (0x1FEA, 0x1FEB, 1, (-112));
   (0x1FEC, 0x1FEC, 1, (-7)); (0x1FF8, 0x1FF9, 1, (-128));
   (0x1FFA, 0x1FFB, 1, (-126)); (0x1FFC, 0x1FFC, 1, (-9));
   (0x2126, 0x2126, 1, (-7517)); (0x212A, 0x212A, 1, (-8383));
   (0x212B, 0x212B, 1, (-8262)); (0x2132, 0x2132, 1, 28);
   (0x2160, 0x216F, 1, 16); (0x2183, 0x2183, 1, 1); (0x24B6, 0x24CF, 1, 26);
   (0x2C00, 0x2C2F, 1, 48); (0x2C60, 0x2C60, 1, 1);
   (0x2C62, 0x2C62, 1, (-10743)); (0x2C63, 0x2C63, 1, (-3814));
   (0x2C64, 0x2C64, 1, (-10727)); (0x2C67, 0x2C6B, 2, 1);
   (0x2C6D, 0x2C6D, 1, (-10780)); (0x2C6E, 0x2C6E, 1, (-10749));
   (0x2C6F, 0x2C6F, 1, (-10783)); (0x2C70, 0x2C70, 1, (-10782));
   (0x2C72, 0x2C72, 1, 1); (0x2C75, 0x2C75, 1, 1);
   (0x2C7E, 0x2C7F, 1, (-10815)); (0x2C80, 0x2CE2, 2, 1);
   (0x2CEB, 0x2CED, 2, 1); (0x2CF2, 0x2CF2, 1, 1); (0xA640, 0xA66C, 2, 1);
   (0xA680, 0xA69A, 2, 1); (0xA722, 0xA72E, 2, 1); (0xA732, 0xA76E, 2, 1);
   (0xA779, 0xA77B, 2, 1); (0xA77D, 0xA77D, 1, (-35332));
   (0xA77E, 0xA786, 2, 1); (0xA78B, 0xA78B, 1, 1);
   (0xA78D, 0xA78D, 1, (-42280)); (0xA790, 0xA792, 2, 1);
   (0xA796, 0xA7A8, 2, 1); (0xA7AA, 0xA7AA, 1, (-42308));
   (0xA7AB, 0xA7AB, 1, (-42319)); (0xA7AC, 0xA7AC, 1, (-42315));
   (0xA7AD, 0xA7AD, 1, (-42305)); (0xA7AE, 0xA7AE, 1, (-42308));
   (0xA7B0, 0xA7B0, 1, (-42258)); (0xA7B1, 0xA7B1, 1, (-42282));
   (0xA7B2, 0xA7B2, 1, (-42261)); (0xA7B3, 0xA7B3, 1, 928);
   (0xA7B4, 0xA7C2, 2, 1); (0xA7C4, 0xA7C4, 1, (-48));
   (0xA7C5, 0xA7C5, 1, (-42307)); (0xA7C6, 0xA7C6, 1, (-35384));
   (0xA7C7, 0xA7C9, 2, 1); (0xA7D0, 0xA7D0, 1, 1); (0xA7D6, 0xA7D8, 2, 1);
   (0xA7F5, 0xA7F5, 1, 1); (0xFF21, 0xFF3A, 1, 32);
   (0x10400, 0x10427, 1, 40); (0x104B0, 0x104D3, 1, 40);
   (0x10570, 0x1057A, 1, 39); (0x1057C, 0x1058A, 1, 39);
   (0x1058C, 0x10592, 1, 39); (0x10594, 0x10595, 1, 39);
   (0x10C80, 0x10CB2, 1, 64); (0x118A0, 0x118BF, 1, 32);
   (0x16E40, 0x16E5F, 1, 32); (0x1E900, 0x1E921, 1, 34)].

(** The simple title-case mappings of Unicode 15.0, the ones
    [unicode.CaseRanges] holds for [TitleCase]. *)
Definition titleRanges : list (Z * Z * Z * Z) :=
  [(0x0061, 0x007A, 1, (-32)); (0x00B5, 0x00B5, 1, 743);
   (0x00E0, 0x00F6, 1, (-32)); (0x00F8, 0x00FE, 1, (-32));
   (0x00FF, 0x00FF, 1, 121); (0x0101, 0x012F, 2, (-1));
   (0x0131, 0x0131, 1, (-232)); (0x0133, 0x0137, 2, (-1));
   (0x013A, 0x0148, 2, (-1)); (0x014B, 0x0177, 2, (-1));
   (0x017A, 0x017E, 2, (-1)); (0x017F, 0x017F, 1, (-300));
   (0x0180, 0x0180, 1, 195); (0x0183, 0x0185, 2, (-1));
   (0x0188, 0x0188, 1, (-1)); (0x018C, 0x018C, 1, (-1));
   (0x0192, 0x0192, 1, (-1)); (0x0195, 0x0195, 1, 97);
   (0x0199, 0x0199, 1, (-1)); (0x019A, 0x019A, 1, 163);
   (0x019E, 0x019E, 1, 130); (0x01A1, 0x01A5, 2, (-1));
   (0x01A8, 0x01A8, 1, (-1)); (0x01AD, 0x01AD, 1, (-1));
   (0x01B0, 0x01B0, 1, (-1)); (0x01B4, 0x01B6, 2, (-1));
   (0x01B9, 0x01B9, 1, (-1)); (0x01BD, 0x01BD, 1, (-1));
   (0x01BF, 0x01BF, 1, 56); (0x01C4, 0x01C4, 1, 1);
   (0x01C6, 0x01C6, 1, (-1)); (0x01C7, 0x01C7, 1, 1);
   (0x01C9, 0x01C9, 1, (-1)); (0x01CA, 0x01CA, 1, 1);
   (0x01CC, 0x01DC, 2, (-1)); (0x01DD, 0x01DD, 1, (-79));
   (0x01DF, 0x01EF, 2, (-1)); (0x01F1, 0x01F1, 1, 1);
   (0x01F3, 0x01F5, 2, (-1)); (0x01F9, 0x021F, 2, (-1));
   (0x0223, 0x0233, 2, (-1)); (0x023C, 0x023C, 1, (-1));
   (0x023F, 0x0240, 1, 10815); (0x0242, 0x0242, 1, (-1));
   (0x0247, 0x024F, 2, (-1)); (0x0250, 0x0250, 1, 10783);
   (0x0251, 0x0251, 1, 10780); (0x0252, 0x0252, 1, 10782);
   (0x0253, 0x0253, 1, (-210)); (0x0254, 0x0254, 1, (-206));
   (0x0256, 0x0257, 1, (-205)); (0x0259, 0x0259, 1, (-202));
   (0x025B, 0x025B, 1, (-203)); (0x025C, 0x025C, 1, 42319);
   (0x0260, 0x0260, 1, (-205)); (0x0261, 0x0261, 1, 42315);
   (0x0263, 0x0263, 1, (-207)); (0x0265, 0x0265, 1, 42280);
   (0x0266, 0x0266, 1, 42308); (0x0268, 0x0268, 1, (-209));
   (0x0269, 0x0269, 1, (-211)); (0x026A, 0x026A, 1, 42308);
   (0x026B, 0x026B, 1, 10743); (0x026C, 0x026C, 1, 42305);
   (0x026F, 0x026F, 1, (-211)); (0x0271, 0x0271, 1, 10749);
   (0x0272, 0x0272, 1, (-213)); (0x0275, 0x0275, 1, (-214));
   (0x027D, 0x027D, 1, 10727); (0x0280, 0x0280, 1, (-218));
   (0x0282, 0x0282, 1, 42307); (0x0283, 0x0283, 1, (-218));
   (0x0287, 0x0287, 1, 42282); (0x0288, 0x0288, 1, (-218));
   (0x0289, 0x0289, 1, (-69)); (0x028A, 0x028B, 1, (-217));
   (0x028C, 0x028C, 1, (-71)); (0x0292, 0x0292, 1, (-219));
   (0x029D, 0x029D, 1, 42261); (0x029E, 0x029E, 1, 42258);
   (0x0345, 0x0345, 1, 84); (0x0371, 0x0373, 2, (-1));
   (0x0377, 0x0377, 1, (-1)); (0x037B, 0x037D, 1, 130);
   (0x03AC, 0x03AC, 1, (-38)); (0x03AD, 0x03AF, 1, (-37));
   (0x03B1, 0x03C1, 1, (-32)); (0x03C2, 0x03C2, 1, (-31));
   (0x03C3, 0x03CB, 1, (-32)); (0x03CC, 0x03CC, 1, (-64));
   (0x03CD, 0x03CE, 1, (-63)); (0x03D0, 0x03D0, 1, (-62));
   (0x03D1, 0x03D1, 1, (-57)); (0x03D5, 0x03D5, 1, (-47));
   (0x03D6, 0x03D6, 1, (-54)); (0x03D7, 0x03D7, 1, (-8));
   (0x03D9, 0x03EF, 2, (-1)); (0x03F0, 0x03F0, 1, (-86));
   (0x03F1, 0x03F1, 1, (-80)); (0x03F2, 0x03F2, 1, 7);
   (0x03F3, 0x03F3, 1, (-116)); (0x03F5, 0x03F5, 1, (-96));
   (0x03F8, 0x03F8, 1, (-1)); (0x03FB, 0x03FB, 1, (-1));
   (0x0430, 0x044F, 1, (-32)); (0x0450, 0x045F, 1, (-80));
   (0x0461, 0x0481, 2, (-1)); (0x048B, 0x04BF, 2, (-1));
   (0x04C2, 0x04CE, 2, (-1)); (0x04CF, 0x04CF, 1, (-15));
   (0x04D1, 0x052F, 2, (-1)); (0x0561, 0x0586, 1, (-48));
   (0x13F8, 0x13FD, 1, (-8)); (0x1C80, 0x1C80, 1, (-6254));
   (0x1C81, 0x1C81, 1, (-6253)); (0x1C82, 0x1C82, 1, (-6244));
   (0x1C83, 0x1C84, 1, (-6242)); (0x1C85, 0x1C85, 1, (-6243));
   (0x1C86, 0x1C86, 1, (-6236)); (0x1C87, 0x1C87, 1, (-6181));
   (0x1C88, 0x1C88, 1, 35266); (0x1D79, 0x1D79, 1, 35332);
   (0x1D7D, 0x1D7D, 1, 3814); (0x1D8E, 0x1D8E, 1, 35384);
   (0x1E01, 0x1E95, 2, (-1)); (0x1E9B, 0x1E9B, 1, (-59));
   (0x1EA1, 0x1EFF, 2, (-1)); (0x1F00, 0x1F07, 1, 8); (0x1F10, 0x1F15, 1, 8);
   (0x1F20, 0x1F27, 1, 8); (0x1F30, 0x1F37, 1, 8); (0x1F40, 0x1F45, 1, 8);
   (0x1F51, 0x1F57, 2, 8); (0x1F60, 0x1F67, 1, 8); (0x1F70, 0x1F71, 1, 74);
   (0x1F72, 0x1F75, 1, 86); (0x1F76, 0x1F77, 1, 100);
   (0x1F78, 0x1F79, 1, 128); (0x1F7A, 0x1F7B, 1, 112);
   (0x1F7C, 0x1F7D, 1, 126); (0x1F80, 0x1F87, 1, 8); (0x1F90, 0x1F97, 1, 8);
   (0x1FA0, 0x1FA7, 1, 8); (0x1FB0, 0x1FB1, 1, 8); (0x1FB3, 0x1FB3, 1, 9);
   (0x1FBE, 0x1FBE, 1, (-7205)); (0x1FC3, 0x1FC3, 1, 9);
   (0x1FD0, 0x1FD1, 1, 8); (0x1FE0, 0x1FE1, 1, 8); (0x1FE5, 0x1FE5, 1, 7);
   (0x1FF3, 0x1FF3, 1, 9); (0x214E, 0x214E, 1, (-28));
   (0x2170, 0x217F, 1, (-16)); (0x2184, 0x2184, 1, (-1));
   (0x24D0, 0x24E9, 1, (-26)); (0x2C30, 0x2C5F, 1, (-48));
   (0x2C61, 0x2C61, 1, (-1)); (0x2C65, 0x2C65, 1, (-10795));
   (0x2C66, 0x2C66, 1, (-10792)); (0x2C68, 0x2C6C, 2, (-1));
   (0x2C73, 0x2C73, 1, (-1)); (0x2C76, 0x2C76, 1, (-1));
   (0x2C81, 0x2CE3, 2, (-1)); (0x2CEC, 0x2CEE, 2, (-1));
   (0x2CF3, 0x2CF3, 1, (-1)); (0x2D00, 0x2D25, 1, (-7264));
   (0x2D27, 0x2D27, 1, (-7264)); (0x2D2D, 0x2D2D, 1, (-7264));
   (0xA641, 0xA66D, 2, (-1)); (0xA681, 0xA69B, 2, (-1));
   (0xA723, 0xA72F, 2, (-1)); (0xA733, 0xA76F, 2, (-1));
   (0xA77A, 0xA77C, 2, (-1)); (0xA77F, 0xA787, 2, (-1));
   (0xA78C, 0xA78C, 1, (-1)); (0xA791, 0xA793, 2, (-1));
   (0xA794, 0xA794, 1, 48); (0xA797, 0xA7A9, 2, (-1));
   (0xA7B5, 0xA7C3, 2, (-1)); (0xA7C8, 0xA7CA, 2, (-1));
   (0xA7D1, 0xA7D1, 1, (-1)); (0xA7D7, 0xA7D9, 2, (-1));
   (0xA7F6, 0xA7F6, 1, (-1)); (0xAB53, 0xAB53, 1, (-928));
   (0xAB70, 0xABBF, 1, (-38864)); (0xFF41, 0xFF5A, 1, (-32));
   (0x10428, 0x1044F, 1, (-40)); (0x104D8, 0x104FB, 1, (-40));
   (0x10597, 0x105A1, 1, (-39)); (0x105A3, 0x105B1, 1, (-39));
   (0x105B3, 0x105B9, 1, (-39)); (0x105BB, 0x105BC, 1, (-39));
   (0x10CC0, 0x10CF2, 1, (-64)); (0x118C0, 0x118DF, 1, (-32));
   (0x16E60, 0x16E7F, 1, (-32)); (0x1E922, 0x1E943, 1, (-34))].

(** [unicode.ToLower] and [unicode.ToTitle]. *)
Definition ToLower (r : Z) : Z :=
  if r <=? 0x7F then (if utf8.between 0x41 0x5A r then r + 32 else r)
  else to lowerRanges r.

Definition ToTitle (r : Z) : Z :=
  if r <=? 0x7F then (if utf8.between 0x61 0x7A r then r - 32 else r)
  else to titleRanges r.

End unicode.

(** ** Go's [strings] package

    [Index], [Split], [Replace] and their like work on bytes;
    [ToLower], [Title], [TrimSpace] and [Fields] decode runes. *)

Module strings.

Definition byte_of (c : ascii) : N := N_of_ascii c.

(** The table [asciiSpace]: tab, LF, VT, FF, CR, space. *)
Definition isSpace (c : ascii) : bool :=
  let n := byte_of c in
  ((9 <=? n) && (n <=? 13) || (n =? 32))%N.

Definition isUpper (c : ascii) : bool :=
  let n := byte_of c in ((65 <=? n) && (n <=? 90))%N.
Definition isLower (c : ascii) : bool :=
  let n := byte_of c in ((97 <=? n) && (n <=? 122))%N.
Definition isDigit (c : ascii) : bool :=
  let n := byte_of c in ((48 <=? n) && (n <=? 57))%N.

Definition toLowerByte (c : ascii) : ascii :=
  if isUpper c then ascii_of_N (byte_of c + 32) else c.

Fixpoint mapBytes (f : ascii -> ascii) (s : string) : string :=
  match s with
  | EmptyString => EmptyString
  | String c r => String (f c) (mapBytes f r)
  end.

Fixpoint isASCII (s : string) : bool :=
  match s with
  | EmptyString => true
  | String c r => (byte_of c <? 128)%N && isASCII r
  end.

Fixpoint dropBytes (n : nat) (s : string) : string :=
  match n, s with
  | O, _ => s
  | S n', String _ r => dropBytes n' r
  | S _, EmptyString => EmptyString
  end.

Fixpoint takeBytes (n : nat) (s : string) : string :=
  match n, s with
  | O, _ => EmptyString
  | S n', String c r => String c (takeBytes n' r)
  | S _, EmptyString => EmptyString
  end.

(** The bytes of the first rune of [s], [rest] being what follows
    it. *)
Definition runeBytes (s rest : string) : string :=
  takeBytes (String.length s - String.length rest) s.

(** [Map] for a mapping that drops no rune: the runes of [s] are
    decoded, mapped and encoded one after the other.  A byte that is
    no valid encoding is decoded as [RuneError] and so replaced by the
    three bytes of U+FFFD.  (When every rune is mapped to itself the
    source returns [s], which is what encoding the runes again
    gives.)  Every round consumes at least one byte. *)
Fixpoint mapRunes (fuel : nat) (mapping : Z -> Z) (s : string) : string :=
  match fuel with
  | O => EmptyString
  | S f =>
      match utf8.DecodeRuneInString s with
      | None => EmptyString
      | Some (c, rest) => utf8.EncodeRune (mapping c) +:+ mapRunes f mapping rest
      end
  end.

Definition Map (mapping : Z -> Z) (s : string) : string :=
  mapRunes (String.length s) mapping s.

(** [strings.ToLower]: byte by byte when [s] is ASCII, else rune by
    rune. *)
Definition ToLower (s : string) : string :=
  if isASCII s then mapBytes toLowerByte s else Map unicode.ToLower s.

(** [isSeparator] of strings.go: ASCII letters, digits and underscore
    are no separators, every other ASCII rune is; a rune beyond ASCII
    is one when it is white space (a letter or a digit, which the
    source rules out first, is no white space). *)
Definition isSeparator (r : Z) : bool :=
  if r <=? 0x7F
  then negb (utf8.between 0x30 0x39 r || utf8.between 0x61 0x7A r
             || utf8.between 0x41 0x5A r || (r =? 0x5F))
  else unicode.IsSpace r.

(** The mapping of [Title], which remembers the rune before: a rune
    behind a separator is mapped to its title case. *)
Fixpoint titleRunes (fuel : nat) (prev : Z) (s : string) : string :=
  match fuel with
  | O => EmptyString
  | S f =>
      match utf8.DecodeRuneInString s with
      | None => EmptyString
      | Some (r, rest) =>
          utf8.EncodeRune (if isSeparator prev then unicode.ToTitle r else r)
          +:+ titleRunes f r rest
      end
  end.

(** [strings.Title]: the first letter of every word in title case. *)
Definition Title (s : string) : string :=
  titleRunes (String.length s) 0x20 s.

(** [TrimLeftFunc(s, unicode.IsSpace)]: the runes are decoded from
    the front. *)
Fixpoint trimLeftFuel (fuel : nat) (s : string) : string :=
  match fuel with
  | O => s
  | S f =>
      match utf8.DecodeRuneInString s with
      | Some (r, rest) => if unicode.IsSpace r then trimLeftFuel f rest else s
      | None => s
      end
  end.

Definition trimLeft (s : string) : string := trimLeftFuel (String.length s) s.

(** [TrimRightFunc(s, unicode.IsSpace)]: the runes are decoded from
    the end. *)
Fixpoint trimRightFuel (fuel : nat) (s : string) : string :=
  match fuel with
  | O => s
  | S f =>
      match utf8.DecodeLastRuneInString s with
      | Some (r, init) => if unicode.IsSpace r then trimRightFuel f init else s
      | None => s
      end
  end.

Definition trimRight (s : string) : string := trimRightFuel (String.length s) s.

(** [strings.TrimSpace]: white space as [unicode.IsSpace] has it is cut
    off at both ends. *)
Definition TrimSpace (s : string) : string := trimRight (trimLeft s).

Fixpoint HasPrefix (s p : string) {struct p} : bool :=
  match p, s with
  | EmptyString, _ => true
  | String a p', String b s' => Ascii.eqb a b && HasPrefix s' p'
  | String _ _, EmptyString => false
  end.

(** [strings.Index]: position of the first occurrence, [None] for -1. *)
Fixpoint Index (s sub : string) : option nat :=
  if HasPrefix s sub then Some O
  else match s with
       | EmptyString => None
       | String _ r => S <$> Index r sub
       end.

(** [strings.LastIndex]: position of the last occurrence. *)
Fixpoint LastIndex (s sub : string) : option nat :=
  match s with
  | EmptyString => if HasPrefix s sub then Some O else None
  | String _ r =>
      match LastIndex r sub with
      | Some i => Some (S i)
      | None => if HasPrefix s sub then Some O else None
      end
  end.

Definition Contains (s sub : string) : bool :=
  match Index s sub with Some _ => true | None => false end.

(** [genSplit] of strings.go for a non-empty separator: cut at the
    first occurrence, continue behind it.  Every round consumes at
    least one byte, so [String.length s] rounds are enough. *)
Fixpoint genSplit (fuel : nat) (s sep : string) : list string :=
  match fuel with
  | O => [s]
  | S f =>
      match Index s sep with
      | None => [s]
      | Some i =>
          takeBytes i s :: genSplit f (dropBytes (i + String.length sep) s) sep
      end
  end.

Definition Split (s sep : string) : list string :=
  genSplit (String.length s) s sep.

(** [strings.Fields]: the maximal runs of runes that are no white
    space, as [FieldsFunc(s, unicode.IsSpace)] finds them. *)
Fixpoint fieldsFrom (fuel : nat) (cur : string) (s : string) : list string :=
  match fuel with
  | O => match cur with EmptyString => [] | _ => [cur] end
  | S f =>
      match utf8.DecodeRuneInString s with
      | None => match cur with EmptyString => [] | _ => [cur] end
      | Some (r, rest) =>
          if unicode.IsSpace r
          then match cur with
               | EmptyString => fieldsFrom f EmptyString rest
               | _ => cur :: fieldsFrom f EmptyString rest
               end
          else fieldsFrom f (cur +:+ runeBytes s rest) rest
      end
  end.

Definition Fields (s : string) : list string :=
  fieldsFrom (String.length s) EmptyString s.

Fixpoint Join (elems : list string) (sep : string) : string :=
  match elems with
  | [] => EmptyString
  | [e] => e
  | e :: rest => e +:+ sep +:+ Join rest sep
  end.

(** [strings.Replace s old new n] for a non-empty [old] and [n >= 0]:
    the first [n] occurrences, left to right, are replaced. *)
Fixpoint Replace (s old new : string) (n : nat) : string :=
  match n with
  | O => s
  | S n' =>
      match Index s old with
      | None => s
      | Some i =>
          takeBytes i s +:+ new +:+
          Replace (dropBytes (i + String.length old) s) old new n'
      end
  end.

Definition HasSuffix (s suf : string) : bool :=
  let n := String.length s in
  let k := String.length suf in
  (k <=? n)%nat && String.eqb (dropBytes (n - k) s) suf.

Definition TrimSuffix (s suf : string) : string :=
  if HasSuffix s suf
  then takeBytes (String.length s - String.length suf) s
  else s.

(** [strings.SplitN s sep n] for a non-empty [sep]: nothing for
    [n = 0], all the pieces for [n < 0], else at most [n] pieces, the
    last of them the unsplit rest. *)
Definition SplitN (s sep : string) (n : Z) : list string :=
  if n =? 0 then []
  else if n <? 0 then Split s sep
  else genSplit (Nat.min (Nat.pred (Z.to_nat n)) (String.length s)) s sep.

Fixpoint repeat (count : nat) (s : string) : string :=
  match count with
  | O => EmptyString
  | S k => s +:+ repeat k s
  end.

(** [strings.Repeat]: it panics on a negative count. *)
Definition Repeat (s : string) (count : Z) : outcome string :=
  if count <? 0 then Panic "strings: negative Repeat count"
  else Ret (repeat (Z.to_nat count) s).

End strings.


(** ** Go's [strconv] package: [Itoa] and [Atoi] *)

Module strconv.

Definition maxInt : Z := 2 ^ 63 - 1.
Definition minInt : Z := - 2 ^ 63.

Definition digitByte (d : N) : ascii := ascii_of_N (48 + d).

(** Decimal digits of [n], most significant first, pushed in front of
    [acc]; [fuel] bounds the number of digits. *)
Fixpoint formatBits (fuel : nat) (n : N) (acc : string) : string :=
  match fuel with
  | O => acc
  | S f =>
      let acc' := String (digitByte (n mod 10)) acc in
      if (n <? 10)%N then acc' else formatBits f (n / 10) acc'
  end.

Definition FormatUint (n : N) : string :=
  formatBits (S (N.to_nat (N.log2 n))) n EmptyString.

(** [strconv.Itoa]. *)
Definition Itoa (i : Z) : string :=
  if i <? 0 then String "-" (FormatUint (Z.to_N (- i)))
  else FormatUint (Z.to_N i).

(** The digit loop of [Atoi]: [n = n*10 + int(ch - '0')], a syntax
    error on any other byte. *)
Fixpoint parseDigits (n : Z) (s : string) : option Z :=
  match s with
  | EmptyString => Some n
  | String ch r =>
      if strings.isDigit ch
      then parseDigits (n * 10 + (Z.of_N (N_of_ascii ch) - 48)) r
      else None
  end.

(** [strconv.Atoi] on a 64-bit platform: an optional sign, at least
    one digit, nothing else; a value outside [int] is a range error. *)
Definition Atoi (s : string) : option Z :=
  let '(neg, digits) :=
    match s with
    | String "-" r => (true, r)
    | String "+" r => (false, r)
    | _ => (false, s)
    end in
  match digits with
  | EmptyString => None
  | _ =>
      match parseDigits 0 digits with
      | None => None
      | Some n =>
          let v := if neg then - n else n in
          if (minInt <=? v) && (v <=? maxInt) then Some v else None
      end
  end.

End strconv.

(** ** Go's [float64] and the verbs of [fmt.Sprintf] the program uses *)

Module fmt.

(** [float64(u)] for an unsigned integer: round to nearest, ties to
    even. *)
Definition float64_of_N (u : N) : float :=
  match u with
  | N0 => 0%float
  | Npos p => SF2Prim (binary_normalize 53 1024 (Zpos p) 0 false)
  end.

Definition float64_of_Z (i : Z) : float :=
  if i <? 0 then (- float64_of_N (Z.to_N (- i)))%float
  else float64_of_N (Z.to_N i).

(** [int(f)]: truncation toward zero; what is not representable
    (NaN, infinities, out of range) gives the smallest [int], as on
    amd64. *)
Definition int_of_float64 (f : float) : Z :=
  match Prim2SF f with
  | S754_zero _ => 0
  | S754_finite s m e =>
      let mag := if 0 <=? e then Zpos m * 2 ^ e else Zpos m / 2 ^ (- e) in
      let v := if s then - mag else mag in
      if (strconv.minInt <=? v) && (v <=? strconv.maxInt) then v
      else strconv.minInt
  | _ => strconv.minInt
  end.

Fixpoint zeros (n : nat) : string :=
  match n with
  | O => EmptyString
  | S k => String "0" (zeros k)
  end.

(** The fraction digits of a number [q] scaled by [10^prec]. *)
Definition fracDigits (prec : nat) (q : Z) : string :=
  let d := strconv.Itoa (q mod 10 ^ Z.of_nat prec) in
  zeros (prec - String.length d) +:+ d.

Definition fixedOfScaled (neg : bool) (prec : nat) (q : Z) : string :=
  (if neg then "-" else "") +:+
  strconv.Itoa (q / 10 ^ Z.of_nat prec) +:+
  match prec with
  | O => EmptyString
  | _ => "." +:+ fracDigits prec q
  end.

(** The verb [%.<prec>f]: the exact binary value, rounded to [prec]
    decimals, ties to even. *)
Definition Sprintf_f (prec : nat) (x : float) : string :=
  match Prim2SF x with
  | S754_nan => "NaN"
  | S754_infinity s => if s then "-Inf" else "+Inf"
  | S754_zero s => fixedOfScaled s prec 0
  | S754_finite s m e =>
      let p10 := 10 ^ Z.of_nat prec in
      let q :=
        if 0 <=? e then Zpos m * 2 ^ e * p10
        else
          let num := Zpos m * p10 in
          let den := 2 ^ (- e) in
          let q0 := num / den in
          let r := num mod den in
          if (den <? 2 * r) || ((den =? 2 * r) && Z.odd q0)
          then q0 + 1 else q0 in
      fixedOfScaled s prec q
  end.

(** The verb [%d]. *)
Definition Sprintf_d (i : Z) : string := strconv.Itoa i.

End fmt.


(** ** Go's [time.Duration] and [sort] *)

Module time.

(** Two's-complement wrap-around of [int64] arithmetic. *)
Definition wrap64 (z : Z) : Z := (z + 2 ^ 63) mod 2 ^ 64 - 2 ^ 63.

Definition Second : Z := 1000000000.
Definition Minute : Z := 60 * Second.
Definition Hour : Z := 60 * Minute.

(** [Duration.Hours] and [Duration.Minutes] of time.go. *)
Definition Hours (d : Z) : float :=
  (fmt.float64_of_Z (Z.quot d Hour) +
   fmt.float64_of_Z (Z.rem d Hour) / fmt.float64_of_Z Hour)%float.
Definition Minutes (d : Z) : float :=
  (fmt.float64_of_Z (Z.quot d Minute) +
   fmt.float64_of_Z (Z.rem d Minute) / fmt.float64_of_Z Minute)%float.

End time.

Module sort.

Definition string_le (s t : string) : Prop := String.leb s t = true.

#[export] Instance string_le_dec : RelDecision string_le.
Proof. intros s t. unfold string_le. apply _. Defined.

(** [sort.Ints] and [sort.Strings]: the result is the ascending
    arrangement of the slice (for a total order on values that are
    equal when equivalent, every sorting algorithm gives this list). *)
Definition Ints (l : list Z) : list Z := merge_sort Z.le l.
Definition Strings (l : list string) : list string := merge_sort string_le l.

End sort.

(** ** The machine a pass runs on *)

(** The gopsutil records, with the fields the program reads. *)
Module host.
Record InfoStat := {
  Uptime : N;
  Platform : string;
  PlatformVersion : string;
  KernelVersion : string
}.
Record TemperatureStat := { SensorKey : string; Temperature : float }.
End host.

Module cpu.
Record InfoStat := { ModelName : string; Mhz : float }.
End cpu.

Module mem.
Record VirtualMemoryStat := { Used : N; Total : N; UsedPercent : float }.
(** The same three fields of [SwapMemoryStat]. *)
Record SwapMemoryStat := { sUsed : N; sTotal : N; sUsedPercent : float }.
End mem.

Module disk.
Record UsageStat := { Used : N; Total : N; UsedPercent : float }.
End disk.

Module psnet.
Record Addr := { IP : string; Port : N }.
Record ConnectionStat := { Status : string; Laddr : Addr }.
End psnet.

(** A [net.IP] is a byte slice. *)
Definition netIP := list N.

(** What [net.InterfaceAddrs] lists: [*net.IPNet] values, or addresses
    of another dynamic type. *)
Inductive netAddr :=
  | IPNet (ip : netIP)
  | OtherAddr.

(** The answers of the machine.  A call that returns [(v, err)] and
    whose [v] the program reads only when [err == nil] is an [option];
    where the program drops [err] and reads [v] anyway the field is
    [v] itself. *)
Record Host := {
  GOOS : string;
  runtime_Version : string;
  (* exec.Command(name, arg...).Output() *)
  exec_Output : string -> list string -> option string;
  (* exec.LookPath(file) succeeds *)
  exec_LookPath : string -> bool;
  os_Getenv : string -> string;
  os_ReadFile : string -> option string;
  os_Hostname : string;
  host_Info : option host.InfoStat;
  (* platform and version of host.PlatformInformation() *)
  host_PlatformInformation : string * string;
  host_Virtualization : option string;
  host_SensorsTemperatures : option (list host.TemperatureStat);
  cpu_Info : option (list cpu.InfoStat);
  cpu_Counts : bool -> Z;
  cpu_Percent : option (list float);
  mem_VirtualMemory : option mem.VirtualMemoryStat;
  mem_SwapMemory : option mem.SwapMemoryStat;
  disk_Usage : string -> option disk.UsageStat;
  psnet_Connections : string -> option (list psnet.ConnectionStat);
  (* the local address of net.Dial("udp", "8.8.8.8:53") *)
  net_Dial : option netIP;
  net_InterfaceAddrs : option (list netAddr)
}.

(** ** SystemInfo *)

Record SystemInfo := {
  OS : string;
  Kernel : string;
  Uptime : string;
  Shell : string;
  CPU : string;
  CoresThreads : string;
  CPUSpeed : string;
  CPUUsage : string;
  GPU : string;
  RAM : string;
  Disk : string;
  Swap : string;
  Hostname : string;
  IPAddress : string;
  OpenPorts : string;
  Locale : string;
  Resolution : string;
  WindowManager : string;
  DE : string;
  Terminal : string;
  Packages : string;
  Languages : string;
  Go : string;
  Virtualization : string;
  Temperature : string
}.

(** The zero value [&SystemInfo{}]. *)
Definition zeroInfo : SystemInfo :=
  {| OS := ""; Kernel := ""; Uptime := ""; Shell := ""; CPU := "";
     CoresThreads := ""; CPUSpeed := ""; CPUUsage := ""; GPU := "";
     RAM := ""; Disk := ""; Swap := ""; Hostname := ""; IPAddress := "";
     OpenPorts := ""; Locale := ""; Resolution := ""; WindowManager := "";
     DE := ""; Terminal := ""; Packages := ""; Languages := ""; Go := "";
     Virtualization := ""; Temperature := "" |}.

(** The addressable string fields of [SystemInfo]: what [&info.X] can
    point to. *)
Inductive field :=
  | fOS | fKernel | fUptime | fShell | fCPU | fCoresThreads | fCPUSpeed
  | fCPUUsage | fGPU | fRAM | fDisk | fSwap | fHostname | fIPAddress
  | fOpenPorts | fLocale | fResolution | fWindowManager | fDE | fTerminal
  | fPackages | fLanguages | fGo | fVirtualization | fTemperature.

#[export] Instance field_eq_dec : EqDecision field.
Proof. solve_decision. Defined.

Definition all_fields : list field :=
  [fOS; fKernel; fUptime; fShell; fCPU; fCoresThreads; fCPUSpeed;
   fCPUUsage; fGPU; fRAM; fDisk; fSwap; fHostname; fIPAddress;
   fOpenPorts; fLocale; fResolution; fWindowManager; fDE; fTerminal;
   fPackages; fLanguages; fGo; fVirtualization; fTemperature].

(** Reading through a field pointer. *)
Definition load (f : field) (i : SystemInfo) : string :=
  match f with
  | fOS => OS i | fKernel => Kernel i | fUptime => Uptime i
  | fShell => Shell i | fCPU => CPU i | fCoresThreads => CoresThreads i
  | fCPUSpeed => CPUSpeed i | fCPUUsage => CPUUsage i | fGPU => GPU i
  | fRAM => RAM i | fDisk => Disk i | fSwap => Swap i
  | fHostname => Hostname i | fIPAddress => IPAddress i
  | fOpenPorts => OpenPorts i | fLocale => Locale i
  | fResolution => Resolution i | fWindowManager => WindowManager i
  | fDE => DE i | fTerminal => Terminal i | fPackages => Packages i
  | fLanguages => Languages i | fGo => Go i
  | fVirtualization => Virtualization i | fTemperature => Temperature i
  end.

(** Writing through a field pointer: [*p = v]. *)
Definition store (f : field) (v : string) (i : SystemInfo) : SystemInfo :=
  let upd g := if decide (f = g) then v else load g i in
  {| OS := upd fOS; Kernel := upd fKernel; Uptime := upd fUptime;
     Shell := upd fShell; CPU := upd fCPU;
     CoresThreads := upd fCoresThreads; CPUSpeed := upd fCPUSpeed;
     CPUUsage := upd fCPUUsage; GPU := upd fGPU; RAM := upd fRAM;
     Disk := upd fDisk; Swap := upd fSwap; Hostname := upd fHostname;
     IPAddress := upd fIPAddress; OpenPorts := upd fOpenPorts;
     Locale := upd fLocale; Resolution := upd fResolution;
     WindowManager := upd fWindowManager; DE := upd fDE;
     Terminal := upd fTerminal; Packages := upd fPackages;
     Languages := upd fLanguages; Go := upd fGo;
     Virtualization := upd fVirtualization;
     Temperature := upd fTemperature |}.


(** ** The two regular expressions of the program *)

Module regexp.

(** The longest prefix of bytes that satisfy [p], and the rest. *)
Fixpoint span (p : ascii -> bool) (s : string) : string * string :=
  match s with
  | EmptyString => (EmptyString, EmptyString)
  | String c r =>
      if p c then let '(a, b) := span p r in (String c a, b)
      else (EmptyString, s)
  end.

(** The byte 0x22, the double quote. *)
Definition quote : ascii := ascii_of_N 34.
Definition notQuote (c : ascii) : bool := negb (Ascii.eqb c quote).

(** A match of the os-release expression, PRETTY_NAME= followed by a
    quoted, non-empty run of bytes other than the quote, that starts
    at the head of [s]: the submatch (the run). *)
Definition prettyNameAt (s : string) : option string :=
  if strings.HasPrefix s ("PRETTY_NAME=" +:+ String quote EmptyString)
  then
    let '(name, rest) := span notQuote (strings.dropBytes 13 s) in
    match name, rest with
    | String _ _, String _ _ => Some name
    | _, _ => None
    end
  else None.

(** [re.FindStringSubmatch(s)[1]] for that expression: the leftmost
    match, [None] when there is none. *)
Fixpoint FindPrettyName (s : string) : option string :=
  match prettyNameAt s with
  | Some name => Some name
  | None =>
      match s with
      | EmptyString => None
      | String _ r => FindPrettyName r
      end
  end.

(** A match of [(\d+\.\d+(\.\d+)?)] that starts at the head of [s]. *)
Definition versionAt (s : string) : option string :=
  match span strings.isDigit s with
  | (String _ _ as d1, String "." r1) =>
      match span strings.isDigit r1 with
      | (String _ _ as d2, r2) =>
          let two := d1 +:+ "." +:+ d2 in
          match r2 with
          | String "." r3 =>
              match span strings.isDigit r3 with
              | (String _ _ as d3, _) => Some (two +:+ "." +:+ d3)
              | _ => Some two
              end
          | _ => Some two
          end
      | _ => None
      end
  | _ => None
  end.

(** [re.FindString(s)] for that expression: the leftmost match, the
    empty string when there is none. *)
Fixpoint FindVersion (s : string) : string :=
  match versionAt s with
  | Some v => v
  | None =>
      match s with
      | EmptyString => EmptyString
      | String _ r => FindVersion r
      end
  end.

End regexp.

(** ** Go's [net.IP] *)

Module net.

Definition isV4Mapped (ip : netIP) : bool :=
  bool_decide (take 12 ip = [0; 0; 0; 0; 0; 0; 0; 0; 0; 0; 255; 255]%N).

(** [IP.To4]: the four-byte form, [None] for nil. *)
Definition To4 (ip : netIP) : option netIP :=
  if (length ip =? 4)%nat then Some ip
  else if (length ip =? 16)%nat && isV4Mapped ip then Some (drop 12 ip)
  else None.

Definition IPv6loopback : netIP :=
  [0; 0; 0; 0; 0; 0; 0; 0; 0; 0; 0; 0; 0; 0; 0; 1]%N.

(** [IP.IsLoopback]. *)
Definition IsLoopback (ip : netIP) : bool :=
  match To4 ip with
  | Some ip4 => bool_decide (head ip4 = Some 127%N)
  | None => bool_decide (ip = IPv6loopback)
  end.

Definition hexDigit (d : N) : ascii :=
  if (d <? 10)%N then ascii_of_N (48 + d) else ascii_of_N (87 + d).

(** Lower-case hexadecimal, no leading zeros. *)
Fixpoint hexBits (fuel : nat) (n : N) (acc : string) : string :=
  match fuel with
  | O => acc
  | S f =>
      let acc' := String (hexDigit (n mod 16)) acc in
      if (n <? 16)%N then acc' else hexBits f (n / 16) acc'
  end.
Definition appendHex (n : N) : string :=
  hexBits (S (N.to_nat (N.log2 n))) n EmptyString.

(** [hexString]: two digits per byte. *)
Fixpoint hexString (ip : netIP) : string :=
  match ip with
  | [] => EmptyString
  | b :: r =>
      String (hexDigit (b / 16)) (String (hexDigit (b mod 16)) (hexString r))
  end.

Fixpoint groups (ip : netIP) : list N :=
  match ip with
  | hi :: lo :: r => (hi * 256 + lo)%N :: groups r
  | _ => []
  end.

Fixpoint zeroRun (gs : list N) : nat :=
  match gs with
  | 0%N :: r => S (zeroRun r)
  | _ => O
  end.

(** The first longest run of at least two zero groups, as
    [(zeroStart, zeroEnd)]; [(255, 255)] when there is none. *)
Fixpoint longestZeros (i : nat) (gs : list N) (best : nat * nat) : nat * nat :=
  match gs with
  | [] => best
  | _ :: r =>
      let l := zeroRun gs in
      let best' :=
        if (2 <=? l)%nat && (snd best - fst best <? l)%nat
        then (i, (i + l)%nat) else best in
      longestZeros (S i) r best'
  end.

Fixpoint string6From (fuel i : nat) (gs : list N) (z : nat * nat) : string :=
  match fuel with
  | O => EmptyString
  | S f =>
      if (8 <=? i)%nat then EmptyString
      else if (i =? fst z)%nat then
        "::" +:+
        (if (8 <=? snd z)%nat then EmptyString
         else appendHex (nth (snd z) gs 0%N) +:+ string6From f (S (snd z)) gs z)
      else
        (if (0 <? i)%nat then ":" else "") +:+
        appendHex (nth i gs 0%N) +:+ string6From f (S i) gs z
  end.

(** [netip.Addr.String] of a 16-byte address. *)
Definition string6 (ip : netIP) : string :=
  let gs := groups ip in
  string6From 9 0 gs (longestZeros 0 gs (255, 255)%nat).

Definition string4 (ip : netIP) : string :=
  strings.Join (map (fun b => strconv.Itoa (Z.of_N b)) ip) ".".

(** [IP.String]. *)
Definition String_ (ip : netIP) : string :=
  if (length ip =? 0)%nat then "<nil>"
  else if negb (length ip =? 4)%nat && negb (length ip =? 16)%nat
  then "?" +:+ hexString ip
  else match To4 ip with
       | Some p4 => string4 p4
       | None => string6 ip
       end.

End net.


(** ** The probes of gather.go *)

(** [l[i]]: a run-time panic when [i] is out of range. *)
Definition index {A} (l : list A) (i : nat) : outcome A :=
  match l !! i with
  | Some x => Ret x
  | None => Panic "index out of range"
  end.

Definition LF : string := String (ascii_of_N 10) EmptyString.
Definition DQ : string := String regexp.quote EmptyString.

Definition nonEmpty (s : string) : bool := negb (String.eqb s "").

Section Probes.

Context (h : Host).

(** *** Internal helper functions *)

Definition runCommand (name : string) (arg : list string) : string :=
  match exec_Output h name arg with
  | None => ""
  | Some out => strings.TrimSpace out
  end.

Definition runShellCommand (command : string) : string :=
  let out :=
    if String.eqb (GOOS h) "windows"
    then exec_Output h "powershell" ["-NoProfile"; "-Command"; command]
    else exec_Output h "sh" ["-c"; command] in
  match out with
  | None => ""
  | Some out => strings.TrimSpace out
  end.

(** *** Gathering functions *)

Definition getCPUInfoDetailed : string :=
  match cpu_Info h with
  | Some (c :: _) => cpu.ModelName c
  | _ => "Unknown Processor"
  end.

Definition getOSInfo : outcome string :=
  let generic : outcome string :=
    match host_Info h with
    | Some hi => Ret (host.Platform hi +:+ " " +:+ host.PlatformVersion hi)
    | None => Panic "nil pointer dereference"
    end in
  if String.eqb (GOOS h) "linux" then
    match os_ReadFile h "/etc/os-release" ≫= regexp.FindPrettyName with
    | Some name => Ret name
    | None =>
        let '(platform, version) := host_PlatformInformation h in
        if nonEmpty platform && nonEmpty version
        then Ret (platform +:+ " " +:+ version)
        else generic
    end
  else if String.eqb (GOOS h) "windows" then
    let productName :=
      runShellCommand "(Get-CimInstance Win32_OperatingSystem).Caption" in
    let buildNumber :=
      runShellCommand "(Get-CimInstance Win32_OperatingSystem).BuildNumber" in
    if nonEmpty productName then
      let productName :=
        strings.TrimSpace (strings.Replace productName "Microsoft " "" 1) in
      if nonEmpty buildNumber
      then Ret (productName +:+ " (Build " +:+ buildNumber +:+ ")")
      else Ret productName
    else generic
  else if String.eqb (GOOS h) "darwin" then
    let productVersion := runCommand "sw_vers" ["-productVersion"] in
    let buildVersion := runCommand "sw_vers" ["-buildVersion"] in
    if nonEmpty productVersion
    then Ret ("macOS " +:+ productVersion +:+ " (" +:+ buildVersion +:+ ")")
    else generic
  else generic.

(** The part of [getShell] behind the choice of [shellPath]. *)
Definition shellOfPath (shellPath : string) : outcome string :=
  let shellName :=
    match strings.LastIndex shellPath "/" with
    | Some i => strings.dropBytes (S i) shellPath
    | None => shellPath
    end in
  let shellName := strings.ToLower shellName in
  let shellName := strings.TrimSuffix shellName ".exe" in
  let! version :=
    if String.eqb shellName "bash" || String.eqb shellName "zsh"
       || String.eqb shellName "fish" then
      let out := runCommand shellPath ["--version"] in
      if nonEmpty out then
        let! firstLine := index (strings.Split out LF) 0 in
        Ret (regexp.FindVersion firstLine)
      else Ret ""
    else if String.eqb shellName "powershell" then
      Ret (runShellCommand "$PSVersionTable.PSVersion.Major")
    else Ret "" in
  let titleName := strings.Title shellName in
  if nonEmpty version then Ret (titleName +:+ " " +:+ version)
  else Ret titleName.

Definition getShell : outcome string :=
  if negb (String.eqb (GOOS h) "windows") then
    let shellPath := os_Getenv h "SHELL" in
    if String.eqb shellPath "" then Ret "Unknown" else shellOfPath shellPath
  else if nonEmpty (os_Getenv h "PSModulePath") then shellOfPath "powershell"
  else if nonEmpty (os_Getenv h "ComSpec") then shellOfPath "cmd"
  else if nonEmpty (os_Getenv h "WT_SESSION") then Ret "Windows Terminal"
  else Ret "Unknown".

Definition getGPUInfo : string :=
  if String.eqb (GOOS h) "windows" then
    runShellCommand "(Get-CimInstance Win32_VideoController).Caption"
  else if String.eqb (GOOS h) "linux" then
    let output :=
      runShellCommand
        ("lspci -mm | grep -i 'VGA\|3D\|Display' | head -n1 | cut -d '"
         +:+ DQ +:+ "' -f2,4 | sed 's/" +:+ DQ +:+ " " +:+ DQ +:+ "/ /'") in
    if nonEmpty output then output
    else
      strings.TrimSpace
        (runShellCommand
           "lspci | grep -i 'VGA\|3D\|Display' | head -n1 | cut -d ':' -f3 | sed 's/ (rev ..)//;s/\[.*\]//'")
  else if String.eqb (GOOS h) "darwin" then
    strings.TrimSpace
      (runShellCommand
         "system_profiler SPDisplaysDataType | grep 'Chipset Model' | cut -d ':' -f2")
  else "Unknown".

(** *** Open ports *)

(** The condition under which a connection's port enters [portSet]. *)
Definition keptConn (conn : psnet.ConnectionStat) : bool :=
  String.eqb (psnet.Status conn) "LISTEN"
  && negb (String.eqb (psnet.IP (psnet.Laddr conn)) "::")
  && negb (String.eqb (psnet.IP (psnet.Laddr conn)) "0.0.0.0").

(** The first loop: [portSet], a [map[string]struct{}]. *)
Fixpoint portSet (conns : list psnet.ConnectionStat) (set : gset string)
  : gset string :=
  match conns with
  | [] => set
  | conn :: rest =>
      portSet rest
        (if keptConn conn
         then {[ strconv.Itoa (Z.of_N (psnet.Port (psnet.Laddr conn))) ]} ∪ set
         else set)
  end.

(** What follows the first loop, for the keys of [portSet] in the
    order in which [range] delivers them. *)
Definition formatPorts (keys : list string) : string :=
  if (length keys =? 0)%nat then "None"
  else
    let ports := sort.Ints ((fun pStr => default 0 (strconv.Atoi pStr)) <$> keys) in
    let portStrings := strconv.Itoa <$> ports in
    let limit := 5%nat in
    if (limit <? length portStrings)%nat
    then strings.Join (take limit portStrings) ", " +:+ "..."
    else strings.Join portStrings ", ".

Definition getOpenPorts : string :=
  match psnet_Connections h "tcp" with
  | None => "Unknown"
  | Some conns => formatPorts (elements (portSet conns ∅))
  end.

(** *** Installed languages *)

Definition langs : list string :=
  ["Python"; "Go"; "Node"; "Rust"; "Java"; "Ruby"; "PHP"].

Definition cmds : gmap string string :=
  list_to_map
    [("Python", "python3"); ("Go", "go"); ("Node", "node");
     ("Rust", "rustc"); ("Java", "java"); ("Ruby", "ruby"); ("PHP", "php")].

(** One goroutine of the fan-out: does it append its language? *)
Definition langFound (l : string) : bool :=
  exec_LookPath h (default "" (cmds !! l)).

(** [getInstalledLanguages] when the goroutines reach their append in
    the order [done]. *)
Definition installedLanguagesIn (done : list string) : string :=
  let installed := sort.Strings (filter (fun l => langFound l = true) done) in
  if (length installed =? 0)%nat then "None"
  else strings.Join installed ", ".

Definition getInstalledLanguages : string := installedLanguagesIn langs.

(** *** IP address *)

Fixpoint firstIPv4 (addrs : list netAddr) : option string :=
  match addrs with
  | [] => None
  | IPNet ip :: rest =>
      if negb (net.IsLoopback ip) && bool_decide (is_Some (net.To4 ip))
      then Some (net.String_ ip)
      else firstIPv4 rest
  | OtherAddr :: rest => firstIPv4 rest
  end.

Definition getIPAddress : string :=
  match net_Dial h with
  | None =>
      match net_InterfaceAddrs h ≫= firstIPv4 with
      | Some s => s
      | None => "127.0.0.1"
      end
  | Some local => net.String_ local
  end.

(** *** Display environment *)

Definition getResolution : string :=
  if String.eqb (GOOS h) "windows" then
    let output :=
      runShellCommand
        "(Get-CimInstance Win32_VideoController).CurrentHorizontalResolution,(Get-CimInstance Win32_VideoController).CurrentVerticalResolution -join 'x'" in
    if nonEmpty output then output else "Unknown"
  else if String.eqb (GOOS h) "linux" then
    let viaX :=
      if nonEmpty (os_Getenv h "DISPLAY")
      then runShellCommand "xrandr --current | grep '*' | uniq | awk '{print $1}'"
      else "" in
    if nonEmpty viaX then viaX
    else if nonEmpty (os_Getenv h "WAYLAND_DISPLAY") then "Wayland (res?)"
    else "Headless"
  else if String.eqb (GOOS h) "darwin" then
    strings.TrimSpace
      (runShellCommand
         ("system_profiler SPDisplaysDataType | grep Resolution | awk '{print $2"
          +:+ DQ +:+ "x" +:+ DQ +:+ "$4}'"))
  else "Unknown".

Definition getTerminal : string :=
  let termProg := os_Getenv h "TERM_PROGRAM" in
  if nonEmpty termProg then
    let termProg := strings.TrimSuffix termProg ".app" in
    let termProg := strings.Replace termProg "iTerm" "iTerm2" 1 in
    strings.Title termProg
  else
    let term := os_Getenv h "TERM" in
    if nonEmpty term && negb (String.eqb term "xterm-256color")
       && negb (String.eqb term "screen")
    then term
    else "Unknown".

(** The X11 part of [getWindowManager], from [DESKTOP_SESSION] on. *)
Definition x11WindowManager : outcome string :=
  let desktopSession := os_Getenv h "DESKTOP_SESSION" in
  if nonEmpty desktopSession then
    let lowerSession := strings.ToLower desktopSession in
    if strings.Contains lowerSession "gnome" then Ret "Mutter (X11)"
    else if strings.Contains lowerSession "kde"
            || strings.Contains lowerSession "plasma" then Ret "KWin (X11)"
    else if strings.Contains lowerSession "xfce" then Ret "Xfwm4"
    else if strings.Contains lowerSession "cinnamon" then Ret "Muffin"
    else if strings.Contains lowerSession "mate" then Ret "Marco"
    else if strings.Contains lowerSession "lxqt" then Ret "Openbox"
    else Ret (strings.Title desktopSession)
  else
    let wm := runShellCommand "wmctrl -m | grep 'Name:'" in
    if nonEmpty wm then
      let! name := index (strings.Split wm ":") 1 in
      Ret (strings.TrimSpace name)
    else Ret "Unknown (X11?)".

Definition getWindowManager : outcome string :=
  if String.eqb (GOOS h) "linux" then
    if nonEmpty (os_Getenv h "WAYLAND_DISPLAY")
       && String.eqb (os_Getenv h "XDG_SESSION_TYPE") "wayland" then
      let currentDesktop := strings.ToLower (os_Getenv h "XDG_CURRENT_DESKTOP") in
      if String.eqb currentDesktop "gnome" then Ret "Mutter (Wayland)"
      else if String.eqb currentDesktop "kde" then Ret "KWin (Wayland)"
      else if String.eqb currentDesktop "sway" then Ret "Sway"
      else if String.eqb currentDesktop "wlroots" then Ret "wlroots based"
      else Ret "Wayland"
    else x11WindowManager
  else if String.eqb (GOOS h) "windows" then Ret "DWM"
  else if String.eqb (GOOS h) "darwin" then Ret "Quartz Compositor"
  else Ret "Unknown".

Definition getSystemLocale : outcome string :=
  let locale := os_Getenv h "LANG" in
  let locale := if String.eqb locale "" then os_Getenv h "LC_ALL" else locale in
  if nonEmpty locale then index (strings.Split locale ".") 0
  else if String.eqb (GOOS h) "windows" then Ret (runShellCommand "(Get-Culture).Name")
  else Ret "Unknown".

Definition getDesktopEnvironment : string :=
  let de := os_Getenv h "XDG_CURRENT_DESKTOP" in
  let de := if String.eqb de "" then os_Getenv h "DESKTOP_SESSION" else de in
  let de := strings.Replace de "plasmawayland" "Plasma (Wayland)" 1 in
  let de := strings.Replace de "plasma" "Plasma (X11)" 1 in
  strings.Title de.

(** *** Package counts *)

(** The tables [checkers] of the three OS families. *)
Definition linuxCheckers : gmap string string :=
  list_to_map
    [("APT", "dpkg-query -f . -W | wc -l");
     ("Pacman", "pacman -Qq --color never | wc -l");
     ("DNF", "dnf list installed --quiet | wc -l");
     ("Flatpak", "flatpak list --app --columns=application | wc -l");
     ("Snap", "snap list | tail -n +2 | wc -l")].

Definition darwinCheckers : gmap string string :=
  list_to_map
    [("Brew", "brew list --formula | wc -l");
     ("Cask", "brew list --cask | wc -l")].

Definition windowsCheckers : gmap string string :=
  list_to_map
    [("Choco", "(choco list -l | Measure-Object).Count");
     ("Winget", "(winget list | Measure-Object).Count");
     ("Scoop", "(scoop list | Measure-Object).Count")].

(** The switch on [runtime.GOOS]; [None] is its [default] case. *)
Definition checkers : option (gmap string string) :=
  if String.eqb (GOOS h) "linux" then Some linuxCheckers
  else if String.eqb (GOOS h) "darwin" then Some darwinCheckers
  else if String.eqb (GOOS h) "windows" then Some windowsCheckers
  else None.

(** One goroutine of the fan-out, from the test of [baseCmd] on:
    what it sends on [results], if anything. *)
Definition countWith (n c baseCmd : string) : option string :=
  if negb (exec_LookPath h baseCmd) && negb (String.eqb baseCmd "(") then None
  else
    let countStr := runShellCommand c in
    if nonEmpty countStr then
      let countStr := strings.TrimSpace countStr in
      match strconv.Atoi countStr with
      | Some count =>
          if 0 <? count
          then Some (n +:+ " (" +:+ fmt.Sprintf_d count +:+ ")")
          else None
      | None => None
      end
    else None.

(** The goroutine: [baseCmd] is the first field of what stands before
    the first "|". *)
Definition countPackages (n c : string) : outcome (option string) :=
  let! head := index (strings.Split c "|") 0 in
  let! baseCmd := index (strings.Fields head) 0 in
  Ret (countWith n c baseCmd).

(** The goroutines in the order [done] in which they finish: the
    values received from the channel, in that order. *)
Fixpoint received (done : list (string * string)) : outcome (list string) :=
  match done with
  | [] => Ret []
  | (n, c) :: rest =>
      let! r := countPackages n c in
      let! parts := received rest in
      Ret (match r with Some res => res :: parts | None => parts end)
  end.

(** What follows the switch of [getPackageCounts], for a table whose
    goroutines finish in the order [done]. *)
Definition packageCountsIn (done : list (string * string)) : outcome string :=
  let! parts := received done in
  let parts := sort.Strings parts in
  if (length parts =? 0)%nat then Ret "None detected"
  else Ret (strings.Join parts ", ").

Definition getPackageCounts : outcome string :=
  match checkers with
  | None => Ret "None detected"
  | Some table => packageCountsIn (map_to_list table)
  end.

(** *** Disk, toolchain, virtualization, temperature *)

Definition GB : float := fmt.float64_of_N (2 ^ 30).

Definition getDisk : string :=
  match disk_Usage h "/" with
  | None => "N/A"
  | Some d =>
      let usedGB := (fmt.float64_of_N (disk.Used d) / GB)%float in
      let totalGB := (fmt.float64_of_N (disk.Total d) / GB)%float in
      fmt.Sprintf_f 1 usedGB +:+ "GB / " +:+ fmt.Sprintf_f 1 totalGB +:+ "GB ("
      +:+ fmt.Sprintf_f 0 (disk.UsedPercent d) +:+ "%)"
  end.

Definition getGoVersion : string := runtime_Version h.

Definition getVirtualization : string :=
  match host_Virtualization h with
  | None => ""
  | Some virt => virt
  end.

Definition isCPUSensor (temp : host.TemperatureStat) : bool :=
  let lowerKey := strings.ToLower (host.SensorKey temp) in
  strings.Contains lowerKey "core" || strings.Contains lowerKey "cpu"
  || strings.Contains lowerKey "package".

Definition formatTemperature (temp : host.TemperatureStat) : string :=
  fmt.Sprintf_f 1 (host.Temperature temp) +:+ " °C".

Definition getTemperatures : string :=
  match host_SensorsTemperatures h with
  | None | Some [] => ""
  | Some (first :: _ as temps) =>
      match List.find isCPUSensor temps with
      | Some temp => formatTemperature temp
      | None => formatTemperature first
      end
  end.

End Probes.

(** ** The goroutines of [GetSystemInfo]

    A goroutine is given by the stores it performs through [info], in
    program order; it ends with [wg.Done()]. *)

Definition writes := list (field * string).

Definition gatherHostInfo (h : Host) : outcome writes :=
  match host_Info h with
  | None => Ret []
  | Some hi =>
      let uptimeDuration :=
        time.wrap64 (time.Second * time.wrap64 (Z.of_N (host.Uptime hi))) in
      let days := fmt.int_of_float64 (time.Hours uptimeDuration / 24)%float in
      let hours := Z.rem (fmt.int_of_float64 (time.Hours uptimeDuration)) 24 in
      let minutes := Z.rem (fmt.int_of_float64 (time.Minutes uptimeDuration)) 60 in
      let uptime :=
        if 0 <? days then
          fmt.Sprintf_d days +:+ " days, " +:+ fmt.Sprintf_d hours +:+ " hours"
        else if 0 <? hours then
          fmt.Sprintf_d hours +:+ " hours, " +:+ fmt.Sprintf_d minutes +:+ " minutes"
        else fmt.Sprintf_d minutes +:+ " minutes" in
      let! os := getOSInfo h in
      let kernelName := host.Platform hi in
      let kernelName :=
        if String.eqb kernelName "windows" then "Windows NT" else kernelName in
      Ret [(fUptime, uptime);
           (fOS, os);
           (fKernel, strings.Title kernelName +:+ " " +:+ host.KernelVersion hi);
           (fHostname, os_Hostname h)]
  end.

Definition gatherCPUInfo (h : Host) (isFast : bool) : outcome writes :=
  let speed :=
    match cpu_Info h with
    | Some (c :: _) =>
        let mhz := cpu.Mhz c in
        [(fCPUSpeed,
          if (1000 <? mhz)%float
          then fmt.Sprintf_f 2 (mhz / 1000)%float +:+ " GHz"
          else fmt.Sprintf_f 0 mhz +:+ " MHz")]
    | _ => []
    end in
  let cores := cpu_Counts h false in
  let threads := cpu_Counts h true in
  let usage :=
    if negb isFast then
      [(fCPUUsage,
        match cpu_Percent h with
        | Some (p :: _) => fmt.Sprintf_f 1 p +:+ "%"
        | _ => "N/A"
        end)]
    else [] in
  Ret ([(fCPU, getCPUInfoDetailed h)] ++ speed
       ++ [(fCoresThreads, fmt.Sprintf_d cores +:+ "/" +:+ fmt.Sprintf_d threads)]
       ++ usage).

Definition gatherMemoryInfo (h : Host) : outcome writes :=
  let ram :=
    match mem_VirtualMemory h with
    | Some v =>
        let usedGB := (fmt.float64_of_N (mem.Used v) / GB)%float in
        let totalGB := (fmt.float64_of_N (mem.Total v) / GB)%float in
        [(fRAM,
          fmt.Sprintf_f 1 usedGB +:+ "GB / " +:+ fmt.Sprintf_f 1 totalGB
          +:+ "GB (" +:+ fmt.Sprintf_f 0 (mem.UsedPercent v) +:+ "%)")]
    | None => []
    end in
  let swap :=
    match mem_SwapMemory h with
    | Some s =>
        if (0 <? mem.sTotal s)%N then
          let usedGB := (fmt.float64_of_N (mem.sUsed s) / GB)%float in
          let totalGB := (fmt.float64_of_N (mem.sTotal s) / GB)%float in
          fmt.Sprintf_f 1 usedGB +:+ "GB / " +:+ fmt.Sprintf_f 1 totalGB
          +:+ "GB (" +:+ fmt.Sprintf_f 1 (mem.sUsedPercent s) +:+ "%)"
        else "None"
    | None => "None"
    end in
  Ret (ram ++ [(fSwap, swap)]).

(** The tables of the standalone tasks: the pointer and the function
    of every key. *)
Definition fastTasks : gmap string field :=
  list_to_map
    [("Shell", fShell); ("GPU", fGPU); ("Disk", fDisk);
     ("IPAddress", fIPAddress); ("Locale", fLocale);
     ("Resolution", fResolution); ("WindowManager", fWindowManager);
     ("DE", fDE); ("Terminal", fTerminal); ("Go", fGo);
     ("Virtualization", fVirtualization)].

Definition pure (f : Host -> string) : Host -> outcome string :=
  fun h => Ret (f h).

Definition fastTaskFuncs : gmap string (Host -> outcome string) :=
  list_to_map
    [("Shell", getShell); ("GPU", pure getGPUInfo); ("Disk", pure getDisk);
     ("IPAddress", pure getIPAddress); ("Locale", getSystemLocale);
     ("Resolution", pure getResolution); ("WindowManager", getWindowManager);
     ("DE", pure getDesktopEnvironment); ("Terminal", pure getTerminal);
     ("Go", pure getGoVersion); ("Virtualization", pure getVirtualization)].

Definition slowTasks : gmap string field :=
  list_to_map
    [("OpenPorts", fOpenPorts); ("Packages", fPackages);
     ("Languages", fLanguages); ("Temperature", fTemperature)].

Definition slowTaskFuncs : gmap string (Host -> outcome string) :=
  list_to_map
    [("OpenPorts", pure getOpenPorts); ("Packages", getPackageCounts);
     ("Languages", pure getInstalledLanguages);
     ("Temperature", pure getTemperatures)].

(** The goroutine [func(p, f) { defer wg.Done(); *p = f() }]; calling
    a nil [f] panics. *)
Definition goFunc (h : Host) (p : field) (f : option (Host -> outcome string))
  : outcome writes :=
  match f with
  | None => Panic "nil func"
  | Some f => let! v := f h in Ret [(p, v)]
  end.

(** The loop [for key, Ptr := range tasks] when [range] delivers the
    entries in the order [entries]. *)
Definition spawnEach (h : Host) (funcs : gmap string (Host -> outcome string))
    (entries : list (string * field)) : list (outcome writes) :=
  (fun e => goFunc h (snd e) (funcs !! fst e)) <$> entries.

(** All goroutines of one pass, in the order of their [go] statements,
    for given orders of the two [range] loops. *)
Definition goroutinesIn (h : Host) (isFast : bool)
    (fast slow : list (string * field)) : list (outcome writes) :=
  [gatherHostInfo h; gatherCPUInfo h isFast; gatherMemoryInfo h]
  ++ spawnEach h fastTaskFuncs fast
  ++ (if negb isFast then spawnEach h slowTaskFuncs slow else []).

Definition goroutines (h : Host) (isFast : bool) : list (outcome writes) :=
  goroutinesIn h isFast (map_to_list fastTasks) (map_to_list slowTasks).

(** All bodies, unless one of them panics. *)
Fixpoint bodies (gs : list (outcome writes)) : outcome (list writes) :=
  match gs with
  | [] => Ret []
  | g :: rest =>
      let! ws := g in
      let! wss := bodies rest in
      Ret (ws :: wss)
  end.

Definition perform (ws : writes) (info : SystemInfo) : SystemInfo :=
  fold_left (fun i w => store (fst w) (snd w) i) ws info.

(** [GetSystemInfo]: the record after every goroutine has run, the
    goroutines taken one after the other in the order of their [go]
    statements.  That every other schedule gives the same record is
    proved below, on the machine [step]. *)
Definition GetSystemInfo (h : Host) (isFast : bool) : outcome SystemInfo :=
  let! wss := bodies (goroutines h isFast) in
  Ret (perform (concat wss) zeroInfo).

(** ** The schedules of one pass

    [GetSystemInfo] starts its goroutines with [go] and waits for them
    with a [sync.WaitGroup].  The machine below runs the main goroutine
    and the started ones in any interleaving, one store at a time. *)

(** The statements of the main goroutine that matter: [wg.Add(n)],
    [go] of a goroutine with the given stores, [wg.Wait()]. *)
Inductive instr :=
  | Add (n : nat)
  | Spawn (body : writes)
  | Wait.

Record state := {
  caller : list instr;        (* what the calling goroutine has left to do *)
  counter : nat;              (* the WaitGroup counter *)
  live : list writes;         (* the started goroutines: their remaining stores *)
  info : SystemInfo;          (* the record behind the pointer [info] *)
  trace : writes              (* the stores performed so far, oldest first *)
}.

Inductive step : state -> state -> Prop :=
  | step_add n p c l i t :
      step {| caller := Add n :: p; counter := c; live := l; info := i; trace := t |}
           {| caller := p; counter := c + n; live := l; info := i; trace := t |}
  | step_spawn b p c l i t :
      step {| caller := Spawn b :: p; counter := c; live := l; info := i; trace := t |}
           {| caller := p; counter := c; live := l ++ [b]; info := i; trace := t |}
  (* Wait returns only when the counter is zero *)
  | step_wait p l i t :
      step {| caller := Wait :: p; counter := 0; live := l; info := i; trace := t |}
           {| caller := p; counter := 0; live := l; info := i; trace := t |}
  (* a goroutine performs its next store *)
  | step_store l1 f v b l2 p c i t :
      step {| caller := p; counter := c; live := l1 ++ ((f, v) :: b) :: l2;
              info := i; trace := t |}
           {| caller := p; counter := c; live := l1 ++ b :: l2;
              info := store f v i; trace := t ++ [(f, v)] |}
  (* a goroutine that has no store left runs its deferred wg.Done() *)
  | step_done l1 l2 p c i t :
      step {| caller := p; counter := S c; live := l1 ++ [] :: l2;
              info := i; trace := t |}
           {| caller := p; counter := c; live := l1 ++ l2; info := i; trace := t |}.

(** The main goroutine of [GetSystemInfo] for the bodies of its
    goroutines: [wg.Add(3)] and three [go] statements, then one
    [wg.Add(1)] and one [go] per standalone task, then [wg.Wait()]. *)
Definition program (group tasks : list writes) : list instr :=
  Add (length group) :: (Spawn <$> group)
  ++ (tasks ≫= fun b => [Add 1; Spawn b])
  ++ [Wait].

Definition initial (p : list instr) : state :=
  {| caller := p; counter := 0; live := []; info := zeroInfo; trace := [] |}.

(** The function has returned [info]. *)
Definition returned (s : state) : Prop := caller s = [].

(** ** The command line: Go's [flag] package and [main]

    The part of flag.go that a [FlagSet] with boolean flags runs
    through: [parseOne], [Parse] with [ExitOnError], [boolValue.Set]. *)

Module flag.

(** [strconv.ParseBool]. *)
Definition ParseBool (s : string) : option bool :=
  if bool_decide (s ∈ ["1"; "t"; "T"; "TRUE"; "true"; "True"]) then Some true
  else if bool_decide (s ∈ ["0"; "f"; "F"; "FALSE"; "false"; "False"])
  then Some false
  else None.

(** The scan for the first "=" behind the first byte of a flag name:
    the name up to it and the value behind it. *)
Fixpoint cutValue (tl : string) : option (string * string) :=
  match tl with
  | EmptyString => None
  | String c r =>
      if Ascii.eqb c "=" then Some (EmptyString, r)
      else match cutValue r with
           | Some (n, v) => Some (String c n, v)
           | None => None
           end
  end.

(** What [parseOne] makes of the argument [s]. *)
Inductive arg :=
  | NotAFlag                       (* shorter than two bytes, or no "-" in front *)
  | Terminator                     (* "--" *)
  | BadSyntax
  | Flag (name : string) (value : option string).

Definition classify (s : string) : arg :=
  match s with
  | String "-" (String c1 r1 as r0) =>
      let name :=
        if Ascii.eqb c1 "-" then r1 else r0 in
      if Ascii.eqb c1 "-" && String.eqb r1 "" then Terminator
      else
        match name with
        | EmptyString => BadSyntax
        | String c tl =>
            if Ascii.eqb c "-" || Ascii.eqb c "=" then BadSyntax
            else match cutValue tl with
                 | Some (n, v) => Flag (String c n) (Some v)
                 | None => Flag name None
                 end
        end
  | _ => NotAFlag
  end.

(** The variables that flags are bound to; the program has one. *)
Inductive var := fastFlag.

#[export] Instance var_eq_dec : EqDecision var.
Proof. solve_decision. Defined.

(** How [Parse] ends: all flags read (with the value of [fastFlag] and
    the arguments left), the help flag, or an error; with
    [ExitOnError] the last two exit with status 0 and 2. *)
Inductive parsed :=
  | Done (fast : bool) (rest : list string)
  | ErrHelp
  | Failed (msg : string).

(** [Parse]: [parseOne] on the arguments, from the left, until it sees
    no flag. *)
Fixpoint Parse (formal : gmap string var) (args : list string) (fast : bool)
  : parsed :=
  match args with
  | [] => Done fast []
  | s :: rest =>
      match classify s with
      | NotAFlag => Done fast args
      | Terminator => Done fast rest
      | BadSyntax => Failed ("bad flag syntax: " +:+ s)
      | Flag name value =>
          match formal !! name with
          | None =>
              if String.eqb name "help" || String.eqb name "h" then ErrHelp
              else Failed ("flag provided but not defined: -" +:+ name)
          | Some fastFlag =>
              match value with
              | Some v =>
                  match ParseBool v with
                  | Some b => Parse formal rest b
                  | None => Failed ("invalid boolean value for -" +:+ name)
                  end
              | None => Parse formal rest true
              end
          end
      end
  end.

End flag.

(** [display.Theme] and the two themes. *)
Module display.

Record Theme := {
  Category : string;
  Key : string;
  Value : string;
  Accent : string;
  Reset : string
}.

(** The escape byte 0x1b. *)
Definition ESC : string := String (ascii_of_N 27) EmptyString.

Definition NormalTheme : Theme :=
  {| Category := ESC +:+ "[34m"; Key := ESC +:+ "[38;5;255m";
     Value := ESC +:+ "[38;5;249m"; Accent := ESC +:+ "[34m";
     Reset := ESC +:+ "[0m" |}.

Definition FastTheme : Theme :=
  {| Category := ESC +:+ "[36m"; Key := ESC +:+ "[38;5;255m";
     Value := ESC +:+ "[38;5;249m"; Accent := ESC +:+ "[36m";
     Reset := ESC +:+ "[0m" |}.

(** *** [stripAnsi] *)

(** A byte of the class [[0-9;]]. *)
Definition isParam (c : ascii) : bool :=
  strings.isDigit c || Ascii.eqb c ";".

(** A match of the expression of [stripAnsi], the escape byte, "[",
    a run of digits and semicolons, "m", that starts at the head of
    [s]: what follows the match. *)
Definition ansiAt (s : string) : option string :=
  if strings.HasPrefix s (ESC +:+ "[") then
    match snd (regexp.span isParam (strings.dropBytes 2 s)) with
    | String "m" rest => Some rest
    | _ => None
    end
  else None.

(** [re.ReplaceAllString(s, (empty))]: the matches are taken from left
    to right and dropped, the other bytes are kept.  Every round
    consumes at least one byte. *)
Fixpoint dropAnsi (fuel : nat) (s : string) : string :=
  match fuel with
  | O => s
  | S f =>
      match ansiAt s with
      | Some rest => dropAnsi f rest
      | None =>
          match s with
          | EmptyString => EmptyString
          | String c r => String c (dropAnsi f r)
          end
      end
  end.

Definition stripAnsi (s : string) : string := dropAnsi (String.length s) s.

Definition Max (x y : Z) : Z := if x <? y then y else x.

(** *** [DisplaySystemInfo] *)

(** The builtin [len] of a string: its number of bytes. *)
Definition len (s : string) : Z := Z.of_nat (String.length s).

Definition infoEntry : Type := string * string.

Definition groups (info : SystemInfo) : list (string * list infoEntry) :=
  [("System", [("OS", OS info); ("Kernel", Kernel info);
               ("Virtualization", Virtualization info);
               ("Uptime", Uptime info); ("Shell", Shell info);
               ("Terminal", Terminal info)]);
   ("Hardware", [("CPU", CPU info); ("GPU", GPU info); ("RAM", RAM info)]);
   ("Network", [("Hostname", Hostname info); ("IP Address", IPAddress info)]);
   ("Storage", [("Disk", Disk info); ("Swap", Swap info)]);
   ("Display", [("Resolution", Resolution info); ("DE", DE info);
                ("WM", WindowManager info)]);
   ("Software", [("Packages", Packages info); ("Languages", Languages info);
                 ("Go", Go info)]);
   ("CPU Stats", [("Cores/Threads", CoresThreads info);
                  ("Speed", CPUSpeed info); ("Usage", CPUUsage info);
                  ("Temperature", Temperature info)]);
   ("Other", [("Locale", Locale info); ("Ports", OpenPorts info)])].

(** The condition under which an item gets a line. *)
Definition shown (value : string) : bool :=
  nonEmpty value && negb (String.eqb value "Unknown")
  && negb (String.eqb value "None") && negb (String.eqb value "N/A")
  && negb (String.eqb value "0GB/0GB (0.0%)")
  && negb (String.eqb value "0GB / 0GB (0.0%)")
  && negb (String.eqb value "None detected").

(** The header line of a group. *)
Definition header (theme : Theme) (category : string) : string :=
  Category theme +:+ "─── " +:+ category +:+ " ───" +:+ Reset theme.

(** The loop over the items of one group. *)
Fixpoint itemsLoop (theme : Theme) (category : string) (items : list infoEntry)
    (groupLines : list string) (groupHasContent : bool) (maxKeyLen : Z)
  : list string * Z :=
  match items with
  | [] => (groupLines, maxKeyLen)
  | (key, value) :: rest =>
      if shown value then
        let groupLines :=
          if negb groupHasContent
          then groupLines ++ [header theme category]
          else groupLines in
        let maxKeyLen := if maxKeyLen <? len key then len key else maxKeyLen in
        itemsLoop theme category rest
          (groupLines ++ [key +:+ ":" +:+ value]) true maxKeyLen
      else itemsLoop theme category rest groupLines groupHasContent maxKeyLen
  end.

(** The loop over the groups: [formattedLines] and [maxKeyLen]. *)
Fixpoint groupsLoop (theme : Theme) (gs : list (string * list infoEntry))
    (formattedLines : list string) (maxKeyLen : Z) : list string * Z :=
  match gs with
  | [] => (formattedLines, maxKeyLen)
  | (category, items) :: rest =>
      let '(groupLines, maxKeyLen) :=
        itemsLoop theme category items [] false maxKeyLen in
      groupsLoop theme rest (formattedLines ++ groupLines) maxKeyLen
  end.

(** The loop over [formattedLines]: [finalFormattedLines] and
    [maxInfoWidth]. *)
Fixpoint linesLoop (theme : Theme) (maxKeyLen : Z) (lines : list string)
    (finalFormattedLines : list string) (maxInfoWidth : Z)
  : outcome (list string * Z) :=
  match lines with
  | [] => Ret (finalFormattedLines, maxInfoWidth)
  | line :: rest =>
      if strings.Contains line "───" then
        let width := len (stripAnsi line) in
        linesLoop theme maxKeyLen rest (finalFormattedLines ++ [line])
          (if maxInfoWidth <? width then width else maxInfoWidth)
      else if strings.Contains line ":" then
        let parts := strings.SplitN line ":" 2 in
        let! key := index parts 0 in
        let! value := index parts 1 in
        let! padding := strings.Repeat " " (maxKeyLen - len key) in
        let formattedLine :=
          Key theme +:+ key +:+ padding +:+ ": " +:+ Value theme +:+ value
          +:+ Reset theme in
        let width := len (stripAnsi formattedLine) in
        linesLoop theme maxKeyLen rest (finalFormattedLines ++ [formattedLine])
          (if maxInfoWidth <? width then width else maxInfoWidth)
      else linesLoop theme maxKeyLen rest finalFormattedLines maxInfoWidth
  end.

(** [finalFormattedLines] and [maxInfoWidth] after the two passes. *)
Definition formatLines (info : SystemInfo) (theme : Theme)
  : outcome (list string * Z) :=
  let '(formattedLines, maxKeyLen) := groupsLoop theme (groups info) [] 0 in
  linesLoop theme maxKeyLen formattedLines [] 0.

(** The screen is cleared first, by the command [cls] on Windows and
    by this text elsewhere. *)
Definition clearScreen : string := ESC +:+ "[H" +:+ ESC +:+ "[2J" +:+ ESC +:+ "[3J".

Fixpoint printlnAll (lines : list string) : string :=
  match lines with
  | [] => EmptyString
  | line :: rest => line +:+ LF +:+ printlnAll rest
  end.

(** [DisplaySystemInfo]: what it writes to the standard output once
    the screen is cleared. *)
Definition DisplaySystemInfo (info : SystemInfo) (theme : Theme)
  : outcome string :=
  let! formatted := formatLines info theme in
  let '(finalFormattedLines, maxInfoWidth) := formatted in
  let title := "KernelView Go" in
  let! banner :=
    if 0 <? maxInfoWidth then
      let titleSpacing :=
        Max 0 (Z.quot maxInfoWidth 2 - Z.quot (len title) 2) in
      let! spaces := strings.Repeat " " titleSpacing in
      Ret (LF +:+ spaces +:+ Accent theme +:+ title +:+ Reset theme
           +:+ LF +:+ LF)
    else Ret EmptyString in
  Ret (banner +:+ printlnAll finalFormattedLines +:+ LF).

End display.

(** What a run of [main] comes to: the process exits in [flag.Parse]
    (after the usage message), or the facts are collected in the given
    mode and displayed with the given theme. *)
Inductive run :=
  | Exit (code : Z)
  | Collect (isFast : bool) (theme : display.Theme).

(** The flags [main] defines: "fast" and "f", both bound to
    [fastFlag], whose default is false. *)
Definition formal : gmap string flag.var :=
  <["f" := flag.fastFlag]> (<["fast" := flag.fastFlag]> ∅).

Definition main (args : list string) : run :=
  match flag.Parse formal args false with
  | flag.ErrHelp => Exit 0
  | flag.Failed _ => Exit 2
  | flag.Done fastFlag _ =>
      let currentTheme :=
        if fastFlag then display.FastTheme else display.NormalTheme in
      Collect fastFlag currentTheme
  end.

(** [main] from [flag.Parse] to its end: the exit status of the run
    and what it writes to the standard output once the screen is
    cleared.  The usage message goes to the standard error. *)
Definition runMain (h : Host) (args : list string) : outcome (Z * string) :=
  match main args with
  | Exit code => Ret (code, EmptyString)
  | Collect isFast theme =>
      let! info := GetSystemInfo h isFast in
      let! out := display.DisplaySystemInfo info theme in
      Ret (0, out)
  end.
Definition demoHost : Host :=
  {| GOOS := "linux"; runtime_Version := "go1.25.0";
     exec_Output := fun _ _ => None;
     exec_LookPath := fun c => String.eqb c "go";
     os_Getenv := fun v => if String.eqb v "SHELL" then "/bin/bash" else "";
     os_ReadFile := fun _ => None;
     os_Hostname := "box";
     host_Info := Some {| host.Uptime := 93784; host.Platform := "ubuntu";
                          host.PlatformVersion := "22.04";
                          host.KernelVersion := "6.8.0" |};
     host_PlatformInformation := ("ubuntu", "22.04");
     host_Virtualization := None;
     host_SensorsTemperatures := None;
     cpu_Info := Some [{| cpu.ModelName := "Ryzen"; cpu.Mhz := 3600%float |}];
     cpu_Counts := fun logical => if logical then 16 else 8;
     cpu_Percent := Some [12.5%float];
     mem_VirtualMemory :=
       Some {| mem.Used := 4 * 2 ^ 30; mem.Total := 16 * 2 ^ 30;
               mem.UsedPercent := 25%float |};
     mem_SwapMemory := None;
     disk_Usage := fun _ => None;
     psnet_Connections := fun _ => None;
     net_Dial := Some [10; 0; 0; 7]%N;
     net_InterfaceAddrs := None |}.

(** A listening TCP socket, and hosts that differ from [demoHost] in
    one answer. *)
Definition listening (ip : string) (port : N) : psnet.ConnectionStat :=
  {| psnet.Status := "LISTEN";
     psnet.Laddr := {| psnet.IP := ip; psnet.Port := port |} |}.

Definition withConnections (h : Host) (conns : list psnet.ConnectionStat) : Host :=
  {| GOOS := GOOS h; runtime_Version := runtime_Version h;
     exec_Output := exec_Output h; exec_LookPath := exec_LookPath h;
     os_Getenv := os_Getenv h; os_ReadFile := os_ReadFile h;
     os_Hostname := os_Hostname h; host_Info := host_Info h;
     host_PlatformInformation := host_PlatformInformation h;
     host_Virtualization := host_Virtualization h;
     host_SensorsTemperatures := host_SensorsTemperatures h;
     cpu_Info := cpu_Info h; cpu_Counts := cpu_Counts h;
     cpu_Percent := cpu_Percent h;
     mem_VirtualMemory := mem_VirtualMemory h;
     mem_SwapMemory := mem_SwapMemory h; disk_Usage := disk_Usage h;
     psnet_Connections := fun _ => Some conns;
     net_Dial := net_Dial h; net_InterfaceAddrs := net_InterfaceAddrs h |}.

(** The six ports of the example, on wildcard addresses and on
    addresses of one interface. *)
Definition wildcardSockets : list psnet.ConnectionStat :=
  [listening "0.0.0.0" 22; listening "0.0.0.0" 80; listening "::" 8080;
   listening "0.0.0.0" 3000; listening "::" 5432; listening "0.0.0.0" 9000].

Definition boundSockets : list psnet.ConnectionStat :=
  [listening "127.0.0.1" 22; listening "192.168.1.5" 80;
   listening "127.0.0.1" 8080; listening "::1" 3000;
   listening "127.0.0.1" 5432; listening "192.168.1.5" 9000;
   listening "127.0.0.1" 80].

(** A Windows host on which [choco] resolves and its count command
    prints 120; nothing else resolves or runs. *)
Definition chocoHost : Host :=
  {| GOOS := "windows"; runtime_Version := "go1.25.0";
     exec_Output := fun name arg =>
       if String.eqb name "powershell"
          && bool_decide (arg = ["-NoProfile"; "-Command";
                                 "(choco list -l | Measure-Object).Count"])
       then Some "120" else None;
     exec_LookPath := fun c => String.eqb c "choco";
     os_Getenv := fun _ => "";
     os_ReadFile := fun _ => None;
     os_Hostname := "pc";
     host_Info := None;
     host_PlatformInformation := ("", "");
     host_Virtualization := None;
     host_SensorsTemperatures := None;
     cpu_Info := None;
     cpu_Counts := fun _ => 0;
     cpu_Percent := None;
     mem_VirtualMemory := None;
     mem_SwapMemory := None;
     disk_Usage := fun _ => None;
     psnet_Connections := fun _ => None;
     net_Dial := None;
     net_InterfaceAddrs := None |}.

(** The host [h] with the environment variable [name] set to [value]. *)
Definition setenv (h : Host) (name value : string) : Host :=
  {| GOOS := GOOS h; runtime_Version := runtime_Version h;
     exec_Output := exec_Output h; exec_LookPath := exec_LookPath h;
     os_Getenv := fun v => if String.eqb v name then value else os_Getenv h v;
     os_ReadFile := os_ReadFile h;
     os_Hostname := os_Hostname h; host_Info := host_Info h;
     host_PlatformInformation := host_PlatformInformation h;
     host_Virtualization := host_Virtualization h;
     host_SensorsTemperatures := host_SensorsTemperatures h;
     cpu_Info := cpu_Info h; cpu_Counts := cpu_Counts h;
     cpu_Percent := cpu_Percent h;
     mem_VirtualMemory := mem_VirtualMemory h;
     mem_SwapMemory := mem_SwapMemory h; disk_Usage := disk_Usage h;
     psnet_Connections := psnet_Connections h;
     net_Dial := net_Dial h; net_InterfaceAddrs := net_InterfaceAddrs h |}.

(** A host of the given OS family with an empty environment, on which
    every command prints [out]. *)
Definition bareHost (goos : string) (out : option string) : Host :=
  {| GOOS := goos; runtime_Version := "go1.25.0";
     exec_Output := fun _ _ => out;
     exec_LookPath := fun _ => false;
     os_Getenv := fun _ => "";
     os_ReadFile := fun _ => None;
     os_Hostname := "";
     host_Info := None;
     host_PlatformInformation := ("", "");
     host_Virtualization := None;
     host_SensorsTemperatures := None;
     cpu_Info := None;
     cpu_Counts := fun _ => 0;
     cpu_Percent := None;
     mem_VirtualMemory := None;
     mem_SwapMemory := None;
     disk_Usage := fun _ => None;
     psnet_Connections := fun _ => None;
     net_Dial := None;
     net_InterfaceAddrs := None |}.

(** A record with three shown items and a swap that is left out. *)
Definition sampleInfo : SystemInfo :=
  store fOS "Arch Linux"
    (store fHostname "box"
       (store fIPAddress "10.0.0.7" (store fSwap "None" zeroInfo))).


(** A Linux machine where only [pacman] and [flatpak] resolve. *)
Definition archHost : Host :=
  {| GOOS := "linux"; runtime_Version := "go1.25.0";
     exec_Output := fun name args =>
       if String.eqb name "sh"
          && bool_decide (args = ["-c"; "pacman -Qq --color never | wc -l"])
       then Some ("731" +:+ LF)
       else if String.eqb name "sh"
               && bool_decide
                    (args = ["-c";
                             "flatpak list --app --columns=application | wc -l"])
       then Some ("0" +:+ LF)
       else None;
     exec_LookPath := fun file =>
       String.eqb file "pacman" || String.eqb file "flatpak";
     os_Getenv := fun _ => "";
     os_ReadFile := fun path =>
       if String.eqb path "/etc/os-release"
       then Some ("NAME=" +:+ DQ +:+ "Arch Linux" +:+ DQ +:+ LF
                  +:+ "PRETTY_NAME=" +:+ DQ +:+ "Arch Linux" +:+ DQ +:+ LF
                  +:+ "ID=arch" +:+ LF)
       else None;
     os_Hostname := "arch";
     host_Info := None;
     host_PlatformInformation := ("arch", "rolling");
     host_Virtualization := None;
     host_SensorsTemperatures := None;
     cpu_Info := None;
     cpu_Counts := fun _ => 0;
     cpu_Percent := None;
     mem_VirtualMemory := None;
     mem_SwapMemory := None;
     disk_Usage := fun _ => None;
     psnet_Connections := fun _ => None;
     net_Dial := None;
     net_InterfaceAddrs := None |}.

(** * Properties *)

(** Closed decidable facts, by evaluation. *)
Ltac by_compute :=
  match goal with
  | |- ?P => apply (bool_decide_unpack P); vm_compute; exact I
  end.

Lemma load_store f g v i :
  load g (store f v i) = if decide (f = g) then v else load g i.
Proof. destruct g; reflexivity. Qed.

(** ** [strconv]: what is printed parses back *)

Section strconv_facts.

Lemma digit_cases (d : N) :
  (d < 10)%N -> In d [0; 1; 2; 3; 4; 5; 6; 7; 8; 9]%N.
Proof.
  intros Hd. simpl.
  destruct (N.eq_dec d 0%N); [auto|]. destruct (N.eq_dec d 1%N); [auto|].
  destruct (N.eq_dec d 2%N); [auto 10|]. destruct (N.eq_dec d 3%N); [auto 10|].
  destruct (N.eq_dec d 4%N); [auto 10|]. destruct (N.eq_dec d 5%N); [auto 10|].
  destruct (N.eq_dec d 6%N); [auto 10|]. destruct (N.eq_dec d 7%N); [auto 10|].
  destruct (N.eq_dec d 8%N); [auto 10|]. destruct (N.eq_dec d 9%N); [auto 20|].
  lia.
Qed.

Lemma digitByte_value (d : N) :
  (d < 10)%N ->
  strings.isDigit (strconv.digitByte d) = true
  /\ Z.of_N (N_of_ascii (strconv.digitByte d)) - 48 = Z.of_N d.
Proof.
  intros Hd. apply digit_cases in Hd. simpl in Hd.
  repeat (destruct Hd as [<-|Hd]; [split; reflexivity|]). destruct Hd.
Qed.

Lemma digitByte_not_sign (d : N) :
  (d < 10)%N ->
  strconv.digitByte d <> "-"%char /\ strconv.digitByte d <> "+"%char.
Proof.
  intros Hd. apply digit_cases in Hd. simpl in Hd.
  repeat (destruct Hd as [<-|Hd]; [split; discriminate|]). destruct Hd.
Qed.

(** Parsing the digits that [formatBits] pushes in front of [acc]
    is parsing [acc] from the number they denote. *)
Lemma parseDigits_formatBits (fuel : nat) :
  forall (n : N) (acc : string),
    (n < 10 ^ N.of_nat fuel)%N ->
    strconv.parseDigits 0 (strconv.formatBits fuel n acc)
    = strconv.parseDigits (Z.of_N n) acc.
Proof.
  induction fuel as [|f IH]; intros n acc Hn.
  - simpl in *. assert (n = 0%N) as -> by lia. reflexivity.
  - cbn [strconv.formatBits].
    assert (Hmod : (n mod 10 < 10)%N) by (apply N.mod_lt; lia).
    destruct (digitByte_value _ Hmod) as [Hdig Hval].
    destruct (n <? 10)%N eqn:Hlt.
    + apply N.ltb_lt in Hlt. cbn [strconv.parseDigits].
      rewrite Hdig, Hval. rewrite N.mod_small by lia. reflexivity.
    + apply N.ltb_ge in Hlt. rewrite IH.
      * cbn [strconv.parseDigits]. rewrite Hdig, Hval. f_equal.
        rewrite (N.div_mod n 10) at 3 by lia. lia.
      * rewrite Nat2N.inj_succ, N.pow_succ_r' in Hn.
        apply N.Div0.div_lt_upper_bound. lia.
Qed.

Lemma formatBits_head (f : nat) :
  forall (n : N) (acc : string),
    exists d r, (d < 10)%N
      /\ strconv.formatBits (S f) n acc = String (strconv.digitByte d) r.
Proof.
  induction f as [|f IH]; intros n acc.
  - exists (n mod 10)%N, acc. split; [apply N.mod_lt; lia|].
    cbn. destruct (n <? 10)%N; reflexivity.
  - cbn [strconv.formatBits]. destruct (n <? 10)%N.
    + exists (n mod 10)%N, acc. split; [apply N.mod_lt; lia|reflexivity].
    + apply IH.
Qed.

Lemma fuel_enough (n : N) : (n < 10 ^ N.of_nat (S (N.to_nat (N.log2 n))))%N.
Proof.
  rewrite Nat2N.inj_succ, N2Nat.id.
  destruct (N.eq_dec n 0%N) as [->|Hn]; [reflexivity|].
  apply N.lt_le_trans with (2 ^ N.succ (N.log2 n))%N.
  - apply N.log2_spec. lia.
  - apply N.pow_le_mono_l. lia.
Qed.

(** [Atoi (Itoa i) = i] for every non-negative [int]. *)
Lemma Atoi_Itoa (i : Z) :
  0 <= i <= strconv.maxInt -> strconv.Atoi (strconv.Itoa i) = Some i.
Proof.
  intros [Hlo Hhi]. unfold strconv.Itoa.
  destruct (i <? 0) eqn:Hneg; [apply Z.ltb_lt in Hneg; lia|].
  unfold strconv.FormatUint.
  pose proof (parseDigits_formatBits _ _ EmptyString (fuel_enough (Z.to_N i))) as Hp.
  destruct (formatBits_head (N.to_nat (N.log2 (Z.to_N i))) (Z.to_N i) EmptyString)
    as (d & r & Hd & Hfmt).
  destruct (digitByte_not_sign d Hd) as [Hm Hp'].
  rewrite Hfmt in *. unfold strconv.Atoi.
  destruct (strconv.digitByte d) as [b0 b1 b2 b3 b4 b5 b6 b7] eqn:Hb.
  assert (Hsign :
    match String (Ascii b0 b1 b2 b3 b4 b5 b6 b7) r with
    | String "-" r0 => (true, r0)
    | String "+" r0 => (false, r0)
    | _ => (false, String (Ascii b0 b1 b2 b3 b4 b5 b6 b7) r)
    end = (false, String (Ascii b0 b1 b2 b3 b4 b5 b6 b7) r)).
  { destruct b0, b1, b2, b3, b4, b5, b6, b7; try reflexivity; congruence. }
  rewrite Hsign, Hp. cbn [strconv.parseDigits].
  rewrite Z2N.id by lia.
  unfold strconv.minInt, strconv.maxInt in *.
  destruct (- 2 ^ 63 <=? i) eqn:E1; [|apply Z.leb_gt in E1; lia].
  destruct (i <=? 2 ^ 63 - 1) eqn:E2; [|apply Z.leb_gt in E2; lia].
  reflexivity.
Qed.

Lemma Itoa_inj_nonneg (i j : Z) :
  0 <= i <= strconv.maxInt -> 0 <= j <= strconv.maxInt ->
  strconv.Itoa i = strconv.Itoa j -> i = j.
Proof.
  intros Hi Hj E. apply Atoi_Itoa in Hi, Hj. congruence.
Qed.

End strconv_facts.

(** ** Sorting *)

Lemma StronglySorted_le_lt (l : list Z) :
  StronglySorted Z.le l -> NoDup l -> StronglySorted Z.lt l.
Proof.
  induction 1 as [|x l Hs IH Hall]; intros Hnd; [constructor|].
  apply NoDup_cons in Hnd as [Hx Hnd]. constructor; [auto|].
  apply Forall_forall. intros y Hy.
  rewrite Forall_forall in Hall. specialize (Hall y Hy).
  assert (x <> y) by (intros ->; apply Hx, Hy). lia.
Qed.

(** [sort.Ints] does not depend on the order of its input. *)
Lemma sort_Ints_Permutation (l k : list Z) :
  l ≡ₚ k -> sort.Ints l = sort.Ints k.
Proof.
  intros Hp. unfold sort.Ints.
  apply (Sorted_unique Z.le); try apply Sorted_merge_sort; try apply _.
  by rewrite !merge_sort_Permutation.
Qed.

(** [sort.Strings]: byte-wise lexicographic order is a total order. *)

Lemma compare_as_OT (s t : string) :
  String.compare s t = String_as_OT.compare s t.
Proof.
  revert t. induction s as [|a s IH]; intros [|b t]; try reflexivity.
  all: cbn; rewrite IH; reflexivity.
Qed.

Lemma string_le_lt_eq (s t : string) :
  sort.string_le s t <-> String_as_OT.lt s t \/ s = t.
Proof.
  unfold sort.string_le, String.leb, String_as_OT.lt.
  rewrite compare_as_OT.
  pose proof (String_as_OT.compare_spec s t) as Hs.
  destruct (String_as_OT.compare s t) eqn:E; inversion Hs as [He|Hl|Hg].
  - split; [by right|done].
  - split; [by left|done].
  - split; [done|]. intros [?| ->]; [done|].
    by apply (irreflexivity String_as_OT.lt t) in Hg.
Qed.

#[local] Instance string_le_trans : Transitive sort.string_le.
Proof.
  intros s t u. rewrite !string_le_lt_eq.
  intros [L1| ->] [L2| ->]; auto. left. etransitivity; eassumption.
Qed.

#[local] Instance string_le_antisymm : AntiSymm (=) sort.string_le.
Proof. intros s t. apply String.leb_antisym. Qed.

#[local] Instance string_le_total : Total sort.string_le.
Proof. intros s t. apply String.leb_total. Qed.

Lemma sort_Strings_Permutation (l k : list string) :
  l ≡ₚ k -> sort.Strings l = sort.Strings k.
Proof.
  intros Hp. unfold sort.Strings.
  apply (Sorted_unique sort.string_le); try apply Sorted_merge_sort; try apply _.
  by rewrite !merge_sort_Permutation.
Qed.

Lemma sort_Strings_sorted (l : list string) :
  StronglySorted sort.string_le l -> sort.Strings l = l.
Proof.
  intros Hs. unfold sort.Strings.
  apply (StronglySorted_unique sort.string_le); try done.
  - apply StronglySorted_merge_sort; apply _.
  - apply merge_sort_Permutation.
Qed.

Lemma StronglySorted_filter {A} (R : relation A) (P : A -> Prop)
    `{forall x, Decision (P x)} (l : list A) :
  StronglySorted R l -> StronglySorted R (filter P l).
Proof.
  induction 1 as [|x l Hs IH Hall]; [constructor|].
  rewrite filter_cons. destruct (decide (P x)); [|done].
  constructor; [done|]. apply Forall_forall. intros y [_ Hy]%list_elem_of_filter.
  rewrite Forall_forall in Hall. auto.
Qed.

(** ** Open ports *)

Section open_ports.

Definition portOf (c : psnet.ConnectionStat) : Z :=
  Z.of_N (psnet.Port (psnet.Laddr c)).

Lemma keptConn_spec (c : psnet.ConnectionStat) :
  keptConn c = true <->
  psnet.Status c = "LISTEN"
  /\ psnet.IP (psnet.Laddr c) <> "::"
  /\ psnet.IP (psnet.Laddr c) <> "0.0.0.0".
Proof.
  unfold keptConn. rewrite !andb_true_iff, !negb_true_iff.
  rewrite String.eqb_eq, !String.eqb_neq. tauto.
Qed.

Lemma elem_of_portSet (conns : list psnet.ConnectionStat) :
  forall (set : gset string) (s : string),
    s ∈ portSet conns set <->
    s ∈ set \/ exists c, c ∈ conns /\ keptConn c = true
                         /\ s = strconv.Itoa (portOf c).
Proof.
  induction conns as [|c conns IH]; intros set s; cbn [portSet].
  - split; [auto|]. intros [?|(c & Hc & _)]; [done|]. by apply elem_of_nil in Hc.
  - rewrite IH. destruct (keptConn c) eqn:Hk.
    + rewrite elem_of_union, elem_of_singleton. split.
      * intros [[->|?]|(c' & ? & ? & ?)]; [right|left|right]; eauto.
        -- exists c. split; [apply list_elem_of_here|done].
        -- exists c'. split; [by apply list_elem_of_further|done].
      * intros [?|(c' & [->|?]%elem_of_cons & ? & ?)]; eauto.
    + split.
      * intros [?|(c' & ? & ? & ?)]; [by left|right].
        exists c'. split; [by apply list_elem_of_further|done].
      * intros [?|(c' & [->|?]%elem_of_cons & ? & ?)]; eauto. congruence.
Qed.

Definition parsePort (pStr : string) : Z := default 0 (strconv.Atoi pStr).

Lemma formatPorts_Permutation (keys keys' : list string) :
  keys' ≡ₚ keys -> formatPorts keys' = formatPorts keys.
Proof.
  intros Hp. unfold formatPorts.
  rewrite (Permutation_length Hp).
  by rewrite (sort_Ints_Permutation _ (parsePort <$> keys))
    by (by apply fmap_Permutation).
Qed.

Context (conns : list psnet.ConnectionStat).
Hypothesis ports_uint32 :
  Forall (fun c => (psnet.Port (psnet.Laddr c) < 2 ^ 32)%N) conns.

Let keys := elements (portSet conns ∅).
Let ports := sort.Ints (parsePort <$> keys).

Lemma port_in_range (c : psnet.ConnectionStat) :
  c ∈ conns -> 0 <= portOf c <= strconv.maxInt.
Proof.
  intros Hc. rewrite Forall_forall in ports_uint32.
  specialize (ports_uint32 c Hc). unfold portOf, strconv.maxInt. lia.
Qed.

Lemma parsePort_Itoa (c : psnet.ConnectionStat) :
  c ∈ conns -> parsePort (strconv.Itoa (portOf c)) = portOf c.
Proof.
  intros Hc. unfold parsePort. by rewrite Atoi_Itoa by by apply port_in_range.
Qed.

Lemma key_parses (k : string) :
  k ∈ keys ->
  exists c, c ∈ conns /\ keptConn c = true
    /\ k = strconv.Itoa (portOf c) /\ parsePort k = portOf c.
Proof.
  unfold keys. rewrite elem_of_elements, elem_of_portSet.
  intros [?|(c & Hc & Hk & ->)]; [set_solver|].
  exists c. repeat split; try done. by apply parsePort_Itoa.
Qed.

Lemma ports_NoDup : NoDup (parsePort <$> keys).
Proof.
  apply NoDup_fmap_2_strong; [|apply NoDup_elements].
  intros k1 k2 (c1 & _ & _ & -> & E1)%key_parses (c2 & _ & _ & -> & E2)%key_parses.
  rewrite E1, E2. by intros ->.
Qed.

Lemma ports_sorted : StronglySorted Z.lt ports.
Proof.
  apply StronglySorted_le_lt.
  - apply StronglySorted_merge_sort; apply _.
  - unfold ports, sort.Ints. rewrite merge_sort_Permutation. apply ports_NoDup.
Qed.

Lemma elem_of_ports (p : Z) :
  p ∈ ports <-> exists c, c ∈ conns /\ keptConn c = true /\ p = portOf c.
Proof.
  unfold ports, sort.Ints. rewrite merge_sort_Permutation, list_elem_of_fmap.
  split.
  - intros (k & -> & (c & ? & ? & _ & ->)%key_parses). eauto.
  - intros (c & Hc & Hk & ->). exists (strconv.Itoa (portOf c)).
    split; [by rewrite parsePort_Itoa|].
    unfold keys. rewrite elem_of_elements, elem_of_portSet. eauto.
Qed.

End open_ports.

(** C1, as stated, fails: sockets bound to the wildcard addresses are
    the ones [getOpenPorts] leaves out, so the six ports of the
    example on wildcard addresses give "None". *)
Lemma getOpenPorts_wildcard_sockets :
  getOpenPorts (withConnections demoHost wildcardSockets) = "None"
  /\ getOpenPorts (withConnections demoHost wildcardSockets)
     <> "22, 80, 3000, 5432, 8080...".
Proof. split; [vm_compute; reflexivity | vm_compute; discriminate]. Qed.

(** C1, amended: [getOpenPorts] keeps the listening TCP sockets whose
    local address is neither "::" nor "0.0.0.0", removes duplicate
    ports, sorts ascending, shows at most five ports and marks a longer
    list with "..."; the order in which the port set is ranged over
    does not matter.  For listening sockets bound to addresses of one
    interface on ports 22, 80, 8080, 3000, 5432 and 9000 the result is
    "22, 80, 3000, 5432, 8080...". *)
Theorem getOpenPorts_filter_dedup_sort_truncate :
  (forall (h : Host) (conns : list psnet.ConnectionStat),
      psnet_Connections h "tcp" = Some conns ->
      Forall (fun c => (psnet.Port (psnet.Laddr c) < 2 ^ 32)%N) conns ->
      exists ports : list Z,
        StronglySorted Z.lt ports
        /\ (forall p, p ∈ ports <->
              exists c, c ∈ conns
                /\ psnet.Status c = "LISTEN"
                /\ psnet.IP (psnet.Laddr c) <> "::"
                /\ psnet.IP (psnet.Laddr c) <> "0.0.0.0"
                /\ p = Z.of_N (psnet.Port (psnet.Laddr c)))
        /\ getOpenPorts h =
             (if decide (ports = []) then "None"
              else if decide (5 < length ports)%nat
                   then strings.Join (strconv.Itoa <$> take 5 ports) ", " +:+ "..."
                   else strings.Join (strconv.Itoa <$> ports) ", ")
        /\ (forall keys, keys ≡ₚ elements (portSet conns ∅) ->
              formatPorts keys = getOpenPorts h))
  /\ getOpenPorts (withConnections demoHost boundSockets)
     = "22, 80, 3000, 5432, 8080...".
Proof.
  split; [|vm_compute; reflexivity].
  intros h conns Hconns Hports.
  exists (sort.Ints (parsePort <$> elements (portSet conns ∅))).
  split; [by apply ports_sorted|]. split.
  - intros p. rewrite elem_of_ports by done. unfold portOf.
    split.
    + intros (c & Hc & (? & ? & ?)%keptConn_spec & ->). exists c. tauto.
    + intros (c & Hc & ? & ? & ? & ->). exists c.
      rewrite keptConn_spec. tauto.
  - assert (Hget : getOpenPorts h = formatPorts (elements (portSet conns ∅))).
    { unfold getOpenPorts. by rewrite Hconns. }
    split; [|intros keys Hp; rewrite Hget; by apply formatPorts_Permutation].
    rewrite Hget. unfold formatPorts. fold parsePort.
    set (ports := sort.Ints _).
    assert (Hlen : length ports = length (elements (portSet conns ∅))).
    { unfold ports, sort.Ints.
      by rewrite merge_sort_Permutation, length_fmap. }
    rewrite <- Hlen, length_fmap, <- fmap_take.
    destruct ports as [|p ps] eqn:E; [reflexivity|].
    rewrite decide_False by done. cbn [length Nat.eqb].
    destruct (5 <? _)%nat eqn:E5.
    + apply Nat.ltb_lt in E5. by rewrite decide_True by done.
    + apply Nat.ltb_ge in E5. rewrite decide_False by lia. done.
Qed.

(** The amended C1 at the sockets of the example. *)
Lemma getOpenPorts_filter_dedup_sort_truncate_witness :
  exists ports : list Z,
    StronglySorted Z.lt ports
    /\ getOpenPorts (withConnections demoHost boundSockets) =
         (if decide (ports = []) then "None"
          else if decide (5 < length ports)%nat
               then strings.Join (strconv.Itoa <$> take 5 ports) ", " +:+ "..."
               else strings.Join (strconv.Itoa <$> ports) ", ").
Proof.
  destruct (proj1 getOpenPorts_filter_dedup_sort_truncate
              (withConnections demoHost boundSockets) boundSockets)
    as (ports & Hs & _ & Hr & _).
  - reflexivity.
  - repeat constructor.
  - exists ports. split; assumption.
Defined.

(** ** Installed languages *)

(** The candidates in the order of [sort.Strings], with the executable
    the table [cmds] gives each. *)
Definition candidates : list (string * string) :=
  [("Go", "go"); ("Java", "java"); ("Node", "node"); ("PHP", "php");
   ("Python", "python3"); ("Ruby", "ruby"); ("Rust", "rustc")].

Lemma candidates_sorted : StronglySorted sort.string_le (candidates.*1).
Proof.
  repeat (constructor; [|repeat (constructor; [vm_compute; reflexivity|]); constructor]).
  constructor.
Qed.

Lemma candidates_langs : candidates.*1 ≡ₚ langs.
Proof.
  apply NoDup_Permutation.
  - by_compute.
  - by_compute.
  - intros x. unfold langs, candidates. cbn [fmap list_fmap fst].
    rewrite !elem_of_cons, !elem_of_nil. tauto.
Qed.

Lemma filter_candidates (h : Host) (cs : list (string * string)) :
  (forall p, p ∈ cs -> langFound h p.1 = exec_LookPath h p.2) ->
  filter (fun l => langFound h l = true) (cs.*1)
  = (filter (fun p => exec_LookPath h p.2 = true) cs).*1.
Proof.
  induction cs as [|p cs IH]; intros Hcs; [reflexivity|].
  cbn [fmap list_fmap]. rewrite !filter_cons.
  rewrite IH by (intros; apply Hcs; by apply list_elem_of_further).
  rewrite (Hcs p) by apply list_elem_of_here.
  destruct (decide (exec_LookPath h p.2 = true)); reflexivity.
Qed.

(** C7: whatever the order in which the seven goroutines finish, the
    result lists exactly the candidates among Python, Go, Node, Rust,
    Java, Ruby and PHP whose executable resolves, in sorted order and
    joined by ", "; it is "None" when no executable resolves. *)
Theorem getInstalledLanguages_sorted_subset (h : Host) (done : list string) :
  done ≡ₚ langs ->
  let found := (filter (fun p => exec_LookPath h p.2 = true) candidates).*1 in
  installedLanguagesIn h done = getInstalledLanguages h
  /\ getInstalledLanguages h =
       (if decide (found = []) then "None" else strings.Join found ", ").
Proof.
  intros Hdone found.
  assert (Hin : forall l, l ≡ₚ langs ->
    installedLanguagesIn h l =
    (if decide (found = []) then "None" else strings.Join found ", ")).
  { intros l Hl. unfold installedLanguagesIn.
    assert (Hsort : sort.Strings (filter (fun l => langFound h l = true) l) = found).
    { rewrite (sort_Strings_Permutation _
        (filter (fun l => langFound h l = true) (candidates.*1))).
      - rewrite sort_Strings_sorted
          by apply StronglySorted_filter, candidates_sorted.
        apply filter_candidates.
        intros p Hp. unfold candidates in Hp.
        repeat (apply elem_of_cons in Hp as [->|Hp]; [reflexivity|]).
        by apply elem_of_nil in Hp.
      - by rewrite Hl, candidates_langs. }
    rewrite Hsort. destruct found; reflexivity. }
  split; [|by apply Hin].
  unfold getInstalledLanguages. by rewrite !Hin.
Qed.

(** C7 for the goroutines finishing in reverse order on [demoHost],
    where only [go] resolves. *)
Lemma getInstalledLanguages_sorted_subset_witness :
  installedLanguagesIn demoHost (reverse langs) = getInstalledLanguages demoHost
  /\ getInstalledLanguages demoHost = "Go".
Proof.
  apply (getInstalledLanguages_sorted_subset demoHost (reverse langs)).
  apply reverse_Permutation.
Defined.

(** ** The goroutines of one pass *)

(** *** No probe panics *)

Definition ok {A} (o : outcome A) : Prop := exists a, o = Ret a.

Lemma genSplit_cons (fuel : nat) (s sep : string) :
  exists x l, strings.genSplit fuel s sep = x :: l.
Proof.
  destruct fuel as [|f]; cbn; [eauto|]. destruct (strings.Index s sep); eauto.
Qed.

Lemma index_Split_0 (s sep : string) : ok (index (strings.Split s sep) 0).
Proof.
  unfold strings.Split.
  destruct (genSplit_cons (String.length s) s sep) as (x & l & ->).
  by exists x.
Qed.

Lemma HasPrefix_Name_colon (s : string) :
  strings.HasPrefix s "Name:" = true -> strings.Index s ":" <> None.
Proof.
  destruct s as [|c0 [|c1 [|c2 [|c3 [|c4 r]]]]];
    cbn [strings.HasPrefix]; rewrite ?andb_false_r; try done.
  rewrite !andb_true_iff, !Ascii.eqb_eq.
  intros (<- & <- & <- & <- & <- & _). vm_compute. done.
Qed.

Lemma Index_Name_colon (s : string) :
  strings.Index s "Name:" <> None -> strings.Index s ":" <> None.
Proof.
  induction s as [|c s IH]; [done|].
  cbn [strings.Index].
  destruct (strings.HasPrefix (String c s) "Name:") eqn:Hp.
  - intros _. by apply HasPrefix_Name_colon in Hp.
  - intros Hi. destruct (strings.Index s "Name:") eqn:E; [|done].
    destruct (strings.HasPrefix (String c s) ":"); [done|].
    destruct (strings.Index s ":"); [done|]. by apply IH.
Qed.

Lemma index_Split_1 (s : string) :
  strings.Contains s "Name:" = true -> ok (index (strings.Split s ":") 1).
Proof.
  unfold strings.Contains. intros Hc.
  assert (Hi : strings.Index s ":" <> None).
  { apply Index_Name_colon. by destruct (strings.Index s "Name:"). }
  unfold strings.Split. destruct s as [|c s]; [done|].
  cbn [String.length strings.genSplit].
  destruct (strings.Index (String c s) ":") as [i|]; [|done].
  match goal with
  | |- context [strings.genSplit ?f ?a ?b] =>
      destruct (genSplit_cons f a b) as (x & l & ->)
  end.
  by exists x.
Qed.

(** Case analysis on the branches of a probe, down to its returns. *)
Ltac probe_ok :=
  repeat match goal with
         | |- ok (Ret _) => eexists; reflexivity
         | |- _ => progress cbn [obind]
         | |- ok (index (strings.Split ?s ?sep) 0) => apply index_Split_0
         | |- context [index (strings.Split ?s ?sep) 0] =>
             destruct (index_Split_0 s sep) as [? ->]
         | |- ok (obind (if ?b then _ else _) _) => destruct b
         | |- ok (if ?b then _ else _) => destruct b
         | |- _ => progress cbv zeta
         end.

Lemma shellOfPath_ok (h : Host) (shellPath : string) : ok (shellOfPath h shellPath).
Proof. unfold shellOfPath. probe_ok. Qed.

Lemma getShell_ok (h : Host) : ok (getShell h).
Proof. unfold getShell. probe_ok; apply shellOfPath_ok. Qed.

Lemma getSystemLocale_ok (h : Host) : ok (getSystemLocale h).
Proof. unfold getSystemLocale. probe_ok. Qed.

(** What [grep 'Name:'] prints is empty or contains "Name:". *)
Definition grepSelects (h : Host) : Prop :=
  let wm := runShellCommand h "wmctrl -m | grep 'Name:'" in
  wm = "" \/ strings.Contains wm "Name:" = true.

Lemma getWindowManager_ok (h : Host) : grepSelects h -> ok (getWindowManager h).
Proof.
  intros Hg. unfold getWindowManager, x11WindowManager.
  repeat match goal with
         | |- ok (if nonEmpty (runShellCommand _ _) then _ else _) => fail 1
         | |- ok (if ?b then _ else _) => destruct b
         end; try (eexists; reflexivity).
  destruct Hg as [Hg|Hg].
  - rewrite Hg. eexists; reflexivity.
  - destruct (nonEmpty _); [|eexists; reflexivity].
    destruct (index_Split_1 _ Hg) as [x ->]. eexists; reflexivity.
Qed.

(** The first field of what stands before the first "|" of a command. *)
Definition baseOf (c : string) : string :=
  match strings.Split c "|" with
  | head :: _ => match strings.Fields head with b :: _ => b | [] => "" end
  | [] => ""
  end.

Lemma linux_entries :
  map_to_list linuxCheckers =
  [("Snap", "snap list | tail -n +2 | wc -l");
   ("APT", "dpkg-query -f . -W | wc -l");
   ("Flatpak", "flatpak list --app --columns=application | wc -l");
   ("DNF", "dnf list installed --quiet | wc -l");
   ("Pacman", "pacman -Qq --color never | wc -l")].
Proof. vm_compute. reflexivity. Qed.

Lemma darwin_entries :
  map_to_list darwinCheckers =
  [("Cask", "brew list --cask | wc -l"); ("Brew", "brew list --formula | wc -l")].
Proof. vm_compute. reflexivity. Qed.

Lemma windows_entries :
  map_to_list windowsCheckers =
  [("Winget", "(winget list | Measure-Object).Count");
   ("Scoop", "(scoop list | Measure-Object).Count");
   ("Choco", "(choco list -l | Measure-Object).Count")].
Proof. vm_compute. reflexivity. Qed.

(** The entries of the three tables. *)
Definition knownChecker (e : string * string) : Prop :=
  e ∈ map_to_list linuxCheckers \/ e ∈ map_to_list darwinCheckers
  \/ e ∈ map_to_list windowsCheckers.

(** For the commands of the tables both index expressions are in
    range. *)
Lemma countPackages_known (h : Host) (n c : string) :
  knownChecker (n, c) ->
  countPackages h n c = Ret (countWith h n c (baseOf c)).
Proof.
  unfold knownChecker.
  rewrite linux_entries, darwin_entries, windows_entries.
  rewrite !elem_of_cons, !elem_of_nil.
  intros H. repeat (destruct H as [H|H]); try done;
    injection H as -> ->; reflexivity.
Qed.

Lemma received_known (h : Host) (done : list (string * string)) :
  Forall knownChecker done ->
  received h done
  = Ret (omap (fun e => countWith h e.1 e.2 (baseOf e.2)) done).
Proof.
  induction 1 as [|[n c] done Hk _ IH]; [reflexivity|].
  cbn [received omap]. rewrite (countPackages_known _ _ _ Hk), IH. cbn.
  destruct (countWith h n c (baseOf c)); reflexivity.
Qed.

Lemma packageCountsIn_ok (h : Host) (done : list (string * string)) :
  Forall knownChecker done -> ok (packageCountsIn h done).
Proof.
  intros Hk. unfold packageCountsIn. rewrite (received_known _ _ Hk).
  probe_ok.
Qed.

Lemma getPackageCounts_ok (h : Host) : ok (getPackageCounts h).
Proof.
  unfold getPackageCounts, checkers.
  repeat match goal with
         | |- ok (match (if ?b then _ else _) with _ => _ end) => destruct b
         end;
    try (eexists; reflexivity); apply packageCountsIn_ok, Forall_forall;
    intros e He; unfold knownChecker; auto.
Qed.

Lemma getOSInfo_ok (h : Host) (hi : host.InfoStat) :
  host_Info h = Some hi -> ok (getOSInfo h).
Proof.
  intros Hi. unfold getOSInfo. rewrite Hi.
  repeat match goal with
         | |- ok (Ret _) => eexists; reflexivity
         | |- ok (if ?b then _ else _) => destruct b
         | |- ok (match ?o with Some _ => _ | None => _ end) => destruct o
         | |- ok (let '(_, _) := ?p in _) => destruct p
         end.
Qed.

Lemma gatherHostInfo_ok (h : Host) : ok (gatherHostInfo h).
Proof.
  unfold gatherHostInfo. destruct (host_Info h) as [hi|] eqn:Hi; [|by eexists].
  destruct (getOSInfo_ok h hi Hi) as [os ->]. cbn. by eexists.
Qed.

(** ** The machine: every schedule gives the same record *)

Section machine.

Local Open Scope nat_scope.

Fixpoint adds (p : list instr) : nat :=
  match p with
  | [] => 0
  | Add n :: q => n + adds q
  | _ :: q => adds q
  end.

Fixpoint pending (p : list instr) : list writes :=
  match p with
  | [] => []
  | Spawn b :: q => b :: pending q
  | _ :: q => pending q
  end.

(** No suffix of the program adds more to the counter than it starts
    goroutines: [wg.Done()] never finds the counter at zero. *)
Fixpoint covered (p : list instr) : Prop :=
  match p with
  | [] => True
  | i :: q => adds (i :: q) <= length (pending (i :: q)) /\ covered q
  end.

Definition waitsLast (s : state) : Prop :=
  (caller s = [] /\ counter s = 0%nat)
  \/ exists q, caller s = q ++ [Wait] /\ Forall (fun i => i <> Wait) q.

(** The writes [W] of all goroutines are conserved: performed, left
    to a started goroutine, or left to one not yet started. *)
Record Inv (W : writes) (s : state) : Prop := {
  inv_conserve :
    trace s ++ concat (live s) ++ concat (pending (caller s)) ≡ₚ W;
  inv_info : info s = perform (trace s) zeroInfo;
  inv_counter :
    (counter s + adds (caller s) = length (live s) + length (pending (caller s)))%nat;
  inv_covered : covered (caller s);
  inv_wait : waitsLast s
}.

Lemma perform_app (ws1 ws2 : writes) (i : SystemInfo) :
  perform (ws1 ++ ws2) i = perform ws2 (perform ws1 i).
Proof. unfold perform. apply fold_left_app. Qed.

Lemma waitsLast_tail (i : instr) (p : list instr) (c c' : nat) l l' inf inf' t t' :
  i <> Wait ->
  waitsLast {| caller := i :: p; counter := c; live := l; info := inf; trace := t |} ->
  waitsLast {| caller := p; counter := c'; live := l'; info := inf'; trace := t' |}.
Proof.
  intros Hi [[? _]|(q & Hq & Hall)]; [done|]. right. cbn in *.
  destruct q as [|j q]; cbn in Hq; [congruence|].
  injection Hq as -> ->. exists q. split; [done|]. by inversion Hall.
Qed.

Lemma Inv_step (W : writes) (s s' : state) : Inv W s -> step s s' -> Inv W s'.
Proof.
  intros [Hc Hi Hn Hv Hw] Hstep.
  destruct Hstep; cbn [caller counter live info trace] in *.
  - (* wg.Add *)
    split; cbn [caller counter live info trace adds pending] in *.
    + done.
    + done.
    + lia.
    + apply Hv.
    + eapply waitsLast_tail; [|exact Hw]; done.
  - (* go *)
    split; cbn [caller counter live info trace adds pending] in *.
    + by rewrite concat_app, concat_cons, <- !app_assoc in *.
    + done.
    + rewrite length_app. cbn in *. lia.
    + apply Hv.
    + eapply waitsLast_tail; [|exact Hw]; done.
  - (* wg.Wait *)
    split; cbn [caller counter live info trace adds pending] in *.
    + done.
    + done.
    + done.
    + apply Hv.
    + destruct Hw as [[? _]|(q & Hq & Hall)]; [done|]. cbn in *.
      destruct q as [|j q]; cbn in Hq.
      * injection Hq as ->. by left.
      * injection Hq as <- ->. by inversion Hall.
  - (* a store *)
    split; cbn [caller counter live info trace adds pending] in *.
    + rewrite <- Hc. rewrite !concat_app, !concat_cons, <- !app_assoc.
      apply Permutation_app_head. cbn [app].
      by rewrite <- Permutation_middle.
    + by rewrite perform_app, <- Hi.
    + rewrite !length_app in *. cbn in *. lia.
    + done.
    + destruct Hw as [[? ?]|?]; [by left|by right].
  - (* wg.Done *)
    split; cbn [caller counter live info trace adds pending] in *.
    + by rewrite !concat_app, ?concat_cons in *.
    + done.
    + rewrite !length_app in *. cbn in *. lia.
    + done.
    + destruct Hw as [[Hm ?]|?]; [|by right]. cbn in *. done.
Qed.

Lemma Inv_rtc (W : writes) (s s' : state) : Inv W s -> rtc step s s' -> Inv W s'.
Proof. induction 2; eauto using Inv_step. Qed.

(** The program of [GetSystemInfo] starts in the invariant. *)
Lemma adds_tasks (tasks : list writes) (p : list instr) :
  adds ((tasks ≫= fun b => [Add 1; Spawn b]) ++ p) = (length tasks + adds p)%nat.
Proof. induction tasks as [|b tasks IH]; cbn; [done|]. rewrite IH. lia. Qed.

Lemma pending_tasks (tasks : list writes) (p : list instr) :
  pending ((tasks ≫= fun b => [Add 1; Spawn b]) ++ p) = tasks ++ pending p.
Proof. induction tasks as [|b tasks IH]; cbn; [done|]. by rewrite IH. Qed.

Lemma adds_group (group : list writes) (p : list instr) :
  adds ((Spawn <$> group) ++ p) = adds p.
Proof. induction group as [|b group IH]; cbn; done. Qed.

Lemma pending_group (group : list writes) (p : list instr) :
  pending ((Spawn <$> group) ++ p) = group ++ pending p.
Proof. induction group as [|b group IH]; cbn; [done|]. by rewrite IH. Qed.

Lemma covered_tasks (tasks : list writes) :
  covered ((tasks ≫= fun b => [Add 1; Spawn b]) ++ [Wait]).
Proof.
  induction tasks as [|b tasks IH]; [cbn; auto|].
  change (covered (Add 1 :: Spawn b ::
    ((tasks ≫= fun b => [Add 1; Spawn b]) ++ [Wait]))).
  cbn [covered]. split_and!; [| |done];
    cbn [adds pending length]; rewrite adds_tasks, pending_tasks, length_app;
    cbn; lia.
Qed.

Lemma covered_group (group : list writes) (p : list instr) :
  covered p -> adds p <= length (pending p) ->
  covered ((Spawn <$> group) ++ p).
Proof.
  intros Hp Ha. induction group as [|b group IH]; [done|].
  cbn [fmap list_fmap app covered]. split; [|done].
  cbn [adds pending length]. rewrite adds_group, pending_group, length_app. lia.
Qed.

Lemma Inv_initial (group tasks : list writes) :
  Inv (concat (group ++ tasks)) (initial (program group tasks)).
Proof.
  unfold initial, program. split; cbn [caller counter live info trace].
  - cbn [pending concat app]. rewrite pending_group, pending_tasks. cbn.
    by rewrite app_nil_r.
  - done.
  - cbn [adds pending length]. rewrite adds_group, pending_group, adds_tasks,
      pending_tasks, !length_app. cbn. lia.
  - cbn [covered]. split.
    + cbn [adds pending]. rewrite adds_group, pending_group, adds_tasks,
        pending_tasks, !length_app. cbn. lia.
    + apply covered_group; [apply covered_tasks|].
      rewrite adds_tasks, pending_tasks, length_app. cbn. lia.
  - right. exists (Add (length group) :: (Spawn <$> group)
                   ++ (tasks ≫= fun b => [Add 1; Spawn b])).
    split; [by rewrite <- app_comm_cons, <- app_assoc|].
    constructor; [done|]. apply Forall_app. split.
    + apply Forall_fmap, Forall_forall. done.
    + apply Forall_forall. intros i (b & Hi & _)%list_elem_of_bind.
      apply elem_of_cons in Hi as [->|Hi]; [done|].
      apply elem_of_cons in Hi as [->|Hi]; [done|]. by apply elem_of_nil in Hi.
Qed.

End machine.

(** *** Progress, termination and the state at the return *)

Section schedules.

Local Open Scope nat_scope.

(** The number of steps a state still has to take. *)
Definition weight (i : instr) : nat :=
  match i with
  | Add _ => 1
  | Spawn b => 2 + length b
  | Wait => 1
  end.

Definition measure (s : state) : nat :=
  sum_list (weight <$> caller s) + sum_list ((fun b => S (length b)) <$> live s).

Lemma measure_step (s s' : state) : step s s' -> measure s = S (measure s').
Proof.
  destruct 1; unfold measure; cbn [caller live];
    rewrite ?fmap_app, ?fmap_cons, ?sum_list_with_app; cbn; lia.
Qed.


(** A state that has not returned can take a step: no deadlock, no
    [wg.Done()] on a zero counter. *)
Lemma progress (W : writes) (s : state) :
  Inv W s -> ~ returned s -> exists s', step s s'.
Proof.
  intros [_ _ Hn Hv Hw] Hr. destruct s as [p c l i t].
  unfold returned in Hr. cbn in *.
  destruct p as [|[n|b|] p]; [done| | |].
  - eexists. apply step_add.
  - eexists. apply step_spawn.
  - destruct c as [|c]; [eexists; apply step_wait|].
    destruct Hw as [[? _]|(q & Hq & Hall)]; [done|]. cbn in *.
    destruct q as [|j q]; cbn in Hq; [|injection Hq as <- _; by inversion Hall].
    injection Hq as ->. cbn in Hn.
    destruct l as [|[|[f v] b] l]; [cbn in Hn; lia| |].
    + eexists. apply (step_done []).
    + eexists. apply (step_store []).
Qed.

(** After the return nothing can move: no goroutine is left. *)
Lemma returned_final (W : writes) (s : state) :
  Inv W s -> returned s -> live s = [] /\ forall s', ~ step s s'.
Proof.
  intros [_ _ Hn _ Hw] Hr. destruct s as [p c l i t].
  unfold returned, waitsLast in *. cbn in *. subst p.
  destruct Hw as [[_ ->]|(q & Hq & _)]; [|by destruct q]. cbn in Hn.
  destruct l; [|cbn in Hn; lia]. split; [done|].
  intros s' Hs. inversion Hs; subst; by destruct l1.
Qed.

(** From every reachable state some schedule reaches the return. *)
Lemma can_return (W : writes) (n : nat) :
  forall s, Inv W s -> measure s <= n -> exists s', rtc step s s' /\ returned s'.
Proof.
  induction n as [|n IH]; intros s HI Hm.
  - destruct (decide (caller s = [])) as [Hr|Hr]; [exists s; split; [done|exact Hr]|].
    destruct (progress W s HI Hr) as [s' Hs]. apply measure_step in Hs. lia.
  - destruct (decide (caller s = [])) as [Hr|Hr]; [exists s; split; [done|exact Hr]|].
    destruct (progress W s HI Hr) as [s' Hs].
    destruct (IH s') as (s'' & Hrtc & Hret).
    + by eapply Inv_step.
    + apply measure_step in Hs. lia.
    + exists s''. split; [by econstructor|done].
Qed.

End schedules.

(** *** Stores to distinct fields commute *)

(** The value the last store to [f] in [ws] writes. *)
Fixpoint lastWrite (f : field) (ws : writes) : option string :=
  match ws with
  | [] => None
  | (g, v) :: rest =>
      match lastWrite f rest with
      | Some x => Some x
      | None => if decide (g = f) then Some v else None
      end
  end.

Lemma load_perform (f : field) (ws : writes) :
  forall i, load f (perform ws i) = default (load f i) (lastWrite f ws).
Proof.
  induction ws as [|[g v] ws IH]; intros i; [reflexivity|].
  change (perform ((g, v) :: ws) i) with (perform ws (store g v i)).
  rewrite IH. cbn [lastWrite]. destruct (lastWrite f ws); [reflexivity|].
  rewrite load_store. by destruct (decide (g = f)).
Qed.

Lemma lastWrite_None (f : field) (ws : writes) :
  f ∉ ws.*1 -> lastWrite f ws = None.
Proof.
  induction ws as [|[g v] ws IH]; [done|]. cbn. rewrite not_elem_of_cons.
  intros [Hne Hnin]. rewrite IH by done. by rewrite decide_False.
Qed.

Lemma lastWrite_NoDup (f : field) (v : string) (ws : writes) :
  NoDup (ws.*1) -> (f, v) ∈ ws -> lastWrite f ws = Some v.
Proof.
  induction ws as [|[g x] ws IH]; cbn; [by intros _ ?%elem_of_nil|].
  intros [Hg Hnd]%NoDup_cons [[= -> ->]|Hin]%elem_of_cons.
  - rewrite lastWrite_None by done. by rewrite decide_True.
  - by rewrite IH.
Qed.

Lemma lastWrite_Some (f : field) (v : string) (ws : writes) :
  lastWrite f ws = Some v -> (f, v) ∈ ws.
Proof.
  induction ws as [|[g x] ws IH]; cbn; [done|].
  destruct (lastWrite f ws) as [y|].
  - intros [= ->]. right. by apply IH.
  - destruct (decide (g = f)) as [->|]; [|done]. intros [= ->]. left.
Qed.

Lemma info_ext (a b : SystemInfo) : (forall f, load f a = load f b) -> a = b.
Proof.
  intros H. destruct a, b.
  generalize (H fOS), (H fKernel), (H fUptime), (H fShell), (H fCPU),
    (H fCoresThreads), (H fCPUSpeed), (H fCPUUsage), (H fGPU), (H fRAM),
    (H fDisk), (H fSwap), (H fHostname), (H fIPAddress), (H fOpenPorts),
    (H fLocale), (H fResolution), (H fWindowManager), (H fDE),
    (H fTerminal), (H fPackages), (H fLanguages), (H fGo),
    (H fVirtualization), (H fTemperature).
  cbn. intros; subst; reflexivity.
Qed.

(** When no field is stored to twice, the record after the stores is
    the same for every order of the stores. *)
Lemma perform_Permutation (ws ws' : writes) (i : SystemInfo) :
  NoDup (ws.*1) -> ws ≡ₚ ws' -> perform ws i = perform ws' i.
Proof.
  intros Hnd Hp. apply info_ext. intros f. rewrite !load_perform. f_equal.
  assert (Hnd' : NoDup (ws'.*1)) by by rewrite <- Hp.
  destruct (lastWrite f ws) as [v|] eqn:E.
  - apply lastWrite_Some in E. rewrite Hp in E.
    symmetry. by apply lastWrite_NoDup.
  - destruct (lastWrite f ws') as [v'|] eqn:E'; [|done].
    apply lastWrite_Some in E'. rewrite <- Hp in E'.
    apply (lastWrite_NoDup _ _ _ Hnd) in E'. congruence.
Qed.

Lemma concat_Permutation {A} (l k : list (list A)) :
  l ≡ₚ k -> concat l ≡ₚ concat k.
Proof.
  induction 1 as [|x l k _ IH|x y l|l1 l2 l3 _ IH1 _ IH2]; cbn.
  - done.
  - by rewrite IH.
  - by rewrite !app_assoc, (Permutation_app_comm y x).
  - by rewrite IH1.
Qed.

(** *** The goroutines of [GetSystemInfo] *)

Definition body (g : outcome writes) : writes :=
  match g with Ret ws => ws | Panic _ => [] end.

Definition value (o : outcome string) : string :=
  match o with Ret v => v | Panic _ => "" end.

Lemma bodies_ok (gs : list (outcome writes)) :
  Forall ok gs -> bodies gs = Ret (body <$> gs).
Proof.
  induction 1 as [|g gs [ws ->] _ IH]; [reflexivity|].
  cbn. by rewrite IH.
Qed.

Lemma fast_entries :
  map_to_list fastTasks =
  [("WindowManager", fWindowManager); ("Go", fGo); ("GPU", fGPU);
   ("Shell", fShell); ("IPAddress", fIPAddress);
   ("Virtualization", fVirtualization); ("Resolution", fResolution);
   ("Locale", fLocale); ("Terminal", fTerminal); ("DE", fDE); ("Disk", fDisk)].
Proof. vm_compute. reflexivity. Qed.

Lemma slow_entries :
  map_to_list slowTasks =
  [("OpenPorts", fOpenPorts); ("Languages", fLanguages);
   ("Temperature", fTemperature); ("Packages", fPackages)].
Proof. vm_compute. reflexivity. Qed.

(** The stores of the standalone goroutines, in the order of
    [map_to_list]. *)
Definition fastBodies (h : Host) : list writes :=
  [[(fWindowManager, value (getWindowManager h))]; [(fGo, getGoVersion h)];
   [(fGPU, getGPUInfo h)]; [(fShell, value (getShell h))];
   [(fIPAddress, getIPAddress h)]; [(fVirtualization, getVirtualization h)];
   [(fResolution, getResolution h)]; [(fLocale, value (getSystemLocale h))];
   [(fTerminal, getTerminal h)]; [(fDE, getDesktopEnvironment h)];
   [(fDisk, getDisk h)]].

Definition slowBodies (h : Host) : list writes :=
  [[(fOpenPorts, getOpenPorts h)]; [(fLanguages, getInstalledLanguages h)];
   [(fTemperature, getTemperatures h)];
   [(fPackages, value (getPackageCounts h))]].

Lemma goFunc_ok (h : Host) (p : field) (f : Host -> outcome string) :
  ok (f h) ->
  ok (goFunc h p (Some f)) /\ body (goFunc h p (Some f)) = [(p, value (f h))].
Proof. intros [v Hv]. cbn. rewrite Hv. cbn. split; [by eexists|done]. Qed.

Lemma spawn_fast_wm (h : Host) :
  ok (getWindowManager h) ->
  Forall ok (spawnEach h fastTaskFuncs (map_to_list fastTasks))
  /\ body <$> spawnEach h fastTaskFuncs (map_to_list fastTasks) = fastBodies h.
Proof.
  intros Hg. rewrite fast_entries.
  pose proof Hg as [wm Hwm].
  pose proof (getShell_ok h) as [sh Hsh].
  pose proof (getSystemLocale_ok h) as [lo Hlo].
  unfold fastBodies. rewrite Hwm, Hsh, Hlo.
  cbn [spawnEach fmap list_fmap fst snd].
  change (fastTaskFuncs !! "WindowManager") with (Some getWindowManager).
  change (fastTaskFuncs !! "Shell") with (Some getShell).
  change (fastTaskFuncs !! "Locale") with (Some getSystemLocale).
  cbn [goFunc]. rewrite Hwm, Hsh, Hlo. cbn [obind body value].
  split; [|reflexivity].
  repeat (constructor; [eexists; reflexivity|]). constructor.
Qed.

Lemma spawn_fast (h : Host) :
  grepSelects h ->
  Forall ok (spawnEach h fastTaskFuncs (map_to_list fastTasks))
  /\ body <$> spawnEach h fastTaskFuncs (map_to_list fastTasks) = fastBodies h.
Proof.
  intros Hg. apply getWindowManager_ok in Hg. revert Hg. apply spawn_fast_wm.
Qed.

Lemma spawn_slow (h : Host) :
  Forall ok (spawnEach h slowTaskFuncs (map_to_list slowTasks))
  /\ body <$> spawnEach h slowTaskFuncs (map_to_list slowTasks) = slowBodies h.
Proof.
  rewrite slow_entries.
  pose proof (getPackageCounts_ok h) as [pk Hpk].
  unfold slowBodies. rewrite Hpk.
  cbn [spawnEach fmap list_fmap fst snd].
  change (slowTaskFuncs !! "Packages") with (Some getPackageCounts).
  cbn [goFunc]. rewrite Hpk. cbn [obind body value].
  split; [|reflexivity].
  repeat (constructor; [eexists; reflexivity|]). constructor.
Qed.

(** The three grouped gatherers. *)
Definition groupBodies (h : Host) (isFast : bool) : list writes :=
  [body (gatherHostInfo h); body (gatherCPUInfo h isFast);
   body (gatherMemoryInfo h)].

Definition taskBodies (h : Host) (isFast : bool) : list writes :=
  fastBodies h ++ (if negb isFast then slowBodies h else []).

Lemma group_ok (h : Host) (isFast : bool) :
  Forall ok [gatherHostInfo h; gatherCPUInfo h isFast; gatherMemoryInfo h].
Proof.
  repeat constructor; [apply gatherHostInfo_ok| |]; by eexists.
Qed.

(** For every order of the two [range] loops no goroutine panics, and
    the bodies are those of the canonical order, permuted. *)
Lemma goroutinesIn_bodies_wm (h : Host) (isFast : bool)
    (fast slow : list (string * field)) :
  ok (getWindowManager h) ->
  fast ≡ₚ map_to_list fastTasks -> slow ≡ₚ map_to_list slowTasks ->
  exists tasks,
    bodies (goroutinesIn h isFast fast slow)
    = Ret (groupBodies h isFast ++ tasks)
    /\ tasks ≡ₚ taskBodies h isFast.
Proof.
  intros Hg Hf Hs.
  destruct (spawn_fast_wm h Hg) as [Hfok Hfb].
  destruct (spawn_slow h) as [Hsok Hsb].
  exists (body <$> (spawnEach h fastTaskFuncs fast
                    ++ (if negb isFast then spawnEach h slowTaskFuncs slow else []))).
  split.
  - unfold goroutinesIn. rewrite bodies_ok; [reflexivity|].
    apply Forall_app. split; [apply group_ok|].
    apply Forall_app. split.
    + unfold spawnEach in *. by rewrite Hf.
    + destruct isFast; cbn [negb]; [constructor|].
      unfold spawnEach in *. by rewrite Hs.
  - unfold taskBodies. rewrite fmap_app, <- Hfb.
    apply Permutation_app.
    + unfold spawnEach. by rewrite Hf.
    + destruct isFast; cbn [negb]; [done|].
      rewrite <- Hsb. unfold spawnEach. by rewrite Hs.
Qed.

Lemma goroutinesIn_bodies (h : Host) (isFast : bool)
    (fast slow : list (string * field)) :
  grepSelects h ->
  fast ≡ₚ map_to_list fastTasks -> slow ≡ₚ map_to_list slowTasks ->
  exists tasks,
    bodies (goroutinesIn h isFast fast slow)
    = Ret (groupBodies h isFast ++ tasks)
    /\ tasks ≡ₚ taskBodies h isFast.
Proof.
  intros Hg. apply getWindowManager_ok in Hg. revert Hg. apply goroutinesIn_bodies_wm.
Qed.

Lemma goroutines_bodies_wm (h : Host) (isFast : bool) :
  ok (getWindowManager h) ->
  bodies (goroutines h isFast)
  = Ret (groupBodies h isFast ++ taskBodies h isFast).
Proof.
  intros Hg.
  destruct (spawn_fast_wm h Hg) as [Hfok Hfb].
  destruct (spawn_slow h) as [Hsok Hsb].
  unfold goroutines, goroutinesIn. rewrite bodies_ok.
  - unfold taskBodies. rewrite !fmap_app, Hfb.
    destruct isFast; cbn [negb]; [reflexivity|]. by rewrite Hsb.
  - apply Forall_app. split; [apply group_ok|].
    apply Forall_app. split; [done|]. by destruct isFast.
Qed.

Lemma goroutines_bodies (h : Host) (isFast : bool) :
  grepSelects h ->
  bodies (goroutines h isFast)
  = Ret (groupBodies h isFast ++ taskBodies h isFast).
Proof.
  intros Hg. apply getWindowManager_ok in Hg. revert Hg. apply goroutines_bodies_wm.
Qed.

(** The fields the goroutines of one pass can store to, each once. *)
Definition storeOrder : list field :=
  [fUptime; fOS; fKernel; fHostname; fCPU; fCPUSpeed; fCoresThreads;
   fCPUUsage; fRAM; fSwap; fWindowManager; fGo; fGPU; fShell; fIPAddress;
   fVirtualization; fResolution; fLocale; fTerminal; fDE; fDisk;
   fOpenPorts; fLanguages; fTemperature; fPackages].

Lemma storeOrder_NoDup : NoDup storeOrder.
Proof. by_compute. Qed.

(** The fields of a goroutine's stores, read off without evaluating
    the values. *)
Ltac fields_of_body :=
  cbn [body concat fmap list_fmap app fst groupBodies taskBodies fastBodies
       slowBodies negb obind].

Lemma hostBody_fields (h : Host) :
  (body (gatherHostInfo h)).*1 = [fUptime; fOS; fKernel; fHostname]
  \/ body (gatherHostInfo h) = [].
Proof.
  unfold gatherHostInfo. destruct (host_Info h) as [hi|]; [|by right].
  cbv zeta. destruct (getOSInfo h); [left|right]; reflexivity.
Qed.

Lemma cpuBody_fields (h : Host) (isFast : bool) :
  exists speed : list field,
    (speed = [fCPUSpeed] \/ speed = [])
    /\ (body (gatherCPUInfo h isFast)).*1
       = [fCPU] ++ speed ++ [fCoresThreads]
         ++ (if negb isFast then [fCPUUsage] else []).
Proof.
  unfold gatherCPUInfo. cbv zeta. cbn [body].
  rewrite !fmap_app.
  destruct (cpu_Info h) as [[|c cs]|];
    [exists []|exists [fCPUSpeed]|exists []]; (split; [auto|]);
    destruct isFast; reflexivity.
Qed.

Lemma memBody_fields (h : Host) :
  (body (gatherMemoryInfo h)).*1 = [fRAM; fSwap]
  \/ (body (gatherMemoryInfo h)).*1 = [fSwap].
Proof.
  unfold gatherMemoryInfo. cbv zeta. cbn [body]. rewrite fmap_app.
  destruct (mem_VirtualMemory h); [left|right]; reflexivity.
Qed.

(** All stores of one pass, goroutine after goroutine. *)
Definition allWrites (h : Host) (isFast : bool) : writes :=
  concat (groupBodies h isFast ++ taskBodies h isFast).

(** No field is stored to twice in a pass. *)
Lemma allWrites_NoDup (h : Host) (isFast : bool) :
  NoDup ((allWrites h isFast).*1).
Proof.
  eapply sublist_NoDup; [apply storeOrder_NoDup|].
  unfold allWrites. rewrite concat_app, fmap_app.
  unfold groupBodies. cbn [concat]. rewrite !fmap_app, app_nil_r.
  destruct (cpuBody_fields h isFast) as (speed & Hspeed & ->).
  change storeOrder with
    (([fUptime; fOS; fKernel; fHostname]
      ++ [fCPU; fCPUSpeed; fCoresThreads; fCPUUsage]
      ++ [fRAM; fSwap])
     ++ [fWindowManager; fGo; fGPU; fShell; fIPAddress; fVirtualization;
         fResolution; fLocale; fTerminal; fDE; fDisk; fOpenPorts;
         fLanguages; fTemperature; fPackages]).
  apply sublist_app; [apply sublist_app; [|apply sublist_app]|].
  - destruct (hostBody_fields h) as [->| ->]; [done|apply sublist_nil_l].
  - destruct Hspeed as [-> | ->], isFast; cbn [negb app];
      repeat first [apply sublist_skip | apply sublist_cons | apply sublist_nil].
  - destruct (memBody_fields h) as [->| ->];
      repeat first [apply sublist_skip | apply sublist_cons | apply sublist_nil].
  - destruct isFast; fields_of_body;
      repeat first [apply sublist_skip | apply sublist_cons | apply sublist_nil].
Qed.

(** *** The record [GetSystemInfo] returns *)

Lemma GetSystemInfo_eq_wm (h : Host) (isFast : bool) :
  ok (getWindowManager h) ->
  GetSystemInfo h isFast = Ret (perform (allWrites h isFast) zeroInfo).
Proof.
  intros Hg. unfold GetSystemInfo. by rewrite goroutines_bodies_wm.
Qed.

Lemma GetSystemInfo_eq (h : Host) (isFast : bool) :
  grepSelects h ->
  GetSystemInfo h isFast = Ret (perform (allWrites h isFast) zeroInfo).
Proof.
  intros Hg. apply getWindowManager_ok in Hg. revert Hg. apply GetSystemInfo_eq_wm.
Qed.

Lemma lastWrite_app (f : field) (a b : writes) :
  lastWrite f (a ++ b)
  = match lastWrite f b with Some x => Some x | None => lastWrite f a end.
Proof.
  induction a as [|[g v] a IH]; cbn [app lastWrite].
  - by destruct (lastWrite f b).
  - rewrite IH. destruct (lastWrite f b); [done|].
    by destruct (lastWrite f a).
Qed.

(** The goroutine that owns a field, by its stores: the only one that
    can store to it. *)
Definition ownerBody (h : Host) (isFast : bool) (f : field) : writes :=
  match f with
  | fUptime | fOS | fKernel | fHostname => body (gatherHostInfo h)
  | fCPU | fCPUSpeed | fCoresThreads | fCPUUsage => body (gatherCPUInfo h isFast)
  | fRAM | fSwap => body (gatherMemoryInfo h)
  | fShell => [(fShell, value (getShell h))]
  | fGPU => [(fGPU, getGPUInfo h)]
  | fDisk => [(fDisk, getDisk h)]
  | fIPAddress => [(fIPAddress, getIPAddress h)]
  | fLocale => [(fLocale, value (getSystemLocale h))]
  | fResolution => [(fResolution, getResolution h)]
  | fWindowManager => [(fWindowManager, value (getWindowManager h))]
  | fDE => [(fDE, getDesktopEnvironment h)]
  | fTerminal => [(fTerminal, getTerminal h)]
  | fGo => [(fGo, getGoVersion h)]
  | fVirtualization => [(fVirtualization, getVirtualization h)]
  | fOpenPorts => if isFast then [] else [(fOpenPorts, getOpenPorts h)]
  | fPackages =>
      if isFast then [] else [(fPackages, value (getPackageCounts h))]
  | fLanguages =>
      if isFast then [] else [(fLanguages, getInstalledLanguages h)]
  | fTemperature =>
      if isFast then [] else [(fTemperature, getTemperatures h)]
  end.

Lemma lastWrite_host (h : Host) (f : field) :
  f ∉ [fUptime; fOS; fKernel; fHostname] ->
  lastWrite f (body (gatherHostInfo h)) = None.
Proof.
  intros Hf. apply lastWrite_None.
  destruct (hostBody_fields h) as [->| ->]; [done|apply not_elem_of_nil].
Qed.

Lemma lastWrite_cpu (h : Host) (isFast : bool) (f : field) :
  f ∉ [fCPU; fCPUSpeed; fCoresThreads; fCPUUsage] ->
  lastWrite f (body (gatherCPUInfo h isFast)) = None.
Proof.
  intros Hf. apply lastWrite_None.
  destruct (cpuBody_fields h isFast) as (speed & Hs & ->).
  intros Hin. apply Hf.
  destruct Hs as [-> | ->], isFast; cbn [negb app] in Hin;
    revert Hin; rewrite !elem_of_cons, !elem_of_nil; tauto.
Qed.

Lemma lastWrite_mem (h : Host) (f : field) :
  f ∉ [fRAM; fSwap] -> lastWrite f (body (gatherMemoryInfo h)) = None.
Proof.
  intros Hf. apply lastWrite_None. intros Hin. apply Hf.
  destruct (memBody_fields h) as [E|E]; rewrite E in Hin;
    revert Hin; rewrite !elem_of_cons, !elem_of_nil; tauto.
Qed.

Ltac not_in_fields :=
  rewrite ?not_elem_of_cons; repeat split; try discriminate;
  apply not_elem_of_nil.

(** Every field of the record holds what the goroutine that owns it
    stored last, or the zero value: the other goroutines do not bear
    on it. *)
Lemma lastWrite_owner (h : Host) (isFast : bool) (f : field) :
  lastWrite f (allWrites h isFast) = lastWrite f (ownerBody h isFast f).
Proof.
  unfold allWrites. rewrite concat_app. unfold groupBodies.
  cbn [concat]. rewrite app_nil_r, !lastWrite_app.
  destruct f;
    rewrite ?lastWrite_host by not_in_fields;
    rewrite ?lastWrite_cpu by not_in_fields;
    rewrite ?lastWrite_mem by not_in_fields;
    destruct isFast;
    cbn [ownerBody taskBodies fastBodies slowBodies negb concat app lastWrite];
    repeat match goal with
           | |- context [decide (?a = ?b)] =>
               first [rewrite (decide_True (P := a = b)) by reflexivity
                     |rewrite (decide_False (P := a = b)) by discriminate]
           end;
    try reflexivity;
    repeat match goal with
           | |- context [lastWrite ?g (body ?b)] => destruct (lastWrite g (body b))
           end; reflexivity.
Qed.

Lemma load_GetSystemInfo_wm (h : Host) (isFast : bool) (info : SystemInfo) (f : field) :
  ok (getWindowManager h) ->
  GetSystemInfo h isFast = Ret info ->
  load f info = default "" (lastWrite f (ownerBody h isFast f)).
Proof.
  intros Hg. rewrite GetSystemInfo_eq_wm by done. intros [= <-].
  rewrite load_perform, lastWrite_owner. by destruct f.
Qed.

Lemma load_GetSystemInfo (h : Host) (isFast : bool) (info : SystemInfo) (f : field) :
  grepSelects h ->
  GetSystemInfo h isFast = Ret info ->
  load f info = default "" (lastWrite f (ownerBody h isFast f)).
Proof.
  intros Hg. apply getWindowManager_ok in Hg. revert Hg. apply load_GetSystemInfo_wm.
Qed.

(** *** Every schedule of [GetSystemInfo] *)

Lemma trace_NoDup (W : writes) (s : state) :
  NoDup (W.*1) -> Inv W s -> NoDup ((trace s).*1).
Proof.
  intros Hnd [Hc _ _ _ _]. rewrite <- Hc, fmap_app in Hnd.
  by apply NoDup_app in Hnd as [? _].
Qed.

Lemma schedules_wm (h : Host) (isFast : bool) (fast slow : list (string * field)) :
  ok (getWindowManager h) ->
  fast ≡ₚ map_to_list fastTasks -> slow ≡ₚ map_to_list slowTasks ->
  exists tasks : list writes,
    bodies (goroutinesIn h isFast fast slow)
    = Ret (groupBodies h isFast ++ tasks)
    /\ concat (groupBodies h isFast ++ tasks) ≡ₚ allWrites h isFast
    /\ Forall (fun b => exists f v, b = [(f, v)]) tasks
    /\ forall s,
         rtc step (initial (program (groupBodies h isFast) tasks)) s ->
         Inv (concat (groupBodies h isFast ++ tasks)) s.
Proof.
  intros Hg Hf Hs.
  destruct (goroutinesIn_bodies_wm h isFast fast slow Hg Hf Hs)
    as (tasks & Hb & Hp).
  exists tasks. split; [done|]. split; [|split].
  - unfold allWrites. apply concat_Permutation. by rewrite Hp.
  - rewrite Hp. unfold taskBodies, fastBodies, slowBodies.
    apply Forall_app. split; [|destruct isFast; cbn [negb]];
      repeat (constructor; [by eexists _, _|]); constructor.
  - intros s Hrtc. eapply Inv_rtc; [|done]. apply Inv_initial.
Qed.

Lemma schedules (h : Host) (isFast : bool) (fast slow : list (string * field)) :
  grepSelects h ->
  fast ≡ₚ map_to_list fastTasks -> slow ≡ₚ map_to_list slowTasks ->
  exists tasks : list writes,
    bodies (goroutinesIn h isFast fast slow)
    = Ret (groupBodies h isFast ++ tasks)
    /\ concat (groupBodies h isFast ++ tasks) ≡ₚ allWrites h isFast
    /\ Forall (fun b => exists f v, b = [(f, v)]) tasks
    /\ forall s,
         rtc step (initial (program (groupBodies h isFast) tasks)) s ->
         Inv (concat (groupBodies h isFast ++ tasks)) s.
Proof.
  intros Hg. apply getWindowManager_ok in Hg. revert Hg. apply schedules_wm.
Qed.

(** In every schedule the function returns the record of
    [GetSystemInfo], and it returns in every schedule. *)
Lemma schedules_return_wm (h : Host) (isFast : bool)
    (fast slow : list (string * field)) :
  ok (getWindowManager h) ->
  fast ≡ₚ map_to_list fastTasks -> slow ≡ₚ map_to_list slowTasks ->
  exists tasks : list writes,
    bodies (goroutinesIn h isFast fast slow)
    = Ret (groupBodies h isFast ++ tasks)
    /\ forall s,
         rtc step (initial (program (groupBodies h isFast) tasks)) s ->
         (returned s -> GetSystemInfo h isFast = Ret (info s))
         /\ (~ returned s -> exists s', step s s')
         /\ (exists s', rtc step s s' /\ returned s').
Proof.
  intros Hg Hf Hs.
  destruct (schedules_wm h isFast fast slow Hg Hf Hs) as (tasks & Hb & Hp & _ & HI).
  exists tasks. split; [done|]. intros s Hrtc. specialize (HI s Hrtc).
  split; [|split].
  - intros Hr. destruct (returned_final _ _ HI Hr) as [Hl _].
    destruct HI as [Hc Hi _ _ _]. unfold returned in Hr.
    rewrite Hl, Hr in Hc. cbn [concat pending app] in Hc.
    rewrite app_nil_r in Hc.
    rewrite GetSystemInfo_eq_wm, Hi by done. f_equal.
    apply perform_Permutation; [apply allWrites_NoDup|].
    by rewrite Hc, Hp.
  - by apply progress with (W := concat (groupBodies h isFast ++ tasks)).
  - by apply can_return
      with (W := concat (groupBodies h isFast ++ tasks)) (n := measure s).
Qed.

Lemma schedules_return (h : Host) (isFast : bool)
    (fast slow : list (string * field)) :
  grepSelects h ->
  fast ≡ₚ map_to_list fastTasks -> slow ≡ₚ map_to_list slowTasks ->
  exists tasks : list writes,
    bodies (goroutinesIn h isFast fast slow)
    = Ret (groupBodies h isFast ++ tasks)
    /\ forall s,
         rtc step (initial (program (groupBodies h isFast) tasks)) s ->
         (returned s -> GetSystemInfo h isFast = Ret (info s))
         /\ (~ returned s -> exists s', step s s')
         /\ (exists s', rtc step s s' /\ returned s').
Proof.
  intros Hg. apply getWindowManager_ok in Hg. revert Hg. apply schedules_return_wm.
Qed.

(** C4, as stated, fails: on [demoHost] the goroutine [gatherHostInfo]
    stores to four fields, not to exactly one. *)
Lemma gatherHostInfo_four_fields :
  (body (gatherHostInfo demoHost)).*1 = [fUptime; fOS; fKernel; fHostname]
  /\ ~ (exists f v, body (gatherHostInfo demoHost) = [(f, v)]).
Proof.
  split; [vm_compute; reflexivity|].
  intros (f & v & E). apply (f_equal length) in E. vm_compute in E. discriminate.
Qed.

(** C4, amended: for every order of the [range] loops and every
    schedule of a pass, no field of the record is stored to twice,
    neither by one goroutine nor by two; every standalone task stores
    to exactly one field, [gatherHostInfo] to Uptime, OS, Kernel and
    Hostname (or to none), [gatherCPUInfo] to CPU, CoresThreads and
    possibly CPUSpeed and CPUUsage, [gatherMemoryInfo] to Swap and
    possibly RAM; once [wg.Wait()] has returned no goroutine is left
    and no step can change the record. *)
Theorem pass_stores_once (h : Host) (isFast : bool)
    (fast slow : list (string * field)) :
  grepSelects h ->
  fast ≡ₚ map_to_list fastTasks -> slow ≡ₚ map_to_list slowTasks ->
  exists tasks : list writes,
    bodies (goroutinesIn h isFast fast slow)
    = Ret (groupBodies h isFast ++ tasks)
    /\ NoDup ((concat (groupBodies h isFast ++ tasks)).*1)
    /\ Forall (fun b => exists f v, b = [(f, v)]) tasks
    /\ ((body (gatherHostInfo h)).*1 = [fUptime; fOS; fKernel; fHostname]
        \/ body (gatherHostInfo h) = [])
    /\ (exists speed : list field,
          (speed = [fCPUSpeed] \/ speed = [])
          /\ (body (gatherCPUInfo h isFast)).*1
             = [fCPU] ++ speed ++ [fCoresThreads]
               ++ (if negb isFast then [fCPUUsage] else []))
    /\ ((body (gatherMemoryInfo h)).*1 = [fRAM; fSwap]
        \/ (body (gatherMemoryInfo h)).*1 = [fSwap])
    /\ forall s,
         rtc step (initial (program (groupBodies h isFast) tasks)) s ->
         NoDup ((trace s).*1)
         /\ (returned s ->
             live s = [] /\ GetSystemInfo h isFast = Ret (info s)
             /\ forall s', ~ step s s').
Proof.
  intros Hg Hf Hs.
  destruct (schedules h isFast fast slow Hg Hf Hs) as (tasks & Hb & Hp & H1 & HI).
  destruct (schedules_return h isFast fast slow Hg Hf Hs) as (tasks' & Hb' & HR).
  assert (tasks' = tasks) as ->.
  { rewrite Hb in Hb'. by injection Hb' as <-. }
  assert (Hnd : NoDup ((concat (groupBodies h isFast ++ tasks)).*1)).
  { rewrite Hp. apply allWrites_NoDup. }
  exists tasks. split_and!; try done.
  - apply hostBody_fields.
  - apply cpuBody_fields.
  - apply memBody_fields.
  - intros s Hrtc. split; [by eapply trace_NoDup; [|apply HI]|].
    intros Hr. destruct (returned_final _ _ (HI s Hrtc) Hr) as [Hl Hno].
    split_and!; [done| |done]. by apply HR.
Qed.

(** C4 amended, on [demoHost] in comprehensive mode, for the orders
    of [map_to_list]. *)
Lemma pass_stores_once_witness :
  exists tasks : list writes,
    bodies (goroutines demoHost false)
    = Ret (groupBodies demoHost false ++ tasks)
    /\ NoDup ((concat (groupBodies demoHost false ++ tasks)).*1).
Proof.
  destruct (pass_stores_once demoHost false
              (map_to_list fastTasks) (map_to_list slowTasks))
    as (tasks & Hb & Hnd & _).
  - left. vm_compute. reflexivity.
  - reflexivity.
  - reflexivity.
  - exists tasks. split; assumption.
Defined.

(** *** Fast and comprehensive mode *)

Definition cpuUsage (h : Host) : string :=
  match cpu_Percent h with
  | Some (p :: _) => fmt.Sprintf_f 1 p +:+ "%"
  | _ => "N/A"
  end.

(** The stores of [gatherCPUInfo] but the one to CPUUsage do not
    depend on the mode. *)
Lemma cpuBody_mode (h : Host) :
  body (gatherCPUInfo h false)
  = body (gatherCPUInfo h true) ++ [(fCPUUsage, cpuUsage h)].
Proof.
  unfold gatherCPUInfo. cbv zeta. cbn [body negb].
  by rewrite !app_nil_r, <- !app_assoc.
Qed.

Lemma lastWrite_cpu_fast (h : Host) :
  lastWrite fCPUUsage (body (gatherCPUInfo h true)) = None.
Proof.
  apply lastWrite_None.
  destruct (cpuBody_fields h true) as (speed & [-> | ->] & ->);
    cbn [negb app]; not_in_fields.
Qed.

(** C3: in fast mode the goroutines of the slow tier are not started
    and CPUUsage, OpenPorts, Packages, Languages and Temperature keep
    the zero value; in comprehensive mode the four slow tasks are
    started as well and these fields hold what their probes return;
    every other field is the same in both modes. *)
Theorem fast_mode_skips_slow_tier (h : Host) :
  grepSelects h ->
  exists fastInfo fullInfo : SystemInfo,
    GetSystemInfo h true = Ret fastInfo
    /\ GetSystemInfo h false = Ret fullInfo
    /\ goroutines h true
       = [gatherHostInfo h; gatherCPUInfo h true; gatherMemoryInfo h]
         ++ spawnEach h fastTaskFuncs (map_to_list fastTasks)
    /\ goroutines h false
       = [gatherHostInfo h; gatherCPUInfo h false; gatherMemoryInfo h]
         ++ spawnEach h fastTaskFuncs (map_to_list fastTasks)
         ++ spawnEach h slowTaskFuncs (map_to_list slowTasks)
    /\ length (goroutines h true) = 14%nat
    /\ length (goroutines h false) = 18%nat
    /\ CPUUsage fastInfo = "" /\ OpenPorts fastInfo = ""
    /\ Packages fastInfo = "" /\ Languages fastInfo = ""
    /\ Temperature fastInfo = ""
    /\ CPUUsage fullInfo = cpuUsage h
    /\ OpenPorts fullInfo = getOpenPorts h
    /\ Packages fullInfo = value (getPackageCounts h)
    /\ Languages fullInfo = getInstalledLanguages h
    /\ Temperature fullInfo = getTemperatures h
    /\ forall f,
         f ∉ [fCPUUsage; fOpenPorts; fPackages; fLanguages; fTemperature] ->
         load f fastInfo = load f fullInfo.
Proof.
  intros Hg.
  exists (perform (allWrites h true) zeroInfo),
         (perform (allWrites h false) zeroInfo).
  pose proof (GetSystemInfo_eq h true Hg) as Ht.
  pose proof (GetSystemInfo_eq h false Hg) as Hf.
  pose proof (fun f => load_GetSystemInfo h true _ f Hg Ht) as Lt.
  pose proof (fun f => load_GetSystemInfo h false _ f Hg Hf) as Lf.
  split_and!.
  - exact Ht.
  - exact Hf.
  - unfold goroutines, goroutinesIn. cbn [negb]. by rewrite app_nil_r.
  - reflexivity.
  - unfold goroutines, goroutinesIn. cbn [negb app length].
    rewrite app_nil_r. unfold spawnEach. by rewrite length_fmap, fast_entries.
  - unfold goroutines, goroutinesIn. cbn [negb app length].
    unfold spawnEach.
    by rewrite length_app, !length_fmap, fast_entries, slow_entries.
  - change (load fCPUUsage (perform (allWrites h true) zeroInfo) = "").
    rewrite Lt. cbn [ownerBody]. by rewrite lastWrite_cpu_fast.
  - apply (Lt fOpenPorts).
  - apply (Lt fPackages).
  - apply (Lt fLanguages).
  - apply (Lt fTemperature).
  - change (load fCPUUsage (perform (allWrites h false) zeroInfo) = cpuUsage h).
    rewrite Lf. cbn [ownerBody]. rewrite cpuBody_mode, lastWrite_app.
    reflexivity.
  - apply (Lf fOpenPorts).
  - apply (Lf fPackages).
  - apply (Lf fLanguages).
  - apply (Lf fTemperature).
  - intros f Hnot. rewrite Lt, Lf.
    destruct f; try reflexivity;
      try (exfalso; apply Hnot; rewrite !elem_of_cons; tauto);
      cbn [ownerBody]; rewrite cpuBody_mode, lastWrite_app; reflexivity.
Qed.

(** C3 on [demoHost]. *)
Lemma fast_mode_skips_slow_tier_witness :
  exists fastInfo fullInfo : SystemInfo,
    GetSystemInfo demoHost true = Ret fastInfo
    /\ GetSystemInfo demoHost false = Ret fullInfo
    /\ OpenPorts fastInfo = "" /\ OpenPorts fullInfo = "Unknown"
    /\ Languages fastInfo = "" /\ Languages fullInfo = "Go".
Proof.
  destruct (fast_mode_skips_slow_tier demoHost) as (a & b & H).
  - left. vm_compute. reflexivity.
  - exists a, b. destruct H as (? & ? & _ & _ & _ & _ & _ & ? & _ & ? & _ & _ & ? & _ & ? & _).
    split_and!; assumption.
Defined.

(** *** Failures stay inside the probe *)

Ltac decide_fields :=
  repeat match goal with
         | |- context [decide (?a = ?b)] =>
             first [rewrite (decide_True (P := a = b)) by reflexivity
                   |rewrite (decide_False (P := a = b)) by discriminate]
         end.

(** A command that cannot be run, exits non-zero or prints only white
    space gives the empty string. *)
Lemma runCommand_failure (h : Host) (name : string) (arg : list string) :
  (forall out, exec_Output h name arg = Some out -> strings.TrimSpace out = "") ->
  runCommand h name arg = "".
Proof.
  intros H. unfold runCommand. destruct (exec_Output h name arg); auto.
Qed.











(** ** Memory *)





(** ** IP address *)

Lemma append_nonempty (a b : string) : a <> "" -> a +:+ b <> "".
Proof. destruct a; [done|]. cbn. discriminate. Qed.

Definition headOK (s : string) : Prop :=
  exists c r, s = String c r /\ strings.isUpper c = false.

Lemma headOK_append (a b : string) : headOK a -> headOK (a +:+ b).
Proof. intros (c & r & -> & Hc). by exists c, (r +:+ b). Qed.

Lemma Itoa_head (n : N) : headOK (strconv.Itoa (Z.of_N n)).
Proof.
  unfold strconv.Itoa.
  destruct (Z.of_N n <? 0) eqn:E; [apply Z.ltb_lt in E; lia|].
  unfold strconv.FormatUint.
  destruct (formatBits_head (N.to_nat (N.log2 (Z.to_N (Z.of_N n))))
              (Z.to_N (Z.of_N n)) EmptyString) as (d & r & Hd & ->).
  exists (strconv.digitByte d), r. split; [done|].
  apply digit_cases in Hd. cbn in Hd.
  repeat (destruct Hd as [<-|Hd]; [reflexivity|]). destruct Hd.
Qed.

Lemma hexDigit_lower (d : N) :
  (d < 16)%N -> strings.isUpper (net.hexDigit d) = false.
Proof.
  intros Hd.
  assert (In d [0; 1; 2; 3; 4; 5; 6; 7; 8; 9; 10; 11; 12; 13; 14; 15]%N) as Hin.
  { assert (d = N.of_nat (N.to_nat d)) as -> by lia.
    assert (N.to_nat d < 16)%nat as Hlt by lia.
    revert Hlt. generalize (N.to_nat d). intros k Hk.
    do 16 (destruct k as [|k]; [cbn; tauto|]). lia. }
  cbn in Hin. repeat (destruct Hin as [<-|Hin]; [reflexivity|]). destruct Hin.
Qed.

Lemma appendHex_head (n : N) : headOK (net.appendHex n).
Proof.
  unfold net.appendHex. generalize (N.to_nat (N.log2 n)). intros f.
  generalize EmptyString. revert n.
  induction f as [|f IH]; intros n acc.
  - exists (net.hexDigit (n mod 16)), acc. split.
    + cbn. by destruct (n <? 16)%N.
    + apply hexDigit_lower, N.mod_lt. lia.
  - cbn [net.hexBits]. destruct (n <? 16)%N; [|apply IH].
    eexists _, _. split; [reflexivity|]. apply hexDigit_lower, N.mod_lt. lia.
Qed.

Lemma To4_length (ip p4 : netIP) : net.To4 ip = Some p4 -> length p4 = 4%nat.
Proof.
  unfold net.To4. destruct (length ip =? 4)%nat eqn:E4.
  - intros [= <-]. by apply Nat.eqb_eq.
  - destruct (length ip =? 16)%nat eqn:E16; [|done].
    destruct (net.isV4Mapped ip); [|done]. intros [= <-].
    apply Nat.eqb_eq in E16. rewrite length_drop. lia.
Qed.

(** [IP.String] never gives the empty string, nor a text that starts
    with an upper-case letter. *)
Lemma String_head (ip : netIP) : headOK (net.String_ ip).
Proof.
  unfold net.String_.
  destruct (length ip =? 0)%nat; [by eexists _, _|].
  destruct (negb _ && negb _); [by eexists _, _|].
  destruct (net.To4 ip) as [p4|] eqn:E.
  - apply To4_length in E. destruct p4 as [|a [|b p4]]; try done.
    unfold net.string4. cbn [map strings.Join]. apply headOK_append, Itoa_head.
  - unfold net.string6. cbn [net.string6From Nat.leb Nat.ltb].
    destruct (0 =? _)%nat; [by eexists _, _|].
    apply (headOK_append (net.appendHex _) _), appendHex_head.
Qed.

Lemma headOK_not (s t : string) :
  headOK s -> t ∈ [""; "Unknown"; "None"; "N/A"; "None detected"] -> s <> t.
Proof.
  intros (c & r & -> & Hc). rewrite !elem_of_cons, elem_of_nil.
  intros [->|[->|[->|[->|[->|[]]]]]]; try discriminate;
    intros [= -> _]; discriminate.
Qed.

Definition skipped (a : netAddr) : Prop :=
  forall ip, a = IPNet ip -> net.IsLoopback ip = true \/ net.To4 ip = None.

Lemma firstIPv4_skip (pre rest : list netAddr) :
  Forall skipped pre -> firstIPv4 (pre ++ rest) = firstIPv4 rest.
Proof.
  induction 1 as [|a pre Ha _ IH]; [done|].
  cbn [app firstIPv4]. destruct a as [ip|]; [|done].
  destruct (Ha ip eq_refl) as [-> | ->]; [done|].
  by rewrite andb_false_r.
Qed.

(** C9: the IP-address probe gives the local address of the UDP
    connection when the dial succeeds; when it fails, the first
    non-loopback IPv4 address among the interface addresses; and
    "127.0.0.1" when there is none or they cannot be listed.  The
    result is never empty and never one of the texts the report leaves
    out, and it is what the IPAddress field holds in both modes. *)
Theorem getIPAddress_never_absent (h : Host) :
  (forall t, t ∈ [""; "Unknown"; "None"; "N/A"; "None detected"] ->
     getIPAddress h <> t)
  /\ (forall local, net_Dial h = Some local ->
        getIPAddress h = net.String_ local)
  /\ (net_Dial h = None ->
        (forall addrs pre ip post,
            net_InterfaceAddrs h = Some addrs ->
            addrs = pre ++ IPNet ip :: post -> Forall skipped pre ->
            net.IsLoopback ip = false -> is_Some (net.To4 ip) ->
            getIPAddress h = net.String_ ip)
        /\ (forall addrs,
              net_InterfaceAddrs h = Some addrs -> Forall skipped addrs ->
              getIPAddress h = "127.0.0.1")
        /\ (net_InterfaceAddrs h = None -> getIPAddress h = "127.0.0.1"))
  /\ (forall isFast snapshot,
        grepSelects h -> GetSystemInfo h isFast = Ret snapshot ->
        IPAddress snapshot = getIPAddress h /\ IPAddress snapshot <> "").
Proof.
  assert (Hhead : headOK (getIPAddress h)).
  { unfold getIPAddress. destruct (net_Dial h); [apply String_head|].
    destruct (net_InterfaceAddrs h) as [addrs|]; cbn; [|by eexists _, _].
    induction addrs as [|[ip|] addrs IH]; cbn [firstIPv4];
      [by eexists _, _| |done].
    destruct (_ && _); [apply String_head|done]. }
  split_and!.
  - intros t Ht. by apply headOK_not.
  - intros local E. unfold getIPAddress. by rewrite E.
  - intros E. unfold getIPAddress. rewrite E. split_and!.
    + intros addrs pre ip post -> -> Hpre Hl H4. cbn.
      rewrite firstIPv4_skip by done. cbn [firstIPv4].
      rewrite Hl, bool_decide_true by done. done.
    + intros addrs -> Hall. cbn.
      rewrite <- (app_nil_r addrs), firstIPv4_skip by done. done.
    + by intros ->.
  - intros isFast snapshot Hg HG.
    pose proof (load_GetSystemInfo h isFast snapshot fIPAddress Hg HG) as H1.
    cbn [load ownerBody lastWrite] in H1. revert H1. decide_fields.
    cbn. intros ->. split; [done|].
    apply headOK_not; [done|]. apply list_elem_of_here.
Qed.

(** C9 on [demoHost], once in each mode. *)
Lemma getIPAddress_never_absent_witness :
  getIPAddress demoHost = "10.0.0.7"
  /\ forall snapshot,
       GetSystemInfo demoHost true = Ret snapshot ->
       IPAddress snapshot = getIPAddress demoHost /\ IPAddress snapshot <> "".
Proof.
  destruct (getIPAddress_never_absent demoHost) as (_ & H2 & _ & H4).
  split.
  - apply (H2 [10; 0; 0; 7]%N). reflexivity.
  - intros snapshot HG. apply (H4 true snapshot); [|exact HG].
    left. vm_compute. reflexivity.
Defined.

(** ** Package counts *)

(** C5: the code departs from the claim on Windows.  There the first
    field of a command is "(choco", "(winget" or "(scoop", which is
    neither the manager's executable nor the "(" that the guard lets
    through; with [choco] on the search path and its count command
    printing 120, the goroutine returns before running the command and
    the probe reports "None detected" instead of "Choco (120)". *)
Theorem getPackageCounts_windows_never_counts :
  exec_LookPath chocoHost "choco" = true
  /\ runShellCommand chocoHost "(choco list -l | Measure-Object).Count" = "120"
  /\ baseOf "(choco list -l | Measure-Object).Count" = "(choco"
  /\ countPackages chocoHost "Choco" "(choco list -l | Measure-Object).Count"
     = Ret None
  /\ getPackageCounts chocoHost = Ret "None detected".
Proof. split_and!; vm_compute; reflexivity. Qed.

(** ** Environment variables *)





Lemma getenv_setenv_ne (h : Host) (v x name : string) :
  v <> name -> os_Getenv (setenv h v x) name = os_Getenv h name.
Proof.
  intros Hne. cbn. destruct (String.eqb_spec name v); [congruence|done].
Qed.


















(** ** The command line *)

Definition fastForms : list string := ["--fast"; "-fast"; "--f"; "-f"].
Definition helpForms : list string := ["--help"; "-help"; "--h"; "-h"].

(** A flag name as it can be written behind "-" or "--": not empty, no
    "-" or "=" in front, no "=" behind. *)
Definition plainName (name : string) : bool :=
  match name with
  | EmptyString => false
  | String c tl =>
      negb (Ascii.eqb c "-") && negb (Ascii.eqb c "=")
      && bool_decide (flag.cutValue tl = None)
  end.

Lemma Parse_fast (s : string) (rest : list string) (b : bool) :
  s ∈ fastForms -> flag.Parse formal (s :: rest) b = flag.Parse formal rest true.
Proof.
  unfold fastForms. rewrite !elem_of_cons, elem_of_nil.
  intros [->|[->|[->|[->|[]]]]]; reflexivity.
Qed.

Lemma Parse_fast_prefix (pre rest : list string) (b : bool) :
  Forall (fun s => s ∈ fastForms) pre ->
  flag.Parse formal (pre ++ rest) b
  = flag.Parse formal rest (if pre is [] then b else true).
Proof.
  intros Hpre. revert b. induction Hpre as [|s pre Hs _ IH]; intros b; [done|].
  cbn [app]. rewrite Parse_fast by done. rewrite IH. by destruct pre.
Qed.

Lemma classify_plain (name : string) :
  plainName name = true ->
  flag.classify ("-" +:+ name) = flag.Flag name None
  /\ flag.classify ("--" +:+ name) = flag.Flag name None.
Proof.
  destruct name as [|c tl]; [done|]. cbn [plainName].
  rewrite !andb_true_iff, !negb_true_iff, bool_decide_eq_true.
  intros [[Hd He] Hcut].
  change ("-" +:+ String c tl) with (String "-" (String c tl)).
  change ("--" +:+ String c tl) with (String "-" (String "-" (String c tl))).
  unfold flag.classify. cbv beta iota zeta.
  rewrite Hd, He, Hcut. cbn [andb orb]. rewrite Ascii.eqb_refl. cbn [andb].
  assert (String.eqb (String c tl) "" = false) as -> by done.
  rewrite Hd, He, Hcut. done.
Qed.

Lemma formal_undefined (name : string) :
  name <> "fast" -> name <> "f" -> formal !! name = None.
Proof.
  intros H1 H2. unfold formal.
  by rewrite !lookup_insert_ne, lookup_empty by done.
Qed.

(** C8: "--fast" and "-f" (and the one-dash and two-dash spellings
    the flag package takes for them) select fast mode and the fast
    theme; without arguments, or with a first argument that is no
    flag, the mode is comprehensive; a help flag behind any number of
    fast flags ends the run with status 0 before anything is collected;
    every other flag name is undefined and ends the run with status
    2. *)
Theorem main_flags :
  (forall args,
      args <> [] -> Forall (fun s => s ∈ fastForms) args ->
      main args = Collect true display.FastTheme)
  /\ main [] = Collect false display.NormalTheme
  /\ (forall s rest,
        flag.classify s = flag.NotAFlag ->
        main (s :: rest) = Collect false display.NormalTheme)
  /\ (forall pre hflag post,
        Forall (fun s => s ∈ fastForms) pre -> hflag ∈ helpForms ->
        main (pre ++ hflag :: post) = Exit 0)
  /\ (forall name,
        plainName name = true -> name ∉ ["fast"; "f"; "help"; "h"] ->
        main ["-" +:+ name] = Exit 2 /\ main ["--" +:+ name] = Exit 2).
Proof.
  split_and!.
  - intros args Hne Hall. unfold main.
    rewrite <- (app_nil_r args), Parse_fast_prefix by done.
    by destruct args.
  - reflexivity.
  - intros s rest Hs. unfold main. cbn [flag.Parse]. by rewrite Hs.
  - intros pre hflag post Hpre Hh. unfold main.
    rewrite Parse_fast_prefix by done.
    unfold helpForms in Hh. rewrite !elem_of_cons, elem_of_nil in Hh.
    destruct Hh as [->|[->|[->|[->|[]]]]]; reflexivity.
  - intros name Hp Hn.
    destruct (classify_plain name Hp) as [H1 H2].
    rewrite !not_elem_of_cons in Hn. destruct Hn as (Hf & Hf' & Hh & Hh' & _).
    unfold main. cbn [flag.Parse]. rewrite H1, H2.
    rewrite formal_undefined by done.
    apply String.eqb_neq in Hh, Hh'. rewrite Hh, Hh'. done.
Qed.

(** C8 on four command lines. *)
Lemma main_flags_witness :
  main ["-f"; "--fast"] = Collect true display.FastTheme
  /\ main ["report.txt"; "-f"] = Collect false display.NormalTheme
  /\ main ["-f"; "--help"; "-x"] = Exit 0
  /\ main ["--verbose"] = Exit 2.
Proof.
  destruct main_flags as (H1 & _ & H3 & H4 & H5). split_and!.
  - apply H1; [done|]. repeat constructor; by_compute.
  - apply H3. reflexivity.
  - apply (H4 ["-f"] "--help" ["-x"]); [repeat constructor|]; by_compute.
  - apply (H5 "verbose"); [reflexivity|by_compute].
Defined.

(** * Further properties of the code *)

(** ** Package counts on Linux and macOS *)

(** A manager of a table: its name, its executable, its command. *)
Definition manager : Type := string * string * string.

(** The managers of the Linux and macOS tables by name, with the
    executable each command starts with. *)
Definition linuxManagers : list manager :=
  [("APT", "dpkg-query", "dpkg-query -f . -W | wc -l");
   ("DNF", "dnf", "dnf list installed --quiet | wc -l");
   ("Flatpak", "flatpak", "flatpak list --app --columns=application | wc -l");
   ("Pacman", "pacman", "pacman -Qq --color never | wc -l");
   ("Snap", "snap", "snap list | tail -n +2 | wc -l")].

Definition darwinManagers : list manager :=
  [("Brew", "brew", "brew list --formula | wc -l");
   ("Cask", "brew", "brew list --cask | wc -l")].

(** What a manager contributes: its name and count, when its
    executable resolves and its command prints a positive integer. *)
Definition counted (h : Host) (m : manager) : option string :=
  let '(name, exe, command) := m in
  if exec_LookPath h exe then
    match strconv.Atoi (strings.TrimSpace (runShellCommand h command)) with
    | Some count =>
        if 0 <? count
        then Some (name +:+ " (" +:+ strconv.Itoa count +:+ ")")
        else None
    | None => None
    end
  else None.

Definition headByte (s : string) : N :=
  match s with
  | EmptyString => 0
  | String c _ => N_of_ascii c
  end.

Lemma string_le_heads (s t : string) :
  (headByte s < headByte t)%N -> sort.string_le s t.
Proof.
  destruct s as [|a s], t as [|b t]; cbn [headByte]; try lia; [done|].
  intros Hlt. unfold sort.string_le, String.leb. cbn [String.compare].
  unfold Ascii.compare. by rewrite (proj2 (N.compare_lt_iff _ _) Hlt).
Qed.

Lemma counted_head (h : Host) (m : manager) (s : string) :
  counted h m = Some s -> m.1.1 <> "" -> headByte s = headByte m.1.1.
Proof.
  destruct m as [[name exe] command]. cbn [counted fst].
  destruct (exec_LookPath h exe); [|done].
  destruct (strconv.Atoi _) as [count|]; [|done].
  destruct (0 <? count); [|done]. intros [= <-] Hne.
  by destruct name.
Qed.

Lemma omap_counted_sorted (h : Host) (ms : list manager) :
  Forall (fun m => m.1.1 <> "") ms ->
  StronglySorted (fun m m' => (headByte m.1.1 < headByte m'.1.1)%N) ms ->
  StronglySorted sort.string_le (omap (counted h) ms).
Proof.
  intros Hne Hs. induction Hs as [|m ms Hs IH Hall]; [constructor|].
  apply Forall_cons in Hne as [Hm Hne]. specialize (IH Hne).
  cbn. destruct (counted h m) as [s|] eqn:E; [|done].
  constructor; [done|].
  apply Forall_forall. intros t (m' & Hm' & Ht)%list_elem_of_omap.
  rewrite Forall_forall in Hall, Hne.
  apply string_le_heads.
  rewrite (counted_head _ _ _ E Hm), (counted_head _ _ _ Ht (Hne _ Hm')).
  by apply Hall.
Qed.

(** For a manager of the two tables the goroutine computes
    [counted]. *)
Lemma countWith_counted (h : Host) (m : manager) :
  m ∈ linuxManagers ++ darwinManagers ->
  countWith h m.1.1 m.2 (baseOf m.2) = counted h m.
Proof.
  unfold linuxManagers, darwinManagers. cbn [app].
  rewrite !elem_of_cons, elem_of_nil. intros H.
  repeat (destruct H as [->|H]); try done;
    cbn [fst snd counted]; unfold countWith;
    match goal with
    | |- context [baseOf ?c] =>
        let b := eval vm_compute in (baseOf c) in change (baseOf c) with b
    end;
    cbn [String.eqb Ascii.eqb Bool.eqb andb negb];
    rewrite andb_true_r;
    (destruct (exec_LookPath h _); cbn [negb]; [|done]);
    unfold nonEmpty;
    match goal with
    | |- context [runShellCommand h ?c] =>
        destruct (String.eqb_spec (runShellCommand h c) "") as [E|_];
        [rewrite E|]
    end;
    cbn [negb]; reflexivity.
Qed.

Definition commandOf (m : manager) : string * string := (m.1.1, m.2).

Lemma linuxManagers_table : commandOf <$> linuxManagers ≡ₚ map_to_list linuxCheckers.
Proof. rewrite linux_entries. by_compute. Qed.

Lemma darwinManagers_table : commandOf <$> darwinManagers ≡ₚ map_to_list darwinCheckers.
Proof. rewrite darwin_entries. by_compute. Qed.

Lemma omap_countWith (h : Host) (ms : list manager) :
  (forall m, m ∈ ms -> m ∈ linuxManagers ++ darwinManagers) ->
  omap (fun e => countWith h e.1 e.2 (baseOf e.2)) (commandOf <$> ms)
  = omap (counted h) ms.
Proof.
  induction ms as [|m ms IH]; intros Hms; [reflexivity|].
  cbn. change (countWith h m.1.1 m.2 (baseOf m.2)) with
    (countWith h m.1.1 m.2 (baseOf m.2)).
  rewrite (countWith_counted h m) by apply Hms, list_elem_of_here.
  cbn in IH. rewrite IH by (intros; by apply Hms, list_elem_of_further).
  reflexivity.
Qed.

(** X1: on Linux and on macOS, whatever the order in which the
    goroutines of the table finish, the result lists, by manager name,
    "Name (count)" for the managers whose executable resolves and whose
    command prints a positive integer, joined by ", "; it is
    "None detected" when there is none. *)
Theorem getPackageCounts_by_name (h : Host) (ms : list manager)
    (done : list (string * string)) :
  GOOS h = "linux" /\ ms = linuxManagers \/ GOOS h = "darwin" /\ ms = darwinManagers ->
  done ≡ₚ commandOf <$> ms ->
  let parts := omap (counted h) ms in
  packageCountsIn h done = getPackageCounts h
  /\ getPackageCounts h =
       Ret (if decide (parts = []) then "None detected"
            else strings.Join parts ", ").
Proof.
  intros Hos Hdone parts.
  assert (Hms : forall m, m ∈ ms -> m ∈ linuxManagers ++ darwinManagers).
  { intros m Hm. apply elem_of_app.
    destruct Hos as [[_ ->]|[_ ->]]; auto. }
  assert (Hsorted : StronglySorted sort.string_le parts).
  { apply omap_counted_sorted.
    - destruct Hos as [[_ ->]|[_ ->]]; repeat constructor; done.
    - destruct Hos as [[_ ->]|[_ ->]];
        repeat constructor; cbn; lia. }
  assert (Hin : forall l, l ≡ₚ commandOf <$> ms ->
    packageCountsIn h l =
    Ret (if decide (parts = []) then "None detected"
         else strings.Join parts ", ")).
  { intros l Hl. unfold packageCountsIn.
    rewrite received_known.
    2:{ apply Forall_forall. intros e He. rewrite Hl in He.
        unfold knownChecker.
        destruct Hos as [[_ ->]|[_ ->]];
          [rewrite linuxManagers_table in He
          |rewrite darwinManagers_table in He]; auto. }
    cbn [obind].
    rewrite (sort_Strings_Permutation _ parts).
    2:{ rewrite Hl. by rewrite omap_countWith. }
    rewrite (sort_Strings_sorted _ Hsorted).
    destruct parts; reflexivity. }
  assert (Hget : getPackageCounts h =
    Ret (if decide (parts = []) then "None detected"
         else strings.Join parts ", ")).
  { unfold getPackageCounts, checkers.
    destruct Hos as [[E ->]|[E ->]]; rewrite E;
      cbn [String.eqb Ascii.eqb Bool.eqb]; apply Hin.
    - by rewrite linuxManagers_table.
    - by rewrite darwinManagers_table. }
  rewrite Hget. split; [by apply Hin|done].
Qed.

(** X1 on [archHost], with the goroutines finishing in reverse
    order. *)
Lemma getPackageCounts_by_name_witness :
  packageCountsIn archHost (reverse (commandOf <$> linuxManagers))
  = getPackageCounts archHost
  /\ getPackageCounts archHost = Ret "Pacman (731)".
Proof.
  apply (getPackageCounts_by_name archHost linuxManagers
           (reverse (commandOf <$> linuxManagers))).
  - left. split; reflexivity.
  - apply reverse_Permutation.
Defined.

(** ** Package counts on Windows *)

(** X2: on Windows the guard looks up "(choco", "(winget" and "(scoop"
    on the search path.  On every machine where no file of such a name
    resolves the result is "None detected", in whatever order the
    goroutines finish, whichever managers are installed and whatever
    their commands print. *)
Theorem getPackageCounts_windows_none (h : Host) (done : list (string * string)) :
  GOOS h = "windows" ->
  exec_LookPath h "(choco" = false ->
  exec_LookPath h "(winget" = false ->
  exec_LookPath h "(scoop" = false ->
  done ≡ₚ map_to_list windowsCheckers ->
  packageCountsIn h done = Ret "None detected"
  /\ getPackageCounts h = Ret "None detected".
Proof.
  intros Hos Hc Hw Hs Hdone.
  assert (Hin : forall l, l ≡ₚ map_to_list windowsCheckers ->
    packageCountsIn h l = Ret "None detected").
  { intros l Hl. unfold packageCountsIn.
    rewrite received_known.
    2:{ apply Forall_forall. intros e He. rewrite Hl in He.
        unfold knownChecker. auto. }
    cbn [obind].
    rewrite (sort_Strings_Permutation _ []); [reflexivity|].
    rewrite Hl, windows_entries. cbn [omap list_omap fst snd].
    unfold countWith.
    repeat match goal with
    | |- context [baseOf ?c] =>
        let b := eval vm_compute in (baseOf c) in change (baseOf c) with b
    end.
    rewrite Hc, Hw, Hs. reflexivity. }
  split; [by apply Hin|].
  unfold getPackageCounts, checkers. rewrite Hos.
  cbn [String.eqb Ascii.eqb Bool.eqb]. by apply Hin.
Qed.

(** X2 on a Windows machine with [choco] installed and counting 120
    packages. *)
Lemma getPackageCounts_windows_none_witness :
  packageCountsIn chocoHost (reverse (map_to_list windowsCheckers))
  = Ret "None detected"
  /\ getPackageCounts chocoHost = Ret "None detected".
Proof.
  apply (getPackageCounts_windows_none chocoHost
           (reverse (map_to_list windowsCheckers))).
  - reflexivity.
  - reflexivity.
  - reflexivity.
  - reflexivity.
  - apply reverse_Permutation.
Defined.

(** ** Byte strings: prefixes, occurrences, lengths *)

Lemma append_cons (x : ascii) (a b : string) :
  String x a +:+ b = String x (a +:+ b).
Proof. reflexivity. Qed.

Lemma append_nil_l (b : string) : "" +:+ b = b.
Proof. reflexivity. Qed.

Ltac norm_append :=
  repeat first [rewrite append_cons in * | rewrite append_nil_l in *].

Lemma append_assoc (a b c : string) : (a +:+ b) +:+ c = a +:+ (b +:+ c).
Proof. induction a as [|x a IH]; norm_append; [done|]. by f_equal. Qed.

Lemma append_nil_r (a : string) : a +:+ "" = a.
Proof. induction a as [|x a IH]; norm_append; [done|]. by f_equal. Qed.

Lemma length_append (a b : string) :
  String.length (a +:+ b) = (String.length a + String.length b)%nat.
Proof.
  induction a as [|x a IH]; norm_append; [done|].
  cbn [String.length]. by rewrite IH.
Qed.

Lemma HasPrefix_append (p s : string) : strings.HasPrefix (p +:+ s) p = true.
Proof.
  induction p as [|a p IH]; norm_append; cbn [strings.HasPrefix]; [done|].
  by rewrite Ascii.eqb_refl, IH.
Qed.

Lemma HasPrefix_weaken (s t p : string) :
  strings.HasPrefix s p = true -> strings.HasPrefix (s +:+ t) p = true.
Proof.
  revert s. induction p as [|a p IH]; intros [|b s]; norm_append;
    cbn [strings.HasPrefix]; try done.
  intros [-> H]%andb_true_iff. by rewrite IH.
Qed.

Lemma Contains_append_r (s t sub : string) :
  strings.Contains t sub = true -> strings.Contains (s +:+ t) sub = true.
Proof.
  unfold strings.Contains. induction s as [|b s IH]; [done|].
  intros H. specialize (IH H). norm_append. cbn [strings.Index].
  destruct (strings.HasPrefix (String b (s +:+ t)) sub); [done|].
  by destruct (strings.Index (s +:+ t) sub).
Qed.

Lemma Contains_middle (a b c : string) :
  strings.Contains (a +:+ b +:+ c) b = true.
Proof.
  apply Contains_append_r. unfold strings.Contains.
  destruct (b +:+ c) eqn:E; cbn [strings.Index];
    rewrite <- E, HasPrefix_append; done.
Qed.

(** The bytes of [p] differ from [c]. *)
Fixpoint avoids (c : ascii) (p : string) : bool :=
  match p with
  | EmptyString => true
  | String a p' => negb (Ascii.eqb a c) && avoids c p'
  end.

Lemma HasPrefix_cut (c : ascii) (k v p : string) :
  avoids c p = true ->
  strings.HasPrefix (k +:+ String c v) p = true -> strings.HasPrefix k p = true.
Proof.
  revert k. induction p as [|a p IH]; intros k; [by destruct k|].
  cbn [avoids]. intros [Ha Hp]%andb_true_iff.
  apply negb_true_iff in Ha.
  destruct k as [|b k]; norm_append; cbn [strings.HasPrefix].
  - by rewrite Ha.
  - intros [-> H]%andb_true_iff. by rewrite (IH k Hp H).
Qed.

(** A string that has no byte [c] occurs in [k], [c], [v] only where
    it occurs in [k] or in [v]. *)
Lemma Contains_cut (c : ascii) (k v p : string) :
  p <> "" -> avoids c p = true ->
  strings.Contains k p = false -> strings.Contains v p = false ->
  strings.Contains (k +:+ String c v) p = false.
Proof.
  intros Hne Hp Hk Hv. unfold strings.Contains in *.
  induction k as [|b k IH]; norm_append.
  - cbn [strings.Index].
    destruct p as [|a p]; [done|]. cbn [strings.HasPrefix].
    cbn [avoids] in Hp. apply andb_true_iff in Hp as [Ha _].
    apply negb_true_iff in Ha. rewrite Ha. cbn [andb].
    by destruct (strings.Index v (String a p)).
  - cbn [strings.Index] in *.
    destruct (strings.HasPrefix (String b k) p) eqn:E; [done|].
    destruct (strings.HasPrefix (String b (k +:+ String c v)) p) eqn:E'.
    { rewrite <- append_cons in E'.
      by rewrite (HasPrefix_cut _ _ _ _ Hp E') in E. }
    destruct (strings.Index k p) eqn:Ek; [done|].
    by destruct (strings.Index (k +:+ String c v) p); [specialize (IH eq_refl)|].
Qed.

(** The first occurrence of a byte [c] in [k], [c], [v] is not behind
    [k]; it is at the end of [k] when [k] has no [c]. *)
Lemma Index_byte_le (c : ascii) (k v : string) :
  exists i, strings.Index (k +:+ String c v) (String c "") = Some i
            /\ (i <= String.length k)%nat.
Proof.
  induction k as [|b k (i & Hi & Hle)]; norm_append; cbn [strings.Index].
  - exists 0%nat. cbn [strings.HasPrefix]. by rewrite Ascii.eqb_refl.
  - cbn [strings.HasPrefix String.length]. destruct (Ascii.eqb c b); cbn [andb].
    + exists 0%nat. split; [done|lia].
    + exists (S i). rewrite Hi. split; [done|lia].
Qed.

Lemma Index_byte (c : ascii) (k v : string) :
  strings.Contains k (String c "") = false ->
  strings.Index (k +:+ String c v) (String c "") = Some (String.length k).
Proof.
  unfold strings.Contains. induction k as [|b k IH]; norm_append;
    cbn [strings.Index].
  - intros _. cbn [strings.HasPrefix]. by rewrite Ascii.eqb_refl.
  - cbn [strings.HasPrefix String.length]. destruct (Ascii.eqb c b); cbn [andb].
    + done.
    + destruct (strings.Index k (String c "")); [done|].
      intros _. by rewrite IH.
Qed.

Lemma length_takeBytes (i : nat) (s : string) :
  (i <= String.length s)%nat -> String.length (strings.takeBytes i s) = i.
Proof.
  revert s. induction i as [|i IH]; intros [|b s]; cbn; try done; try lia.
  intros H. rewrite IH; lia.
Qed.

Lemma takeBytes_append (k s : string) :
  strings.takeBytes (String.length k) (k +:+ s) = k.
Proof.
  induction k as [|b k IH]; norm_append; cbn [String.length strings.takeBytes];
    [done|]. by rewrite IH.
Qed.

Lemma dropBytes_append (k s : string) :
  strings.dropBytes (String.length k) (k +:+ s) = s.
Proof.
  induction k as [|b k IH]; norm_append; cbn [String.length strings.dropBytes];
    done.
Qed.

(** ** The report *)

(** The items of a group that get a line. *)
Definition visible (items : list display.infoEntry) : list display.infoEntry :=
  filter (fun e => display.shown e.2 = true) items.

(** [maxKeyLen] after the keys of the given items. *)
Definition widen (maxKeyLen : Z) (items : list display.infoEntry) : Z :=
  fold_left (fun m e => if m <? display.len e.1 then display.len e.1 else m)
    items maxKeyLen.

(** The lines of the first pass for one group. *)
Definition firstPass (theme : display.Theme) (g : string * list display.infoEntry)
  : list string :=
  match visible g.2 with
  | [] => []
  | vis => display.header theme g.1 :: ((fun e => e.1 +:+ ":" +:+ e.2) <$> vis)
  end.

Lemma widen_le (m : Z) (items : list display.infoEntry) : m <= widen m items.
Proof.
  revert m. induction items as [|e items IH]; intros m; cbn; [lia|].
  etrans; [|apply IH]. destruct (m <? display.len e.1) eqn:E; lia.
Qed.

Lemma widen_key (m : Z) (items : list display.infoEntry) (e : display.infoEntry) :
  e ∈ items -> display.len e.1 <= widen m items.
Proof.
  revert m. induction items as [|e' items IH]; intros m He; [by apply elem_of_nil in He|].
  apply elem_of_cons in He as [<-|He]; cbn.
  - etrans; [|apply widen_le]. destruct (m <? display.len e.1) eqn:E; lia.
  - by apply IH.
Qed.

Lemma widen_app (m : Z) (a b : list display.infoEntry) :
  widen m (a ++ b) = widen (widen m a) b.
Proof. apply fold_left_app. Qed.

Lemma itemsLoop_eq (theme : display.Theme) (category : string)
    (items : list display.infoEntry) (groupLines : list string)
    (groupHasContent : bool) (maxKeyLen : Z) :
  display.itemsLoop theme category items groupLines groupHasContent maxKeyLen
  = (groupLines
     ++ (if groupHasContent then []
         else match visible items with
              | [] => []
              | _ => [display.header theme category]
              end)
     ++ ((fun e => e.1 +:+ ":" +:+ e.2) <$> visible items),
     widen maxKeyLen (visible items)).
Proof.
  revert groupLines groupHasContent maxKeyLen.
  induction items as [|[key value] items IH]; intros gl ghc m.
  - cbn. destruct ghc; cbn; by rewrite ?app_nil_r.
  - cbn [display.itemsLoop]. unfold visible. rewrite filter_cons. cbn [snd].
    destruct (display.shown value) eqn:E.
    + rewrite decide_True by done. rewrite IH. fold (visible items).
      cbn [fmap list_fmap widen fold_left fst snd].
      destruct ghc; cbn [negb]; rewrite <- ?app_assoc; reflexivity.
    + rewrite decide_False by done. apply IH.
Qed.

Lemma groupsLoop_eq (theme : display.Theme)
    (gs : list (string * list display.infoEntry))
    (formattedLines : list string) (maxKeyLen : Z) :
  display.groupsLoop theme gs formattedLines maxKeyLen
  = (formattedLines ++ concat (firstPass theme <$> gs),
     widen maxKeyLen (concat ((fun g => visible g.2) <$> gs))).
Proof.
  revert formattedLines maxKeyLen.
  induction gs as [|[category items] gs IH]; intros fl m.
  - cbn. by rewrite app_nil_r.
  - cbn [display.groupsLoop]. rewrite itemsLoop_eq, IH.
    cbn [fmap list_fmap concat fst snd]. rewrite widen_app, <- app_assoc.
    unfold firstPass. cbn [fst snd app].
    by destruct (visible items).
Qed.

(** The box-drawing text that marks a header line. *)
Definition rule : string := "───".

(** [maxInfoWidth] after one more line. *)
Definition widthStep (maxInfoWidth : Z) (line : string) : Z :=
  let width := display.len (display.stripAnsi line) in
  if maxInfoWidth <? width then width else maxInfoWidth.

(** The line of an item in the second pass. *)
Definition renderItem (theme : display.Theme) (maxKeyLen : Z)
    (e : display.infoEntry) : string :=
  display.Key theme +:+ e.1
  +:+ strings.repeat (Z.to_nat (maxKeyLen - display.len e.1)) " "
  +:+ ": " +:+ display.Value theme +:+ e.2 +:+ display.Reset theme.

(** The lines of a group in the report. *)
Definition renderGroup (theme : display.Theme) (maxKeyLen : Z)
    (g : string * list display.infoEntry) : list string :=
  match visible g.2 with
  | [] => []
  | vis => display.header theme g.1 :: (renderItem theme maxKeyLen <$> vis)
  end.

Lemma header_rule (theme : display.Theme) (category : string) :
  strings.Contains (display.header theme category) rule = true.
Proof.
  unfold display.header.
  change ("─── " +:+ category +:+ " ───" +:+ display.Reset theme)
    with (rule +:+ (" " +:+ category +:+ " ───" +:+ display.Reset theme)).
  apply Contains_middle.
Qed.

Lemma SplitN_colon (line : string) (i : nat) :
  strings.Index line ":" = Some i ->
  strings.SplitN line ":" 2
  = [strings.takeBytes i line; strings.dropBytes (i + 1) line].
Proof.
  intros Hi. unfold strings.SplitN.
  change (2 =? 0) with false. change (2 <? 0) with false. cbv iota.
  change (Nat.pred (Z.to_nat 2)) with 1%nat.
  destruct line as [|b line]; [done|].
  cbn [String.length Nat.min strings.genSplit]. by rewrite Hi.
Qed.

Lemma linesLoop_header (theme : display.Theme) (W : Z) (line : string)
    (rest final : list string) (w : Z) :
  strings.Contains line rule = true ->
  display.linesLoop theme W (line :: rest) final w
  = display.linesLoop theme W rest (final ++ [line]) (widthStep w line).
Proof.
  intros H. cbn [display.linesLoop]. fold rule. by rewrite H.
Qed.

Lemma linesLoop_item (theme : display.Theme) (W : Z) (k v : string)
    (rest final : list string) (w : Z) :
  strings.Contains k rule = false -> strings.Contains v rule = false ->
  strings.Contains k ":" = false -> display.len k <= W ->
  display.linesLoop theme W ((k +:+ ":" +:+ v) :: rest) final w
  = display.linesLoop theme W rest (final ++ [renderItem theme W (k, v)])
      (widthStep w (renderItem theme W (k, v))).
Proof.
  intros Hk Hv Hc Hlen. cbn [display.linesLoop]. fold rule.
  change (k +:+ ":" +:+ v) with (k +:+ String ":" v).
  rewrite (Contains_cut ":" k v rule) by done.
  pose proof (Index_byte ":" k v Hc) as Hi.
  unfold strings.Contains at 1. rewrite Hi.
  rewrite (SplitN_colon _ _ Hi).
  cbn [index lookup list_lookup obind].
  rewrite takeBytes_append.
  replace (String.length k + 1)%nat with (String.length (k +:+ ":"))
    by (rewrite length_append; reflexivity).
  change (k +:+ String ":" v) with (k +:+ ":" +:+ v).
  rewrite <- (append_assoc k ":" v), dropBytes_append.
  unfold strings.Repeat.
  destruct (W - display.len k <? 0) eqn:E; [apply Z.ltb_lt in E; lia|].
  reflexivity.
Qed.

(** A line of the first pass: a header, or a key, a colon and a value,
    the key no longer than [maxKeyLen]. *)
Definition lineOK (W : Z) (line : string) : Prop :=
  strings.Contains line rule = true
  \/ exists k v, line = k +:+ ":" +:+ v /\ display.len k <= W.

Lemma linesLoop_ok (theme : display.Theme) (W : Z) (lines final : list string)
    (w : Z) :
  Forall (lineOK W) lines -> ok (display.linesLoop theme W lines final w).
Proof.
  intros H. revert final w.
  induction H as [|line lines Hline _ IH]; intros final w.
  - by eexists.
  - cbn [display.linesLoop]. fold rule.
    destruct (strings.Contains line rule) eqn:E; [apply IH|].
    destruct (strings.Contains line ":") eqn:Ec; [|apply IH].
    destruct Hline as [Hr|(k & v & -> & Hlen)]; [congruence|].
    destruct (Index_byte_le ":" k v) as (i & Hi & Hle).
    change (k +:+ ":" +:+ v) with (k +:+ String ":" v).
    rewrite (SplitN_colon _ _ Hi).
    cbn [index lookup list_lookup obind].
    unfold strings.Repeat, display.len.
    rewrite length_takeBytes by (rewrite length_append; lia).
    destruct (W - Z.of_nat i <? 0) eqn:E'.
    { apply Z.ltb_lt in E'. unfold display.len in Hlen. lia. }
    cbn [obind]. apply IH.
Qed.

Lemma firstPass_ok (theme : display.Theme) (W : Z)
    (gs : list (string * list display.infoEntry)) :
  (forall g e, g ∈ gs -> e ∈ visible g.2 -> display.len e.1 <= W) ->
  Forall (lineOK W) (concat (firstPass theme <$> gs)).
Proof.
  intros HW. apply Forall_concat, Forall_fmap, Forall_forall.
  intros g Hg. cbn. unfold firstPass.
  pose proof (HW g) as Hg'. destruct (visible g.2) as [|e vis]; [constructor|].
  constructor; [left; apply header_rule|].
  apply Forall_fmap, Forall_forall. intros e' He'. right.
  exists e'.1, e'.2. split; [done|]. by apply Hg'.
Qed.

Lemma formatLines_ok (info : SystemInfo) (theme : display.Theme) :
  ok (display.formatLines info theme).
Proof.
  unfold display.formatLines. rewrite groupsLoop_eq.
  apply linesLoop_ok. cbn [app]. apply firstPass_ok.
  intros g e Hg He. apply widen_key.
  apply list_elem_of_In, in_concat. exists (visible g.2).
  split; [|by apply list_elem_of_In].
  apply list_elem_of_In, list_elem_of_fmap. by exists g.
Qed.

(** [maxInfoWidth] after the given lines. *)
Definition widths (maxInfoWidth : Z) (lines : list string) : Z :=
  fold_left widthStep lines maxInfoWidth.

(** An item whose line the second pass takes apart as it was put
    together. *)
Definition itemOK (W : Z) (e : display.infoEntry) : Prop :=
  strings.Contains e.1 rule = false /\ strings.Contains e.1 ":" = false
  /\ strings.Contains e.2 rule = false /\ display.len e.1 <= W.

Lemma linesLoop_items (theme : display.Theme) (W : Z)
    (vis : list display.infoEntry) (rest final : list string) (w : Z) :
  Forall (itemOK W) vis ->
  display.linesLoop theme W (((fun e => e.1 +:+ ":" +:+ e.2) <$> vis) ++ rest)
    final w
  = display.linesLoop theme W rest (final ++ (renderItem theme W <$> vis))
      (widths w (renderItem theme W <$> vis)).
Proof.
  intros H. revert final w.
  induction H as [|[k v] vis (Hk & Hc & Hv & Hlen) _ IH]; intros final w.
  - cbn. by rewrite app_nil_r.
  - cbn [fmap list_fmap app fst snd] in *.
    rewrite linesLoop_item by done. rewrite IH, <- app_assoc. reflexivity.
Qed.

Lemma linesLoop_groups (theme : display.Theme) (W : Z)
    (gs : list (string * list display.infoEntry)) (final : list string) (w : Z) :
  Forall (fun g => Forall (itemOK W) (visible g.2)) gs ->
  display.linesLoop theme W (concat (firstPass theme <$> gs)) final w
  = Ret (final ++ concat (renderGroup theme W <$> gs),
         widths w (concat (renderGroup theme W <$> gs))).
Proof.
  intros H. revert final w.
  induction H as [|g gs Hg _ IH]; intros final w.
  - cbn. by rewrite app_nil_r.
  - cbn [fmap list_fmap concat]. unfold firstPass at 1, renderGroup at 1 3.
    destruct (visible g.2) as [|e vis] eqn:E; [apply IH|].
    rewrite <- app_comm_cons, linesLoop_header by apply header_rule.
    rewrite linesLoop_items by done. rewrite IH.
    unfold widths. rewrite <- !app_assoc, fold_left_app. reflexivity.
Qed.

Ltac by_field H :=
  first [exact (H fOS) | exact (H fKernel) | exact (H fUptime)
        | exact (H fShell) | exact (H fCPU) | exact (H fCoresThreads)
        | exact (H fCPUSpeed) | exact (H fCPUUsage) | exact (H fGPU)
        | exact (H fRAM) | exact (H fDisk) | exact (H fSwap)
        | exact (H fHostname) | exact (H fIPAddress) | exact (H fOpenPorts)
        | exact (H fLocale) | exact (H fResolution)
        | exact (H fWindowManager) | exact (H fDE) | exact (H fTerminal)
        | exact (H fPackages) | exact (H fLanguages) | exact (H fGo)
        | exact (H fVirtualization) | exact (H fTemperature)].

(** The keys of the table have neither a colon nor the rule, and the
    values are the fields of the record. *)
Lemma groups_items (P : string -> Prop) (info : SystemInfo) :
  (forall f, P (load f info)) ->
  Forall (fun g => Forall (fun e : display.infoEntry =>
                     strings.Contains e.1 rule = false
                     /\ strings.Contains e.1 ":" = false /\ P e.2) g.2)
    (display.groups info).
Proof.
  intros H. unfold display.groups.
  repeat match goal with
         | |- Forall _ [] => apply Forall_nil
         | |- Forall _ (_ :: _) => apply Forall_cons; split
         | |- _ /\ _ => split
         | |- _ => progress cbn beta iota delta [fst snd]
         end;
    first [by_compute | by_field H].
Qed.

(** All items that get a line, group after group. *)
Definition shownItems (info : SystemInfo) : list display.infoEntry :=
  concat ((fun g => visible g.2) <$> display.groups info).

Lemma shown_spec (value : string) :
  display.shown value = true <->
  value ∉ [""; "Unknown"; "None"; "N/A"; "0GB/0GB (0.0%)";
           "0GB / 0GB (0.0%)"; "None detected"].
Proof.
  rewrite !not_elem_of_cons. unfold display.shown, nonEmpty.
  rewrite !andb_true_iff, !negb_true_iff, !String.eqb_neq.
  split; [intros H|intros H]; split_and!; try tauto. apply not_elem_of_nil.
Qed.

Lemma elem_of_shownItems (info : SystemInfo) (e : display.infoEntry) :
  e ∈ shownItems info <->
  exists g, g ∈ display.groups info /\ e ∈ g.2 /\ display.shown e.2 = true.
Proof.
  unfold shownItems. rewrite list_elem_of_In, in_concat. split.
  - intros (l & Hl & He). apply list_elem_of_In, list_elem_of_fmap in Hl.
    destruct Hl as (g & -> & Hg). exists g. split; [done|].
    apply list_elem_of_In in He. unfold visible in He.
    by apply list_elem_of_filter in He as [? ?].
  - intros (g & Hg & He & Hs). exists (visible g.2). split.
    + apply list_elem_of_In, list_elem_of_fmap. by exists g.
    + apply list_elem_of_In. unfold visible. by apply list_elem_of_filter.
Qed.


Lemma formatLines_render (info : SystemInfo) (theme : display.Theme) :
  (forall f, strings.Contains (load f info) rule = false) ->
  let W := widen 0 (shownItems info) in
  let lines := concat (renderGroup theme W <$> display.groups info) in
  display.formatLines info theme = Ret (lines, widths 0 lines).
Proof.
  intros H W lines. unfold display.formatLines. rewrite groupsLoop_eq.
  cbn [app]. fold (shownItems info). fold W.
  rewrite linesLoop_groups; [reflexivity|].
  pose proof (groups_items (fun v => strings.Contains v rule = false) info H)
    as Hitems.
  apply Forall_forall. intros g Hg. apply Forall_forall. intros e He.
  rewrite Forall_forall in Hitems. specialize (Hitems g Hg).
  rewrite Forall_forall in Hitems.
  assert (He' : e ∈ g.2).
  { unfold visible in He. by apply list_elem_of_filter in He as [_ ?]. }
  destruct (Hitems e He') as (H1 & H2 & H3).
  split_and!; try done.
  apply widen_key. unfold shownItems.
  apply list_elem_of_In, in_concat. exists (visible g.2).
  split; [|by apply list_elem_of_In].
  apply list_elem_of_In, list_elem_of_fmap. by exists g.
Qed.

Lemma length_repeat (n : nat) :
  String.length (strings.repeat n " ") = n.
Proof.
  induction n as [|n IH]; [done|].
  cbn [strings.repeat]. rewrite append_cons, append_nil_l.
  cbn [String.length]. by rewrite IH.
Qed.

Lemma DisplaySystemInfo_ok (info : SystemInfo) (theme : display.Theme) :
  ok (display.DisplaySystemInfo info theme).
Proof.
  unfold display.DisplaySystemInfo.
  destruct (formatLines_ok info theme) as ([lines w] & ->). cbn [obind].
  destruct (0 <? w); [|by eexists].
  unfold strings.Repeat, display.Max.
  destruct (0 <? _) eqn:E.
  - apply Z.ltb_lt in E.
    destruct (_ <? 0) eqn:E'; [apply Z.ltb_lt in E'; lia|]. by eexists.
  - by eexists.
Qed.

(** X4: when no value contains the rule of the header lines, the
    lines of the report are, group after group, a header for every
    group that has an item to show, followed by its shown items; an
    item whose value is empty, "Unknown", "None", "N/A",
    "None detected" or a zero usage is left out; every key is padded
    with spaces to the length of the longest shown key. *)
Theorem report_lines (info : SystemInfo) (theme : display.Theme) :
  (forall f, strings.Contains (load f info) "───" = false) ->
  let W := widen 0 (shownItems info) in
  let lines := concat (renderGroup theme W <$> display.groups info) in
  display.formatLines info theme = Ret (lines, widths 0 lines)
  /\ (forall e, e ∈ shownItems info ->
        display.len
          (e.1 +:+ strings.repeat (Z.to_nat (W - display.len e.1)) " ") = W)
  /\ (forall e, e ∈ shownItems info <->
        (exists g, g ∈ display.groups info /\ e ∈ g.2)
        /\ e.2 ∉ [""; "Unknown"; "None"; "N/A"; "0GB/0GB (0.0%)";
                  "0GB / 0GB (0.0%)"; "None detected"]).
Proof.
  intros H W lines. split_and!.
  - by apply formatLines_render.
  - intros e He. unfold display.len. rewrite length_append, length_repeat.
    pose proof (widen_key 0 _ _ He) as Hle. fold W in Hle.
    unfold display.len in *. lia.
  - intros e. rewrite elem_of_shownItems. split.
    + intros (g & Hg & He & Hs). split; [by exists g|by apply shown_spec].
    + intros [(g & Hg & He) Hs]. exists g. split_and!; try done.
      by apply shown_spec.
Qed.

(** ** Colour codes *)

Definition escByte : ascii := ascii_of_N 27.

(** A colour code: the escape byte, "[", parameters, "m". *)
Definition sgr (params : string) : string :=
  display.ESC +:+ "[" +:+ params +:+ "m".

(** Every byte of [s] is a digit or a semicolon. *)
Fixpoint allParams (s : string) : bool :=
  match s with
  | EmptyString => true
  | String c r => display.isParam c && allParams r
  end.

Lemma span_params (params rest : string) :
  allParams params = true ->
  regexp.span display.isParam (params +:+ String "m" rest)
  = (params, String "m" rest).
Proof.
  induction params as [|c params IH]; norm_append; cbn [allParams regexp.span].
  - done.
  - intros [-> H]%andb_true_iff. by rewrite IH.
Qed.

Lemma sgr_append (params s : string) :
  sgr params +:+ s = String escByte (String "[" (params +:+ String "m" s)).
Proof.
  unfold sgr, display.ESC. norm_append. fold escByte.
  by rewrite append_assoc.
Qed.

Lemma ansiAt_sgr (params s : string) :
  allParams params = true -> display.ansiAt (sgr params +:+ s) = Some s.
Proof.
  intros H. rewrite sgr_append. unfold display.ansiAt, display.ESC.
  norm_append. cbn [strings.HasPrefix strings.dropBytes].
  fold escByte. rewrite !Ascii.eqb_refl. cbn [andb].
  by rewrite span_params.
Qed.

Lemma ansiAt_plain (c : ascii) (s : string) :
  c <> escByte -> display.ansiAt (String c s) = None.
Proof.
  intros Hc. unfold display.ansiAt, display.ESC. norm_append.
  cbn [strings.HasPrefix]. fold escByte.
  assert (Ascii.eqb escByte c = false) as ->; [|done].
  apply Ascii.eqb_neq. congruence.
Qed.

Lemma span_length (p : ascii -> bool) (s : string) :
  (String.length (regexp.span p s).2 <= String.length s)%nat.
Proof.
  induction s as [|c s IH]; cbn [regexp.span]; [done|].
  destruct (p c); [|done]. destruct (regexp.span p s) as [a b].
  cbn [snd String.length] in *. lia.
Qed.

Lemma length_dropBytes (n : nat) (s : string) :
  String.length (strings.dropBytes n s) = (String.length s - n)%nat.
Proof.
  revert s. induction n as [|n IH]; intros [|c s];
    cbn [strings.dropBytes String.length]; try done; try lia; apply IH.
Qed.

Lemma ansiAt_shorter (s rest : string) :
  display.ansiAt s = Some rest -> (String.length rest < String.length s)%nat.
Proof.
  unfold display.ansiAt.
  destruct (strings.HasPrefix s _) eqn:E; [|done].
  pose proof (span_length display.isParam (strings.dropBytes 2 s)) as Hs.
  rewrite length_dropBytes in Hs.
  destruct (regexp.span _ _).2 as [|c r] eqn:Er; [done|].
  destruct (Ascii.ascii_dec c "m") as [->|Hc].
  - intros [= <-]. cbn [String.length] in Hs.
    destruct s as [|a [|b s]]; cbn [String.length] in *; try done; lia.
  - intros H. exfalso. revert H.
    destruct c as [[] [] [] [] [] [] [] []]; done.
Qed.

(** More rounds than bytes change nothing. *)
Lemma dropAnsi_fuel (f1 f2 : nat) (s : string) :
  (String.length s <= f1)%nat -> (String.length s <= f2)%nat ->
  display.dropAnsi f1 s = display.dropAnsi f2 s.
Proof.
  revert f2 s. induction f1 as [|f1 IH]; intros f2 s H1 H2.
  - destruct s; [|cbn in H1; lia]. by destruct f2.
  - destruct f2 as [|f2].
    { destruct s; [done|cbn in H2; lia]. }
    cbn [display.dropAnsi].
    destruct (display.ansiAt s) as [rest|] eqn:E.
    + apply ansiAt_shorter in E. apply IH; lia.
    + destruct s as [|c s]; [done|]. cbn [String.length] in *.
      f_equal. apply IH; lia.
Qed.

Lemma stripAnsi_sgr (params s : string) :
  allParams params = true ->
  display.stripAnsi (sgr params +:+ s) = display.stripAnsi s.
Proof.
  intros H. unfold display.stripAnsi.
  destruct (String.length (sgr params +:+ s)) as [|f] eqn:E.
  { by rewrite sgr_append in E. }
  cbn [display.dropAnsi]. rewrite (ansiAt_sgr _ _ H).
  apply dropAnsi_fuel; [|done].
  rewrite sgr_append in E. cbn [String.length] in E.
  rewrite length_append in E. cbn [String.length] in E. lia.
Qed.

Lemma stripAnsi_plain (t s : string) :
  avoids escByte t = true ->
  display.stripAnsi (t +:+ s) = t +:+ display.stripAnsi s.
Proof.
  induction t as [|c t IH]; norm_append; [done|].
  cbn [avoids]. intros [Hc Ht]%andb_true_iff.
  apply negb_true_iff, Ascii.eqb_neq in Hc.
  unfold display.stripAnsi at 1. cbn [String.length display.dropAnsi].
  rewrite (ansiAt_plain _ _ Hc). f_equal. by apply IH.
Qed.

Lemma stripAnsi_nil : display.stripAnsi "" = "".
Proof. reflexivity. Qed.

(** X5: [stripAnsi] takes the colour codes of both themes, and
    nothing else, out of the header and item lines whose texts have no
    escape byte; what is measured is the number of bytes that remain,
    twenty of them for the two rules of a header. *)
Theorem stripAnsi_theme (theme : display.Theme) (category key value : string)
    (n : nat) :
  theme = display.NormalTheme \/ theme = display.FastTheme ->
  avoids escByte category = true -> avoids escByte key = true ->
  avoids escByte value = true ->
  let padded := key +:+ strings.repeat n " " in
  display.stripAnsi (display.header theme category)
  = "─── " +:+ category +:+ " ───"
  /\ display.len (display.stripAnsi (display.header theme category))
     = display.len category + 20
  /\ display.stripAnsi
       (display.Key theme +:+ padded +:+ ": " +:+ display.Value theme
        +:+ value +:+ display.Reset theme)
     = padded +:+ ": " +:+ value.
Proof.
  intros Htheme Hc Hk Hv padded.
  assert (Hpad : avoids escByte padded = true).
  { unfold padded. clear -Hk. induction key as [|c key IH]; norm_append.
    - induction n as [|n IH]; [done|]. cbn [strings.repeat]. by norm_append.
    - cbn [avoids] in *. apply andb_true_iff in Hk as [-> Hk]. by apply IH. }
  assert (Hhead : display.stripAnsi (display.header theme category)
                  = "─── " +:+ category +:+ " ───").
  { unfold display.header.
    assert (exists p, allParams p = true /\ display.Category theme = sgr p
                      /\ display.Reset theme = sgr "0") as (p & Hp & -> & ->).
    { destruct Htheme as [-> | ->]; [exists "34"|exists "36"]; done. }
    rewrite stripAnsi_sgr by done.
    rewrite (stripAnsi_plain "─── ") by done.
    rewrite stripAnsi_plain by done.
    rewrite (stripAnsi_plain " ───") by done.
    rewrite <- (append_nil_r (sgr "0")), stripAnsi_sgr by done.
    by rewrite stripAnsi_nil, append_nil_r. }
  split_and!.
  - exact Hhead.
  - rewrite Hhead. unfold display.len. rewrite !length_append.
    cbn [String.length]. lia.
  - assert (display.Key theme = sgr "38;5;255"
            /\ display.Value theme = sgr "38;5;249"
            /\ display.Reset theme = sgr "0") as (-> & -> & ->).
    { by destruct Htheme as [-> | ->]. }
    rewrite stripAnsi_sgr by done.
    rewrite stripAnsi_plain by done.
    rewrite (stripAnsi_plain ": ") by done.
    rewrite stripAnsi_sgr by done.
    rewrite stripAnsi_plain by done.
    rewrite <- (append_nil_r (sgr "0")), stripAnsi_sgr by done.
    by rewrite stripAnsi_nil, append_nil_r.
Qed.

(** ** The title *)

Lemma avoids_append (c : ascii) (a b : string) :
  avoids c (a +:+ b) = avoids c a && avoids c b.
Proof.
  induction a as [|x a IH]; norm_append; cbn [avoids]; [done|].
  by rewrite IH, andb_assoc.
Qed.

Lemma span_split (p : ascii -> bool) (s : string) :
  s = (regexp.span p s).1 +:+ (regexp.span p s).2
  /\ forall c, p c = false -> avoids c (regexp.span p s).1 = true.
Proof.
  induction s as [|x s [IH1 IH2]]; cbn [regexp.span]; [done|].
  destruct (p x) eqn:E; [|done].
  destruct (regexp.span p s) as [a b]. cbn [fst snd] in *. norm_append.
  split; [by f_equal|]. intros c Hc. cbn [avoids]. rewrite IH2 by done.
  destruct (Ascii.eqb_spec x c) as [->|]; [congruence|done].
Qed.

(** A byte that is no part of a colour code. *)
Definition kept (c : ascii) : Prop :=
  c <> escByte /\ c <> "["%char /\ c <> "m"%char /\ display.isParam c = false.

Lemma ansiAt_avoids (c : ascii) (s rest : string) :
  kept c -> display.ansiAt s = Some rest -> avoids c s = avoids c rest.
Proof.
  intros (H1 & H2 & H3 & H4). unfold display.ansiAt, display.ESC.
  norm_append.
  destruct s as [|a [|b s]]; cbn [strings.HasPrefix strings.dropBytes];
    rewrite ?andb_false_r; try done.
  fold escByte.
  destruct (Ascii.eqb_spec escByte a) as [<-|]; [|done].
  destruct (Ascii.eqb_spec "[" b) as [<-|]; [|done]. cbn [andb].
  destruct (span_split display.isParam s) as [Hs Ha].
  destruct (regexp.span display.isParam s) as [params tl]. cbn [fst snd] in *.
  destruct tl as [|x tl]; [done|].
  destruct (Ascii.eqb_spec x "m") as [->|Hx].
  - intros [= <-]. rewrite Hs. cbn [avoids]. rewrite avoids_append.
    cbn [avoids]. rewrite (Ha c H4).
    rewrite !(proj2 (Ascii.eqb_neq _ _)) by congruence. done.
  - intros H. exfalso. revert H.
    destruct x as [[] [] [] [] [] [] [] []]; done.
Qed.

Lemma dropAnsi_avoids (c : ascii) (fuel : nat) (s : string) :
  kept c -> avoids c (display.dropAnsi fuel s) = avoids c s.
Proof.
  intros Hc. revert s. induction fuel as [|f IH]; intros s; [done|].
  cbn [display.dropAnsi].
  destruct (display.ansiAt s) as [rest|] eqn:E.
  - by rewrite IH, (ansiAt_avoids c s rest).
  - destruct s as [|x s]; [done|]. cbn [avoids]. by rewrite IH.
Qed.

(** The first byte of the rule. *)
Definition ruleByte : ascii := ascii_of_N 226.

Lemma header_width (theme : display.Theme) (category : string) :
  0 < display.len (display.stripAnsi (display.header theme category)).
Proof.
  assert (avoids ruleByte (display.stripAnsi (display.header theme category))
          = false) as H.
  { unfold display.stripAnsi. rewrite dropAnsi_avoids by (by repeat split).
    unfold display.header. rewrite !avoids_append.
    change (avoids ruleByte "─── ") with false. by rewrite andb_false_r. }
  unfold display.len. destruct (display.stripAnsi _); [done|].
  cbn [String.length]. lia.
Qed.

Lemma linesLoop_mono (theme : display.Theme) (W : Z) (lines final final' : list string)
    (w w' : Z) :
  display.linesLoop theme W lines final w = Ret (final', w') -> w <= w'.
Proof.
  revert final w. induction lines as [|line lines IH]; intros final w.
  - cbn. intros [= _ <-]. lia.
  - cbn [display.linesLoop].
    destruct (strings.Contains line "───").
    { intros H%IH. destruct (w <? _) eqn:E; [apply Z.ltb_lt in E|]; lia. }
    destruct (strings.Contains line ":"); [|apply IH].
    destruct (index _ 0) as [key|]; [|done]. cbn [obind].
    destruct (index _ 1) as [value|]; [|done]. cbn [obind].
    destruct (strings.Repeat _ _) as [padding|]; [|done]. cbn [obind].
    intros H%IH. destruct (w <? _) eqn:E; [apply Z.ltb_lt in E|]; lia.
Qed.

Lemma firstPass_nil (theme : display.Theme)
    (gs : list (string * list display.infoEntry)) :
  concat ((fun g => visible g.2) <$> gs) = [] ->
  concat (firstPass theme <$> gs) = [].
Proof.
  induction gs as [|g gs IH]; [done|]. cbn [fmap list_fmap concat].
  intros [Hg Hgs]%app_eq_nil. unfold firstPass at 1. rewrite Hg.
  by apply IH.
Qed.

Lemma firstPass_head (theme : display.Theme)
    (gs : list (string * list display.infoEntry)) :
  concat ((fun g => visible g.2) <$> gs) <> [] ->
  exists category rest,
    concat (firstPass theme <$> gs) = display.header theme category :: rest.
Proof.
  induction gs as [|g gs IH]; [done|]. cbn [fmap list_fmap concat].
  unfold firstPass at 1. destruct (visible g.2) as [|e vis].
  - cbn [app]. apply IH.
  - intros _. by eexists _, _.
Qed.

(** X3: [DisplaySystemInfo] returns for every record and every theme:
    the two index expressions of the second pass are in range and no
    padding has a negative length, whatever the values hold.  When no
    item is shown it writes an empty line and nothing else; otherwise
    it writes the title, moved right by half the greatest width less
    six, the lines and an empty line. *)
Theorem DisplaySystemInfo_returns (info : SystemInfo) (theme : display.Theme) :
  exists lines w,
    display.formatLines info theme = Ret (lines, w)
    /\ (shownItems info = [] -> display.DisplaySystemInfo info theme = Ret LF)
    /\ (shownItems info <> [] ->
        0 < w
        /\ display.DisplaySystemInfo info theme
           = Ret (LF +:+ strings.repeat (Z.to_nat (Z.quot w 2 - 6)) " "
                  +:+ display.Accent theme +:+ "KernelView Go"
                  +:+ display.Reset theme +:+ LF +:+ LF
                  +:+ display.printlnAll lines +:+ LF)).
Proof.
  destruct (formatLines_ok info theme) as ([lines w] & Hf).
  exists lines, w. split; [done|].
  unfold display.DisplaySystemInfo. rewrite Hf. cbn [obind].
  revert Hf. unfold display.formatLines. rewrite groupsLoop_eq. cbn [app].
  fold (shownItems info). split.
  - intros Hnil. unfold shownItems in Hnil.
    rewrite (firstPass_nil _ _ Hnil) in Hf. cbn in Hf.
    by injection Hf as <- <-.
  - intros Hne. unfold shownItems in Hne.
    destruct (firstPass_head theme _ Hne) as (category & rest & E).
    rewrite E in Hf. rewrite linesLoop_header in Hf by apply header_rule.
    apply linesLoop_mono in Hf. unfold widthStep in Hf.
    pose proof (header_width theme category) as Hw.
    assert (0 < w) as Hpos.
    { destruct (0 <? _) eqn:E0; [lia|]. apply Z.ltb_ge in E0. lia. }
    split; [done|].
    rewrite (proj2 (Z.ltb_lt 0 w)) by done.
    unfold strings.Repeat, display.Max.
    change (display.len "KernelView Go") with 13.
    change (Z.quot 13 2) with 6.
    destruct (0 <? Z.quot w 2 - 6) eqn:E1.
    + apply Z.ltb_lt in E1.
      destruct (_ <? 0) eqn:E2; [apply Z.ltb_lt in E2; lia|].
      cbn [obind]. by rewrite !append_assoc.
    + apply Z.ltb_ge in E1. cbn [obind Z.ltb Z.compare].
      replace (Z.to_nat (Z.quot w 2 - 6)) with 0%nat by lia.
      by rewrite !append_assoc.
Qed.

(** ** The output of a command *)

Lemma decode_shorter (s rest : string) (r : Z) :
  utf8.DecodeRuneInString s = Some (r, rest) ->
  (String.length rest < String.length s)%nat.
Proof.
  unfold utf8.DecodeRuneInString. cbv zeta.
  repeat case_match; intros [= <- <-]; subst; cbn [String.length]; lia.
Qed.

(** A rune that is white space is decoded the same whatever follows
    its bytes. *)
Lemma decode_space_append (p rest x : string) (r : Z) :
  utf8.DecodeRuneInString p = Some (r, rest) -> unicode.IsSpace r = true ->
  utf8.DecodeRuneInString (p +:+ x) = Some (r, rest +:+ x).
Proof.
  assert (HE : unicode.IsSpace utf8.RuneError = false) by reflexivity.
  unfold utf8.DecodeRuneInString. cbv zeta.
  destruct p as [|c0 [|c1 [|c2 [|c3 r3]]]]; norm_append; [done|..];
    repeat case_match; intros [= <- <-] Hs; subst; norm_append;
    try reflexivity; congruence.
Qed.

Lemma substring_take (m : nat) (s : string) :
  String.substring 0 m s = strings.takeBytes m s.
Proof.
  revert s. induction m as [|m IH]; intros [|c s]; cbn; try done.
  by rewrite IH.
Qed.

Lemma take_drop (m : nat) (s : string) :
  s = strings.takeBytes m s +:+ strings.dropBytes m s.
Proof.
  revert s. induction m as [|m IH]; intros [|c s];
    cbn [strings.takeBytes strings.dropBytes]; norm_append; try done.
  by rewrite <- IH.
Qed.

Lemma length_take_le (m : nat) (s : string) :
  (String.length (strings.takeBytes m s) <= m)%nat.
Proof.
  revert s. induction m as [|m IH]; intros [|c s]; cbn; try lia.
  specialize (IH s). lia.
Qed.

Lemma decodeLast_init (s init : string) (r : Z) :
  utf8.DecodeLastRuneInString s = Some (r, init) ->
  (String.length init < String.length s)%nat
  /\ exists x, s = init +:+ x.
Proof.
  unfold utf8.DecodeLastRuneInString, utf8.butLast, utf8.lastBytes.
  cbv zeta. rewrite !substring_take.
  destruct s as [|c s]; [done|]. intros H.
  assert (exists k, (1 <= k)%nat
            /\ init = strings.takeBytes (String.length (String c s) - k)
                        (String c s)) as (k & Hk & ->).
  { revert H. repeat case_match; intros [= <- <-];
      first [exists 1%nat; split; [lia|reflexivity]
            | exists 2%nat; split; [lia|reflexivity]
            | exists 3%nat; split; [lia|reflexivity]
            | exists 4%nat; split; [lia|reflexivity]]. }
  split.
  - pose proof (length_take_le (String.length (String c s) - k) (String c s)).
    cbn [String.length] in *. lia.
  - eexists. apply take_drop.
Qed.

(** White space in front of [s], at its end. *)
Definition leadSpace (s : string) : bool :=
  match utf8.DecodeRuneInString s with
  | Some (r, _) => unicode.IsSpace r
  | None => false
  end.

Definition trailSpace (s : string) : bool :=
  match utf8.DecodeLastRuneInString s with
  | Some (r, _) => unicode.IsSpace r
  | None => false
  end.

Lemma trimLeftFuel_lead (fuel : nat) (s : string) :
  (String.length s <= fuel)%nat -> leadSpace (strings.trimLeftFuel fuel s) = false.
Proof.
  revert s. induction fuel as [|f IH]; intros s Hs.
  - by destruct s; [|cbn in Hs; lia].
  - cbn [strings.trimLeftFuel].
    destruct (utf8.DecodeRuneInString s) as [[r rest]|] eqn:E.
    + destruct (unicode.IsSpace r) eqn:Er.
      * apply IH. apply decode_shorter in E. lia.
      * unfold leadSpace. by rewrite E.
    + unfold leadSpace. by rewrite E.
Qed.

Lemma trimLeftFuel_id (fuel : nat) (s : string) :
  leadSpace s = false -> strings.trimLeftFuel fuel s = s.
Proof.
  unfold leadSpace. destruct fuel as [|f]; [done|]. cbn [strings.trimLeftFuel].
  destruct (utf8.DecodeRuneInString s) as [[r rest]|]; [|done]. by intros ->.
Qed.

Lemma trimRightFuel_trail (fuel : nat) (s : string) :
  (String.length s <= fuel)%nat ->
  trailSpace (strings.trimRightFuel fuel s) = false.
Proof.
  revert s. induction fuel as [|f IH]; intros s Hs.
  - by destruct s; [|cbn in Hs; lia].
  - cbn [strings.trimRightFuel].
    destruct (utf8.DecodeLastRuneInString s) as [[r init]|] eqn:E.
    + destruct (unicode.IsSpace r) eqn:Er.
      * apply IH. apply decodeLast_init in E as [E _]. lia.
      * unfold trailSpace. by rewrite E.
    + unfold trailSpace. by rewrite E.
Qed.

Lemma trimRightFuel_id (fuel : nat) (s : string) :
  trailSpace s = false -> strings.trimRightFuel fuel s = s.
Proof.
  unfold trailSpace. destruct fuel as [|f]; [done|]. cbn [strings.trimRightFuel].
  destruct (utf8.DecodeLastRuneInString s) as [[r init]|]; [|done]. by intros ->.
Qed.

Lemma trimRightFuel_prefix (fuel : nat) (s : string) :
  exists x, s = strings.trimRightFuel fuel s +:+ x.
Proof.
  revert s. induction fuel as [|f IH]; intros s.
  - exists "". cbn. by rewrite append_nil_r.
  - cbn [strings.trimRightFuel].
    destruct (utf8.DecodeLastRuneInString s) as [[r init]|] eqn:E;
      [|exists ""; by rewrite append_nil_r].
    destruct (unicode.IsSpace r); [|exists ""; by rewrite append_nil_r].
    apply decodeLast_init in E as [_ [x ->]].
    destruct (IH init) as [y Hy]. exists (y +:+ x).
    by rewrite <- append_assoc, <- Hy.
Qed.

Lemma trimRightFuel_lead (fuel : nat) (s : string) :
  leadSpace s = false -> leadSpace (strings.trimRightFuel fuel s) = false.
Proof.
  intros Hs. destruct (trimRightFuel_prefix fuel s) as [x Hx].
  destruct (leadSpace (strings.trimRightFuel fuel s)) eqn:E; [|done].
  unfold leadSpace in E, Hs.
  destruct (utf8.DecodeRuneInString (strings.trimRightFuel fuel s))
    as [[r rest]|] eqn:Ed; [|done].
  rewrite Hx, (decode_space_append _ _ x _ Ed E) in Hs. congruence.
Qed.

(** [TrimSpace] on a trimmed string changes nothing. *)
Lemma TrimSpace_idem (s : string) :
  strings.TrimSpace (strings.TrimSpace s) = strings.TrimSpace s.
Proof.
  unfold strings.TrimSpace, strings.trimLeft, strings.trimRight.
  set (a := strings.trimLeftFuel (String.length s) s).
  assert (Ha : leadSpace a = false) by (by apply trimLeftFuel_lead).
  set (b := strings.trimRightFuel (String.length a) a).
  assert (Hb : leadSpace b = false) by (by apply trimRightFuel_lead).
  assert (Hb' : trailSpace b = false) by (by apply trimRightFuel_trail).
  rewrite (trimLeftFuel_id _ b Hb). by apply trimRightFuel_id.
Qed.

(** Every rune of [s] is white space. *)
Fixpoint blankFuel (fuel : nat) (s : string) : bool :=
  match fuel with
  | O => String.eqb s ""
  | S f =>
      match utf8.DecodeRuneInString s with
      | None => true
      | Some (r, rest) => unicode.IsSpace r && blankFuel f rest
      end
  end.

Definition blank (s : string) : bool := blankFuel (String.length s) s.

Lemma trimLeftFuel_blank (fuel : nat) (s : string) :
  blankFuel fuel s = true -> strings.trimLeftFuel fuel s = "".
Proof.
  revert s. induction fuel as [|f IH]; intros s.
  - cbn. by intros ->%String.eqb_eq.
  - cbn [blankFuel strings.trimLeftFuel].
    destruct (utf8.DecodeRuneInString s) as [[r rest]|] eqn:E.
    + intros [-> H]%andb_true_iff. by apply IH.
    + intros _. destruct s; [done|]. exfalso. revert E.
      unfold utf8.DecodeRuneInString. cbv zeta. repeat case_match; done.
Qed.

Lemma TrimSpace_blank (s : string) : blank s = true -> strings.TrimSpace s = "".
Proof.
  intros H. unfold strings.TrimSpace, strings.trimLeft.
  by rewrite trimLeftFuel_blank.
Qed.

(** X10: what [runCommand] and [runShellCommand] return is trimmed, so
    that trimming it again, as some probes do, changes nothing; and a
    command that prints only white space, of ASCII or not, is taken as
    one that printed nothing, like one that failed. *)
Theorem command_output_trimmed (h : Host) (name : string) (arg : list string)
    (command : string) :
  strings.TrimSpace (runCommand h name arg) = runCommand h name arg
  /\ strings.TrimSpace (runShellCommand h command) = runShellCommand h command
  /\ (forall out, exec_Output h name arg = Some out -> blank out = true ->
        runCommand h name arg = "")
  /\ (GOOS h <> "windows" ->
      forall out, exec_Output h "sh" ["-c"; command] = Some out ->
        blank out = true -> runShellCommand h command = "").
Proof.
  unfold runCommand, runShellCommand. split_and!.
  - destruct (exec_Output h name arg); [apply TrimSpace_idem|done].
  - destruct (if String.eqb (GOOS h) "windows" then _ else _);
      [apply TrimSpace_idem|done].
  - intros out -> Hb. by apply TrimSpace_blank.
  - intros Hos out Hout Hb. apply String.eqb_neq in Hos.
    rewrite Hos, Hout. by apply TrimSpace_blank.
Qed.

(** X4 on [sampleInfo]: two headers and three items, the keys padded
    to the ten bytes of "IP Address". *)
Lemma report_lines_witness :
  widen 0 (shownItems sampleInfo) = 10
  /\ display.formatLines sampleInfo display.FastTheme
     = Ret (concat (renderGroup display.FastTheme 10
                      <$> display.groups sampleInfo), 27).
Proof.
  split; [reflexivity|].
  destruct (report_lines sampleInfo display.FastTheme) as (H & _).
  - intros f. destruct f; reflexivity.
  - exact H.
Defined.

(** X5 for a header and an item line of the fast theme. *)
Lemma stripAnsi_theme_witness :
  display.stripAnsi (display.header display.FastTheme "System")
  = "─── System ───"
  /\ display.len (display.stripAnsi (display.header display.FastTheme "System"))
     = 26.
Proof.
  destruct (stripAnsi_theme display.FastTheme "System" "OS" "Arch Linux" 8)
    as (H1 & H2 & _).
  - right. reflexivity.
  - reflexivity.
  - reflexivity.
  - reflexivity.
  - split; [exact H1|exact H2].
Defined.

(** X3 on [sampleInfo]: the greatest width is 27 bytes, the title is
    moved right by seven. *)
Lemma DisplaySystemInfo_returns_witness :
  exists lines,
    display.DisplaySystemInfo sampleInfo display.FastTheme
    = Ret (LF +:+ strings.repeat 7 " "
           +:+ display.Accent display.FastTheme +:+ "KernelView Go"
           +:+ display.Reset display.FastTheme +:+ LF +:+ LF
           +:+ display.printlnAll lines +:+ LF).
Proof.
  destruct (DisplaySystemInfo_returns sampleInfo display.FastTheme)
    as (lines & w & Hf & _ & H).
  assert (Hw : w = 27).
  { vm_compute in Hf. by injection Hf as _ <-. }
  subst w. destruct H as [_ H]; [by_compute|].
  exists lines. exact H.
Defined.

(** X10 for a command that prints the rune U+0085 and a line feed. *)
Lemma command_output_trimmed_witness :
  runShellCommand
    (bareHost "linux"
       (Some (String (ascii_of_N 194) (String (ascii_of_N 133) LF))))
    "lspci" = "".
Proof.
  destruct (command_output_trimmed
              (bareHost "linux"
                 (Some (String (ascii_of_N 194) (String (ascii_of_N 133) LF))))
              "sh" ["-c"; "lspci"] "lspci") as (_ & _ & _ & H).
  apply (H ltac:(discriminate)
           (String (ascii_of_N 194) (String (ascii_of_N 133) LF)));
    reflexivity.
Defined.

(** ** A whole run *)

(** X6: on a machine where [grep] prints only lines it selected, a
    run of the program returns for every command line: no goroutine
    and no step of the display panics.  Its exit status is 0, or 2
    when the command line is refused, and only then nothing is
    written to the standard output by a run that collected. *)
Theorem runMain_returns (h : Host) (args : list string) :
  grepSelects h ->
  exists code out,
    runMain h args = Ret (code, out)
    /\ (code = 0 \/ code = 2)
    /\ (forall isFast theme, main args = Collect isFast theme ->
          code = 0 /\ out <> ""
          /\ exists info, GetSystemInfo h isFast = Ret info
                          /\ display.DisplaySystemInfo info theme = Ret out).
Proof.
  intros Hg. unfold runMain.
  destruct (main args) as [code|isFast theme] eqn:E.
  - exists code, "". split_and!; [done| |done].
    revert E. unfold main. destruct (flag.Parse _ _ _); intros [= <-]; auto.
  - rewrite (GetSystemInfo_eq h isFast Hg). cbn [obind].
    destruct (DisplaySystemInfo_ok (perform (allWrites h isFast) zeroInfo) theme)
      as (out & Hout).
    rewrite Hout. cbn [obind]. exists 0, out. split_and!; [done|by left|].
    intros ? ? [= <- <-]. split_and!; [done| |eexists; split; [by apply GetSystemInfo_eq|exact Hout]].
    revert Hout. unfold display.DisplaySystemInfo.
    destruct (display.formatLines _ _) as [[lines w]|]; [|done].
    cbn [obind]. destruct (if 0 <? w then _ else _) as [banner|]; [|done].
    cbn [obind]. intros [= <-]. rewrite <- append_assoc.
    intros Hnil. apply (f_equal String.length) in Hnil.
    rewrite length_append in Hnil. cbn in Hnil. lia.
Qed.

(** X6 on [demoHost] with the flag of the fast mode. *)
Lemma runMain_returns_witness :
  exists out, runMain demoHost ["-f"] = Ret (0, out) /\ out <> "".
Proof.
  destruct (runMain_returns demoHost ["-f"]) as (code & out & H & _ & Hc).
  - left. vm_compute. reflexivity.
  - assert (Hm : main ["-f"] = Collect true display.FastTheme)
      by (vm_compute; reflexivity).
    destruct (Hc true display.FastTheme Hm) as (-> & Hne & _).
    exists out. split; [exact H|exact Hne].
Defined.

(** ** The report of the fast mode *)

(** X7: the report of a pass in fast mode has no line for the CPU
    usage, the temperature, the packages, the languages and the open
    ports: no item with one of these keys is shown. *)
Theorem fast_report_keys (h : Host) (info : SystemInfo) :
  grepSelects h ->
  GetSystemInfo h true = Ret info ->
  forall e, e ∈ shownItems info ->
    e.1 ∉ ["Usage"; "Temperature"; "Packages"; "Languages"; "Ports"].
Proof.
  intros Hg HG e He.
  pose proof (fun f => load_GetSystemInfo h true info f Hg HG) as L.
  assert (HU : CPUUsage info = "").
  { specialize (L fCPUUsage). cbn [load ownerBody] in L.
    by rewrite L, lastWrite_cpu_fast. }
  assert (HT : Temperature info = "") by apply (L fTemperature).
  assert (HP : Packages info = "") by apply (L fPackages).
  assert (HL : Languages info = "") by apply (L fLanguages).
  assert (HO : OpenPorts info = "") by apply (L fOpenPorts).
  apply elem_of_shownItems in He as (g & Hg' & He & Hs).
  unfold display.groups in Hg'. rewrite HU, HT, HP, HL, HO in Hg'.
  repeat (apply elem_of_cons in Hg' as [->|Hg']; cbn [snd] in He;
          [repeat (apply elem_of_cons in He as [->|He];
                   [first [discriminate Hs | by_compute]|]);
           by apply elem_of_nil in He|]).
  by apply elem_of_nil in Hg'.
Qed.

(** X7 on [demoHost]. *)
Lemma fast_report_keys_witness :
  exists info,
    GetSystemInfo demoHost true = Ret info
    /\ forall e, e ∈ shownItems info ->
          e.1 ∉ ["Usage"; "Temperature"; "Packages"; "Languages"; "Ports"].
Proof.
  assert (Hg : grepSelects demoHost) by (left; vm_compute; reflexivity).
  eexists. split; [apply (GetSystemInfo_eq demoHost true Hg)|].
  apply (fast_report_keys demoHost _ Hg), GetSystemInfo_eq, Hg.
Defined.

(** ** The address line of the report *)

(** No byte of [s] is an upper-case letter. *)
Fixpoint noUpper (s : string) : bool :=
  match s with
  | EmptyString => true
  | String c r => negb (strings.isUpper c) && noUpper r
  end.

Lemma noUpper_append (a b : string) :
  noUpper (a +:+ b) = noUpper a && noUpper b.
Proof.
  induction a as [|c a IH]; norm_append; cbn [noUpper]; [done|].
  by rewrite IH, andb_assoc.
Qed.

Lemma digitByte_lower (d : N) :
  (d < 10)%N -> strings.isUpper (strconv.digitByte d) = false.
Proof.
  intros Hd. apply digit_cases in Hd. simpl in Hd.
  repeat (destruct Hd as [<-|Hd]; [reflexivity|]). destruct Hd.
Qed.

Lemma formatBits_noUpper (fuel : nat) (n : N) (acc : string) :
  noUpper acc = true -> noUpper (strconv.formatBits fuel n acc) = true.
Proof.
  revert n acc. induction fuel as [|f IH]; intros n acc Hacc; [done|].
  cbn [strconv.formatBits].
  assert (noUpper (String (strconv.digitByte (n mod 10)) acc) = true) as H.
  { cbn [noUpper]. rewrite digitByte_lower by (apply N.mod_lt; lia). done. }
  destruct (n <? 10)%N; [done|by apply IH].
Qed.

Lemma Itoa_noUpper (n : N) : noUpper (strconv.Itoa (Z.of_N n)) = true.
Proof.
  unfold strconv.Itoa.
  destruct (Z.of_N n <? 0) eqn:E; [apply Z.ltb_lt in E; lia|].
  by apply formatBits_noUpper.
Qed.

Lemma hexBits_noUpper (fuel : nat) (n : N) (acc : string) :
  noUpper acc = true -> noUpper (net.hexBits fuel n acc) = true.
Proof.
  revert n acc. induction fuel as [|f IH]; intros n acc Hacc; [done|].
  cbn [net.hexBits].
  assert (noUpper (String (net.hexDigit (n mod 16)) acc) = true) as H.
  { cbn [noUpper]. rewrite hexDigit_lower by (apply N.mod_lt; lia). done. }
  destruct (n <? 16)%N; [done|by apply IH].
Qed.

Lemma string6From_noUpper (fuel i : nat) (gs : list N) (z : nat * nat) :
  noUpper (net.string6From fuel i gs z) = true.
Proof.
  revert i. induction fuel as [|f IH]; intros i; [done|].
  cbn [net.string6From].
  destruct (8 <=? i)%nat; [done|].
  destruct (i =? z.1)%nat.
  - rewrite noUpper_append. destruct (8 <=? z.2)%nat; [done|].
    rewrite noUpper_append, IH. unfold net.appendHex.
    by rewrite hexBits_noUpper.
  - rewrite !noUpper_append, IH. unfold net.appendHex.
    rewrite hexBits_noUpper by done. by destruct (0 <? i)%nat.
Qed.

Lemma string4_noUpper (ip : netIP) : noUpper (net.string4 ip) = true.
Proof.
  unfold net.string4. induction ip as [|a [|b ip] IH]; [done|..].
  - cbn [map strings.Join]. apply Itoa_noUpper.
  - cbn [map strings.Join] in *. rewrite !noUpper_append, Itoa_noUpper.
    exact IH.
Qed.

(** [IP.String] gives "?" and hexadecimal digits, or a text without
    upper-case letters. *)
Lemma String_text (ip : netIP) :
  (exists r, net.String_ ip = String "?" r) \/ noUpper (net.String_ ip) = true.
Proof.
  unfold net.String_.
  destruct (length ip =? 0)%nat; [by right|].
  destruct (negb _ && negb _); [left; by eexists|]. right.
  destruct (net.To4 ip); [apply string4_noUpper|apply string6From_noUpper].
Qed.

Lemma getIPAddress_text (h : Host) :
  (exists r, getIPAddress h = String "?" r) \/ noUpper (getIPAddress h) = true.
Proof.
  unfold getIPAddress. destruct (net_Dial h); [apply String_text|].
  destruct (net_InterfaceAddrs h) as [addrs|]; cbn; [|by right].
  induction addrs as [|[ip|] addrs IH]; cbn [firstIPv4]; [by right| |done].
  destruct (_ && _); [apply String_text|done].
Qed.

Lemma getIPAddress_head (h : Host) : headOK (getIPAddress h).
Proof.
  unfold getIPAddress. destruct (net_Dial h); [apply String_head|].
  destruct (net_InterfaceAddrs h) as [addrs|]; cbn; [|by eexists _, _].
  induction addrs as [|[ip|] addrs IH]; cbn [firstIPv4];
    [by eexists _, _| |done].
  destruct (_ && _); [apply String_head|done].
Qed.

Lemma getIPAddress_shown (h : Host) : display.shown (getIPAddress h) = true.
Proof.
  apply shown_spec. destruct (getIPAddress_head h) as (c & r & E & _).
  destruct (getIPAddress_text h) as [(r' & E')|Hn].
  - rewrite E'. rewrite !not_elem_of_cons. split_and!; try discriminate.
    apply not_elem_of_nil.
  - intros Hin. rewrite !elem_of_cons, elem_of_nil in Hin.
    rewrite E in *.
    repeat (destruct Hin as [Hin|Hin]; [rewrite Hin in Hn; discriminate|]).
    done.
Qed.

(** X13: the report of every pass has the line of the IP address,
    whatever the machine answers: the probe never returns one of the
    seven texts the report leaves out.  So no report is empty. *)
Theorem report_has_address (h : Host) (isFast : bool) (info : SystemInfo) :
  grepSelects h ->
  GetSystemInfo h isFast = Ret info ->
  display.shown (getIPAddress h) = true
  /\ ("IP Address", getIPAddress h) ∈ shownItems info.
Proof.
  intros Hg HG. split; [apply getIPAddress_shown|].
  pose proof (load_GetSystemInfo h isFast info fIPAddress Hg HG) as H1.
  cbn [load ownerBody lastWrite] in H1. revert H1. decide_fields.
  cbn. intros HIP.
  apply elem_of_shownItems.
  exists ("Network", [("Hostname", Hostname info); ("IP Address", IPAddress info)]).
  split_and!.
  - unfold display.groups. do 2 apply list_elem_of_further.
    apply list_elem_of_here.
  - cbn [snd]. rewrite HIP. apply list_elem_of_further, list_elem_of_here.
  - apply getIPAddress_shown.
Qed.

(** X13 on [demoHost] in fast mode. *)
Lemma report_has_address_witness :
  exists info,
    GetSystemInfo demoHost true = Ret info
    /\ ("IP Address", "10.0.0.7") ∈ shownItems info.
Proof.
  assert (Hg : grepSelects demoHost) by (left; vm_compute; reflexivity).
  eexists. split; [apply (GetSystemInfo_eq demoHost true Hg)|].
  apply (report_has_address demoHost true _ Hg), GetSystemInfo_eq, Hg.
Defined.

(** ** What the fast mode does not ask *)



(** ** Priority chains over the environment *)

(** The probes that try one environment variable and, only when it is
    empty, a later one. *)
Definition chains : list ((Host -> outcome string) * string * string) :=
  [(pure getTerminal, "TERM_PROGRAM", "TERM");
   (pure getDesktopEnvironment, "XDG_CURRENT_DESKTOP", "DESKTOP_SESSION");
   (getSystemLocale, "LANG", "LC_ALL");
   (getShell, "PSModulePath", "ComSpec");
   (getShell, "PSModulePath", "WT_SESSION");
   (getShell, "ComSpec", "WT_SESSION")].

Lemma getenv_setenv_eq (h : Host) (v x : string) :
  os_Getenv (setenv h v x) v = x.
Proof. cbn. by rewrite String.eqb_refl. Qed.

(** X8: in each of these chains the first variable, when it is set,
    decides alone: whatever the later variable is changed to, the
    probe returns the same. *)
Theorem first_source_wins (h : Host)
    (probe : Host -> outcome string) (first later x : string) :
  (probe, first, later) ∈ chains ->
  os_Getenv h first <> "" ->
  probe (setenv h later x) = probe h.
Proof.
  unfold chains. rewrite !elem_of_cons, elem_of_nil.
  intros H Hset.
  repeat (destruct H as [H|H]; [injection H as -> -> ->|]); [..|done];
    apply String.eqb_neq in Hset.
  - unfold pure, getTerminal.
    rewrite getenv_setenv_ne by done. unfold nonEmpty. by rewrite Hset.
  - unfold pure, getDesktopEnvironment.
    rewrite getenv_setenv_ne by done. by rewrite Hset.
  - unfold getSystemLocale.
    rewrite getenv_setenv_ne by done. by rewrite Hset.
  - unfold getShell, nonEmpty. rewrite !getenv_setenv_ne by done.
    rewrite !Hset. reflexivity.
  - unfold getShell, nonEmpty. rewrite !getenv_setenv_ne by done.
    rewrite !Hset. reflexivity.
  - unfold getShell, nonEmpty. rewrite !getenv_setenv_ne by done.
    rewrite !Hset. reflexivity.
Qed.

(** X8 on [demoHost] with [TERM_PROGRAM] set: [TERM] has no say. *)
Lemma first_source_wins_witness :
  pure getTerminal (setenv (setenv demoHost "TERM_PROGRAM" "iTerm.app") "TERM" "xterm")
  = pure getTerminal (setenv demoHost "TERM_PROGRAM" "iTerm.app").
Proof.
  apply (first_source_wins (setenv demoHost "TERM_PROGRAM" "iTerm.app")
           (pure getTerminal) "TERM_PROGRAM" "TERM" "xterm").
  - apply list_elem_of_here.
  - discriminate.
Defined.

(** ** The name of the operating system *)

(** The text the os-release expression starts with. *)
Definition prettyKey : string := "PRETTY_NAME=" +:+ DQ.

Lemma span_notQuote (name post : string) :
  avoids regexp.quote name = true ->
  regexp.span regexp.notQuote (name +:+ String regexp.quote post)
  = (name, String regexp.quote post).
Proof.
  induction name as [|c name IH]; norm_append; cbn [avoids regexp.span].
  - intros _. unfold regexp.notQuote. by rewrite Ascii.eqb_refl.
  - intros [Hc Hn]%andb_true_iff. unfold regexp.notQuote at 1.
    rewrite Hc, IH by done. done.
Qed.

Lemma prettyNameAt_here (name post : string) :
  name <> "" -> avoids regexp.quote name = true ->
  regexp.prettyNameAt (prettyKey +:+ name +:+ DQ +:+ post) = Some name.
Proof.
  intros Hne Hq. unfold regexp.prettyNameAt.
  change ("PRETTY_NAME=" +:+ String regexp.quote "") with prettyKey.
  rewrite HasPrefix_append.
  change 13%nat with (String.length prettyKey).
  rewrite dropBytes_append.
  change (DQ +:+ post) with (String regexp.quote post).
  rewrite span_notQuote by done. by destruct name.
Qed.

(** The key has no border: it starts nowhere inside a text that ends
    where the key begins again. *)
Lemma prettyKey_straddle (u tail : string) :
  u <> "" -> strings.HasPrefix u prettyKey = false ->
  strings.HasPrefix (u +:+ prettyKey +:+ tail) prettyKey = false.
Proof.
  intros Hne H. destruct u as [|c0 u]; [done|]. clear Hne.
  unfold prettyKey, DQ in *. norm_append.
  do 12 (destruct u as [|? u];
         [norm_append; cbn [strings.HasPrefix]; cbn [Ascii.eqb Bool.eqb andb];
          by rewrite ?andb_false_r|]).
  norm_append. exact H.
Qed.

Lemma FindPrettyName_skip (pre tail : string) :
  strings.Contains pre prettyKey = false ->
  regexp.FindPrettyName (pre +:+ prettyKey +:+ tail)
  = regexp.FindPrettyName (prettyKey +:+ tail).
Proof.
  unfold strings.Contains.
  induction pre as [|c pre IH]; [done|]. cbn [strings.Index].
  destruct (strings.HasPrefix (String c pre) prettyKey) eqn:E; [done|].
  destruct (strings.Index pre prettyKey) eqn:Ei; [done|]. intros _.
  pose proof (prettyKey_straddle (String c pre) tail) as Hs.
  rewrite append_cons in *. cbn [regexp.FindPrettyName].
  unfold regexp.prettyNameAt at 1.
  change ("PRETTY_NAME=" +:+ String regexp.quote "") with prettyKey.
  rewrite Hs by done. by apply IH.
Qed.

(** X9: on Linux, when the first occurrence of PRETTY_NAME= and a
    double quote in /etc/os-release is followed by a non-empty name
    and a closing quote, the probe returns that name, whatever the
    other sources of the platform say. *)
Theorem getOSInfo_pretty_name (h : Host) (pre name post : string) :
  GOOS h = "linux" ->
  os_ReadFile h "/etc/os-release"
  = Some (pre +:+ "PRETTY_NAME=" +:+ DQ +:+ name +:+ DQ +:+ post) ->
  strings.Contains pre ("PRETTY_NAME=" +:+ DQ) = false ->
  name <> "" -> avoids regexp.quote name = true ->
  getOSInfo h = Ret name.
Proof.
  intros Hos Hfile Hpre Hne Hq. unfold getOSInfo.
  rewrite Hos, Hfile. cbn [String.eqb Ascii.eqb Bool.eqb].
  cbn [mbind option_bind].
  rewrite <- (append_assoc "PRETTY_NAME=" DQ). fold prettyKey.
  rewrite FindPrettyName_skip by done.
  assert (regexp.FindPrettyName (prettyKey +:+ name +:+ DQ +:+ post) = Some name)
    as ->; [|done].
  pose proof (prettyNameAt_here name post Hne Hq) as H.
  destruct (prettyKey +:+ name +:+ DQ +:+ post); cbn [regexp.FindPrettyName];
    by rewrite H.
Qed.

(** X9 on [archHost], whose gopsutil queries say otherwise. *)
Lemma getOSInfo_pretty_name_witness : getOSInfo archHost = Ret "Arch Linux".
Proof.
  apply (getOSInfo_pretty_name archHost
           ("NAME=" +:+ DQ +:+ "Arch Linux" +:+ DQ +:+ LF)
           "Arch Linux" (LF +:+ "ID=arch" +:+ LF)).
  - reflexivity.
  - reflexivity.
  - reflexivity.
  - discriminate.
  - reflexivity.
Defined.

(** ** The length of a schedule *)

Section schedule_length.

Local Open Scope nat_scope.







End schedule_length.

(** ** Values on the command line *)

(** The four ways to give the fast flag a value. *)
Definition valueForms (v : string) : list string :=
  ["-f=" +:+ v; "--f=" +:+ v; "-fast=" +:+ v; "--fast=" +:+ v].

Lemma Parse_value (s v : string) (rest : list string) (b : bool) :
  s ∈ valueForms v ->
  (forall b', flag.ParseBool v = Some b' ->
     flag.Parse formal (s :: rest) b = flag.Parse formal rest b')
  /\ (flag.ParseBool v = None ->
      exists msg, flag.Parse formal (s :: rest) b = flag.Failed msg).
Proof.
  unfold valueForms. rewrite !elem_of_cons, elem_of_nil.
  intros [->|[->|[->|[->|[]]]]];
    (split; [intros b' E|intros E; eexists]);
    norm_append;
    cbn [flag.Parse flag.classify flag.cutValue Ascii.eqb Bool.eqb andb orb
         String.eqb];
    match goal with
    | |- context [formal !! ?k] =>
        let r := eval vm_compute in (formal !! k) in
        change (formal !! k) with r
    end; cbv iota; rewrite E; reflexivity.
Qed.

(** X12: a value given to the fast flag decides the mode, the last
    one when the flag comes several times, so that a closing
    [-fast=false] gives the comprehensive mode; a value that is no
    boolean ends the run with status 2; and nothing is read behind
    [--]. *)
Theorem main_flag_values (pre : list string) (s v : string) (rest : list string) :
  Forall (fun a => a ∈ fastForms) pre ->
  s ∈ valueForms v ->
  (forall b, flag.ParseBool v = Some b ->
     main (pre ++ [s])
     = Collect b (if b then display.FastTheme else display.NormalTheme))
  /\ (flag.ParseBool v = None -> main (pre ++ s :: rest) = Exit 2)
  /\ main (pre ++ "--" :: rest) = main pre.
Proof.
  intros Hpre Hs. unfold main. split_and!.
  - intros b Hb. rewrite Parse_fast_prefix by done.
    destruct (Parse_value s v [] (if pre is [] then false else true) Hs) as [H _].
    rewrite (H b Hb). by destruct b.
  - intros Hv. rewrite Parse_fast_prefix by done.
    destruct (Parse_value s v rest (if pre is [] then false else true) Hs)
      as [_ H]. destruct (H Hv) as [msg ->]. done.
  - rewrite Parse_fast_prefix by done.
    rewrite <- (app_nil_r pre) at 2. rewrite Parse_fast_prefix by done.
    reflexivity.
Qed.

(** X12 for the command line [-f -fast=false]. *)
Lemma main_flag_values_witness :
  main ["-f"; "-fast=false"] = Collect false display.NormalTheme.
Proof.
  destruct (main_flag_values ["-f"] "-fast=false" "false" []) as (H & _).
  - repeat constructor.
  - by_compute.
  - apply (H false); reflexivity.
Defined.
